(** * The SQLite storage layer of the marketplace server

    A shallow embedding of [JsonUtils], [TimestampUtils], [DatabaseUtils]
    and of the [SQLiteStorage] repository methods, together with the
    properties of the storage contract that are checked against them.

    Conventions of the embedding.
    - A JavaScript string is its sequence of UTF-16 code units, each a
      number in [N]; [u "abc"] writes an ASCII literal.
    - [JSON.parse], [JSON.stringify] and [String.prototype.trim] are the
      ECMAScript built-ins; they are written out here after ECMA-262.
    - A row of the store, an update payload and a filter object are
      JavaScript objects used as maps: finite maps from field names to
      values.  Rows are keyed by the name under which the accessing
      statement addresses the field.  The payload of [updateUser], whose
      order of properties reaches the statement text, is an object with
      its properties in their order.  A payload names fields of its
      entity and gives them values of their types, as its type requires;
      a field that is undefined is a field the payload does not have.
    - The schema is not part of this file: every column takes every value,
      and no constraint of a table refuses a row.
    - A number is a double; the numbers held in rows are the
      integer-valued ones, kept as integers.  Sums and quotients are
      rounded as doubles are.
    - The store is threaded explicitly; a repository method is a function
      from the store to an outcome (a returned value or a raised error)
      and the store it leaves behind. *)

From Stdlib Require Import NArith ZArith Ascii String DecimalString.
From stdpp Require Import base option list gmap strings fin_maps.

Local Open Scope N_scope.
Set Warnings "-register-all".

(** ** JavaScript strings *)

Abbreviation jsstring := (list N).

(** An ASCII literal as a sequence of code units. *)
Definition u (s : string) : jsstring :=
  (fun a => N_of_ascii a) <$> list_ascii_of_string s.

Fixpoint startsWith (prefix s : jsstring) : bool :=
  match prefix, s with
  | [], _ => true
  | p :: prefix', c :: s' => (p =? c) && startsWith prefix' s'
  | _ :: _, [] => false
  end.

(** [String.prototype.includes]: [needle] occurs in [s] as a substring. *)
Fixpoint includes (needle s : jsstring) : bool :=
  startsWith needle s ||
  match s with
  | [] => false
  | _ :: s' => includes needle s'
  end.

(** White space and line terminators removed by [String.prototype.trim]
    (ECMA-262, WhiteSpace and LineTerminator). *)
Definition is_trim_space (c : N) : bool :=
  ((9 <=? c) && (c <=? 13)) || (c =? 32) || (c =? 160) || (c =? 5760)
  || ((8192 <=? c) && (c <=? 8202)) || (c =? 8232) || (c =? 8233)
  || (c =? 8239) || (c =? 8287) || (c =? 12288) || (c =? 65279).

Fixpoint trimStart (s : jsstring) : jsstring :=
  match s with
  | c :: s' => if is_trim_space c then trimStart s' else s
  | [] => []
  end.

Definition trim (s : jsstring) : jsstring :=
  reverse (trimStart (reverse (trimStart s))).

(** ** Outcomes: a returned value or a raised error *)

Inductive error :=
  | SyntaxError      (* JSON.parse on malformed text *)
  | TypeError        (* property access on undefined, call of a non-function *)
  | SqliteError      (* a statement the store refuses to prepare *)
  | RangeError       (* a statement run with the wrong number of parameters *)
  | PlainError.      (* new Error(message): the query builder's 'No values to set' *)

Inductive outcome (A : Type) :=
  | Returns (a : A)
  | Throws (e : error).
Arguments Returns {A} a.
Arguments Throws {A} e.

(** [try { body } catch (error) { handler }] *)
Definition try_catch {A} (body : outcome A) (handler : error → outcome A) : outcome A :=
  match body with
  | Returns a => Returns a
  | Throws e => handler e
  end.

(** ** JSON documents *)

(** A JSON number keeps the text of its literal, and an object its members
    in the order of the text: nothing proved below depends on the numeric
    value of a parsed number or on the lookup of a member. *)
Inductive json :=
  | JNull
  | JBool (b : bool)
  | JNum (literal : jsstring)
  | JStr (s : jsstring)
  | JArr (elements : list json)
  | JObj (members : list (jsstring * json)).

(** *** JSON.stringify *)

Definition hex_digit (n : N) : N := if n <? 10 then 48 + n else 87 + n.

(** The escape [\uXXXX] with four lower-case hexadecimal digits. *)
Definition unicode_escape (c : N) : jsstring :=
  [92; 117; hex_digit (c / 4096 mod 16); hex_digit (c / 256 mod 16);
   hex_digit (c / 16 mod 16); hex_digit (c mod 16)].

Definition is_high_surrogate (c : N) : bool := (55296 <=? c) && (c <=? 56319).
Definition is_low_surrogate (c : N) : bool := (56320 <=? c) && (c <=? 57343).

(** One code unit that is not a surrogate, as QuoteJSONString writes it. *)
Definition escape_unit (c : N) : jsstring :=
  if c =? 8 then [92; 98]
  else if c =? 9 then [92; 116]
  else if c =? 10 then [92; 110]
  else if c =? 12 then [92; 102]
  else if c =? 13 then [92; 114]
  else if c =? 34 then [92; 34]
  else if c =? 92 then [92; 92]
  else if c <? 32 then unicode_escape c
  else [c].

(** The body of QuoteJSONString: a surrogate pair is copied, a lone
    surrogate is escaped. *)
Fixpoint quote_units (s : jsstring) : jsstring :=
  match s with
  | [] => []
  | c :: r =>
    if is_high_surrogate c then
      match r with
      | d :: r' =>
        if is_low_surrogate d then c :: d :: quote_units r'
        else unicode_escape c ++ quote_units r
      | [] => unicode_escape c
      end
    else if is_low_surrogate c then unicode_escape c ++ quote_units r
    else escape_unit c ++ quote_units r
  end.

Definition QuoteJSONString (s : jsstring) : jsstring :=
  34 :: quote_units s ++ [34].

Fixpoint join_with (sep : jsstring) (parts : list jsstring) : jsstring :=
  match parts with
  | [] => []
  | [p] => p
  | p :: parts' => p ++ sep ++ join_with sep parts'
  end.

Fixpoint JSON_stringify (j : json) : jsstring :=
  match j with
  | JNull => u "null"
  | JBool true => u "true"
  | JBool false => u "false"
  | JNum literal => literal
  | JStr s => QuoteJSONString s
  | JArr elements => 91 :: join_with [44] (JSON_stringify <$> elements) ++ [93]
  | JObj members =>
    123 :: join_with [44]
             ((fun m => QuoteJSONString m.1 ++ 58 :: JSON_stringify m.2) <$> members)
        ++ [125]
  end.

(** *** JSON.parse *)

(** What a parsing function yields on a prefix of the text: a value and the
    text left, a syntax error, or no answer within the recursion budget. *)
Inductive parsed (A : Type) :=
  | Ok (a : A) (rest : jsstring)
  | Malformed
  | OutOfFuel.
Arguments Ok {A} a rest.
Arguments Malformed {A}.
Arguments OutOfFuel {A}.

(** JSON white space: tab, line feed, carriage return, space. *)
Definition is_json_space (c : N) : bool :=
  (c =? 9) || (c =? 10) || (c =? 13) || (c =? 32).

Fixpoint skip_ws (s : jsstring) : jsstring :=
  match s with
  | c :: s' => if is_json_space c then skip_ws s' else s
  | [] => []
  end.

Definition hex_value (c : N) : option N :=
  if (48 <=? c) && (c <=? 57) then Some (c - 48)
  else if (97 <=? c) && (c <=? 102) then Some (c - 87)
  else if (65 <=? c) && (c <=? 70) then Some (c - 55)
  else None.

Definition simple_escape (c : N) : option N :=
  if c =? 34 then Some 34
  else if c =? 92 then Some 92
  else if c =? 47 then Some 47
  else if c =? 98 then Some 8
  else if c =? 102 then Some 12
  else if c =? 110 then Some 10
  else if c =? 114 then Some 13
  else if c =? 116 then Some 9
  else None.

(** The characters of a string literal after its opening quote, up to and
    including the closing quote. *)
Fixpoint parse_string (s : jsstring) : parsed jsstring :=
  match s with
  | [] => Malformed
  | c :: r =>
    if c =? 34 then Ok [] r
    else if c =? 92 then
      match r with
      | [] => Malformed
      | e :: r1 =>
        if e =? 117 then
          match r1 with
          | h1 :: h2 :: h3 :: h4 :: r2 =>
            match hex_value h1, hex_value h2, hex_value h3, hex_value h4 with
            | Some a, Some b, Some c', Some d =>
              match parse_string r2 with
              | Ok t rest => Ok (4096 * a + 256 * b + 16 * c' + d :: t) rest
              | other => other
              end
            | _, _, _, _ => Malformed
            end
          | _ => Malformed
          end
        else
          match simple_escape e with
          | Some x =>
            match parse_string r1 with
            | Ok t rest => Ok (x :: t) rest
            | other => other
            end
          | None => Malformed
          end
      end
    else if c <? 32 then Malformed
    else
      match parse_string r with
      | Ok t rest => Ok (c :: t) rest
      | other => other
      end
  end.

Definition is_digit (c : N) : bool := (48 <=? c) && (c <=? 57).

Fixpoint span_digits (s : jsstring) : jsstring * jsstring :=
  match s with
  | c :: s' =>
    if is_digit c then let '(ds, rest) := span_digits s' in (c :: ds, rest)
    else ([], s)
  | [] => ([], [])
  end.

(** The optional fraction of a number literal. *)
Definition parse_fraction (s : jsstring) : parsed jsstring :=
  match s with
  | c :: s1 =>
    if c =? 46 then
      match span_digits s1 with
      | ([], _) => Malformed
      | (ds, rest) => Ok (c :: ds) rest
      end
    else Ok [] s
  | [] => Ok [] s
  end.

(** The optional exponent of a number literal. *)
Definition parse_exponent (s : jsstring) : parsed jsstring :=
  match s with
  | e :: s1 =>
    if (e =? 101) || (e =? 69) then
      let '(sign, s2) :=
        match s1 with
        | g :: s2 => if (g =? 43) || (g =? 45) then ([g], s2) else ([], s1)
        | [] => ([], s1)
        end in
      match span_digits s2 with
      | ([], _) => Malformed
      | (ds, rest) => Ok (e :: sign ++ ds) rest
      end
    else Ok [] s
  | [] => Ok [] s
  end.

(** A number literal: an optional minus sign; the integer part, a single
    zero or a non-zero digit followed by digits; an optional fraction; an
    optional exponent. *)
Definition parse_number (s : jsstring) : parsed jsstring :=
  let '(sign, s1) :=
    match s with
    | c :: s1 => if c =? 45 then ([c], s1) else ([], s)
    | [] => ([], s)
    end in
  match s1 with
  | d :: s2 =>
    if is_digit d then
      let '(int_part, s3) :=
        (if d =? 48 then ([d], s2)
         else let '(ds, rest) := span_digits s2 in (d :: ds, rest)) in
      match parse_fraction s3 with
      | Ok frac s4 =>
        match parse_exponent s4 with
        | Ok ex s5 => Ok (sign ++ int_part ++ frac ++ ex) s5
        | other => other
        end
      | other => other
      end
    else Malformed
  | [] => Malformed
  end.

(** [s] without the prefix [word], when it starts with it. *)
Fixpoint strip_prefix (word s : jsstring) : option jsstring :=
  match word, s with
  | [], _ => Some s
  | w :: word', c :: s' => if w =? c then strip_prefix word' s' else None
  | _ :: _, [] => None
  end.

Definition parse_literal (word : jsstring) (v : json) (s : jsstring) : parsed json :=
  match strip_prefix word s with
  | Some rest => Ok v rest
  | None => Malformed
  end.

(** JSON values, array elements and object members.  [fuel] bounds the
    nesting of the recursive calls; [JSON_parse] below supplies enough of
    it for the whole text. *)
Fixpoint parse_value (fuel : nat) (s : jsstring) : parsed json :=
  match fuel with
  | O => OutOfFuel
  | S fuel =>
    match skip_ws s with
    | [] => Malformed
    | c :: r =>
      if c =? 91 then
        match skip_ws r with
        | d :: r' =>
          if d =? 93 then Ok (JArr []) r'
          else
            match parse_elements fuel r with
            | Ok vs rest => Ok (JArr vs) rest
            | Malformed => Malformed
            | OutOfFuel => OutOfFuel
            end
        | [] => Malformed
        end
      else if c =? 123 then
        match skip_ws r with
        | d :: r' =>
          if d =? 125 then Ok (JObj []) r'
          else
            match parse_members fuel r with
            | Ok ms rest => Ok (JObj ms) rest
            | Malformed => Malformed
            | OutOfFuel => OutOfFuel
            end
        | [] => Malformed
        end
      else if c =? 34 then
        match parse_string r with
        | Ok t rest => Ok (JStr t) rest
        | Malformed => Malformed
        | OutOfFuel => OutOfFuel
        end
      else if c =? 116 then parse_literal (u "true") (JBool true) (c :: r)
      else if c =? 102 then parse_literal (u "false") (JBool false) (c :: r)
      else if c =? 110 then parse_literal (u "null") JNull (c :: r)
      else
        match parse_number (c :: r) with
        | Ok literal rest => Ok (JNum literal) rest
        | Malformed => Malformed
        | OutOfFuel => OutOfFuel
        end
    end
  end
with parse_elements (fuel : nat) (s : jsstring) : parsed (list json) :=
  match fuel with
  | O => OutOfFuel
  | S fuel =>
    match parse_value fuel s with
    | Ok v r =>
      match skip_ws r with
      | c :: r' =>
        if c =? 44 then
          match parse_elements fuel r' with
          | Ok vs rest => Ok (v :: vs) rest
          | other => other
          end
        else if c =? 93 then Ok [v] r'
        else Malformed
      | [] => Malformed
      end
    | Malformed => Malformed
    | OutOfFuel => OutOfFuel
    end
  end
with parse_members (fuel : nat) (s : jsstring) : parsed (list (jsstring * json)) :=
  match fuel with
  | O => OutOfFuel
  | S fuel =>
    match skip_ws s with
    | q :: r0 =>
      if q =? 34 then
        match parse_string r0 with
        | Ok k r1 =>
          match skip_ws r1 with
          | colon :: r2 =>
            if colon =? 58 then
              match parse_value fuel r2 with
              | Ok v r =>
                match skip_ws r with
                | c :: r' =>
                  if c =? 44 then
                    match parse_members fuel r' with
                    | Ok ms rest => Ok ((k, v) :: ms) rest
                    | other => other
                    end
                  else if c =? 125 then Ok [(k, v)] r'
                  else Malformed
                | [] => Malformed
                end
              | Malformed => Malformed
              | OutOfFuel => OutOfFuel
              end
            else Malformed
          | [] => Malformed
          end
        | Malformed => Malformed
        | OutOfFuel => OutOfFuel
        end
      else Malformed
    | [] => Malformed
    end
  end.

(** [JSON.parse(text)]: one value, white space around it, nothing else. *)
Definition JSON_parse (text : jsstring) : outcome json :=
  match parse_value (2 * length text + 1) text with
  | Ok v rest =>
    match skip_ws rest with
    | [] => Returns v
    | _ :: _ => Throws SyntaxError
    end
  | Malformed | OutOfFuel => Throws SyntaxError
  end.

(** ** Values held in rows, payloads and parameters *)

Inductive value :=
  | VNull                    (* null, undefined, SQL NULL *)
  | VBool (b : bool)
  | VNum (z : Z)             (* an integer-valued number; an instant in epoch milliseconds *)
  | VStr (s : jsstring)
  | VList (l : list json).   (* an array held in memory *)

(** JavaScript truthiness, as tested by [if (x)], [!x] and [x || y]. *)
Definition truthy (v : value) : bool :=
  match v with
  | VNull => false
  | VBool b => b
  | VNum z => negb (z =? 0)%Z
  | VStr s => negb (bool_decide (s = []))
  | VList _ => true
  end.

(** The decimal text of an integer-valued number. *)
Definition decimal (z : Z) : jsstring := u (NilZero.string_of_int (Z.to_int z)).

(** [ToString] on the values that are neither strings nor arrays. *)
Definition ToString (v : value) : jsstring :=
  match v with
  | VNull => u "null"
  | VBool true => u "true"
  | VBool false => u "false"
  | VNum z => decimal z
  | VStr s => s
  | VList _ => []
  end.

Definition to_json (v : value) : json :=
  match v with
  | VNull => JNull
  | VBool b => JBool b
  | VNum z => JNum (decimal z)
  | VStr s => JStr s
  | VList l => JArr l
  end.

(** ** JsonUtils *)

Module JsonUtils.

Definition isUrl (str : jsstring) : bool :=
  includes (u "http") str || includes (u "www") str.

Definition parseArray : value → outcome json := fun json =>
  if negb (truthy json) then Returns (JArr [])
  else
    try_catch
      (match json with
       | VList l => Returns (JArr l)
       | VStr s =>
         let trimmed := trim s in
         if startsWith (u "[") trimmed then JSON_parse trimmed
         else if isUrl trimmed then Returns (JArr [JStr trimmed])
         else JSON_parse trimmed
       | VNull | VBool _ | VNum _ => JSON_parse (ToString json)
       end)
      (fun _ =>
         match json with
         | VStr s => if isUrl s then Returns (JArr [JStr s]) else Returns (JArr [])
         | _ => Returns (JArr [])
         end).

Definition stringify (data : value) : jsstring :=
  JSON_stringify (to_json (if truthy data then data else VList [])).

End JsonUtils.

(** A list of strings as the in-memory array and as the decoded document. *)
Definition string_array (L : list jsstring) : list json := JStr <$> L.

(** An object whose order of properties matters: its own properties in the
    order in which [Object.keys] and [Object.values] list them.  No two
    properties have the same name. *)
Abbreviation object := (list (string * value)).

(** [delete o.k] *)
Definition Object_delete (k : string) (o : object) : object :=
  List.filter (fun property => negb (String.eqb property.1 k)) o.

(** ** The store *)

Abbreviation row := (gmap string value).

(** The statements issued against the store, oldest first. *)
Inductive statement :=
  | Select (table : string)
  | Update (table : string) (set : row)
  | Delete (table : string).

Record store := {
  tables : gmap string (list row);
  clock : Z;
  journal : list statement
}.

Definition rows_of (table : string) (st : store) : list row :=
  default [] (tables st !! table).

(** A repository method: from the store to what it returns or raises, and
    the store it leaves. *)
Definition M (A : Type) : Type := store → outcome A * store.

Definition ret {A} (a : A) : M A := fun st => (Returns a, st).

Definition throw {A} (e : error) : M A := fun st => (Throws e, st).

Definition bind {A B} (m : M A) (k : A → M B) : M B :=
  fun st =>
    match m st with
    | (Returns a, st') => k a st'
    | (Throws e, st') => (Throws e, st')
    end.

Notation "'let*' x ':=' m 'in' k" := (bind m (fun x => k))
  (at level 10, x name, m at level 100, k at level 200).

(** A computation that does not touch the store. *)
Definition lift {A} (o : outcome A) : M A := fun st => (o, st).

Definition record_statement (s : statement) (st : store) : store :=
  {| tables := tables st; clock := clock st; journal := journal st ++ [s] |}.

Definition with_tables (t : gmap string (list row)) (st : store) : store :=
  {| tables := t; clock := clock st; journal := journal st |}.

(** *** TimestampUtils *)

Module TimestampUtils.

(** The current instant; time moves on between two readings.  The ISO-8601
    text of [now] and the Date of [nowDate] are both kept as the instant
    they denote. *)
Definition now : M value :=
  fun st => (Returns (VNum (clock st)),
             {| tables := tables st; clock := (clock st + 1)%Z; journal := journal st |}).

Definition nowDate : M value := now.

End TimestampUtils.

(** *** Columns and SQL comparisons *)

(** [r.k]; a missing field reads as null. *)
Definition col (r : row) (k : string) : value := default VNull (r !! k).

(** SQL [=] on two values: never true on NULL. *)
Definition sql_eq (a b : value) : bool :=
  match a, b with
  | VBool x, VBool y => bool_decide (x = y)
  | VNum x, VNum y => (x =? y)%Z
  | VStr x, VStr y => bool_decide (x = y)
  | _, _ => false
  end.

(** SQL [<=] on numbers: never true on NULL. *)
Definition sql_le (a b : value) : bool :=
  match a, b with
  | VNum x, VNum y => (x <=? y)%Z
  | _, _ => false
  end.

(** The text the store compares in a [LIKE]: lists are kept as JSON text. *)
Definition sql_text (v : value) : option jsstring :=
  match v with
  | VNull => None
  | VBool b => Some (if b then u "1" else u "0")
  | VNum z => Some (decimal z)
  | VStr s => Some s
  | VList l => Some (JSON_stringify (JArr l))
  end.

(** SQLite folds the case of ASCII letters in [LIKE], and of no other
    character. *)
Definition like_fold (c : N) : N :=
  if (65 <=? c) && (c <=? 90) then c + 32 else c.

(** The characters of a string as the store receives it, in UTF-8: a
    surrogate pair is one character, and a surrogate without its partner
    arrives as U+FFFD. *)
Fixpoint code_points (s : jsstring) : list N :=
  match s with
  | [] => []
  | c :: s' =>
    if is_high_surrogate c then
      match s' with
      | d :: s'' =>
        if is_low_surrogate d
        then (65536 + (c - 55296) * 1024 + (d - 56320)) :: code_points s''
        else 65533 :: code_points s'
      | [] => [65533]
      end
    else if is_low_surrogate c then 65533 :: code_points s'
    else c :: code_points s'
  end.

(** A text as [LIKE] reads it: up to its first U+0000. *)
Fixpoint until_nul (s : list N) : list N :=
  match s with
  | [] => []
  | c :: s' => if c =? 0 then [] else c :: until_nul s'
  end.

(** The match of a pattern against a text, both as characters: [%] stands
    for any run of characters, [_] for any one character, every other
    character for itself up to ASCII case. *)
Fixpoint like_chars (pattern text : list N) : bool :=
  match pattern with
  | [] => bool_decide (text = [])
  | p :: pattern' =>
    if p =? 37 then
      (fix any_suffix (t : list N) : bool :=
         like_chars pattern' t ||
         match t with
         | [] => false
         | _ :: t' => any_suffix t'
         end) text
    else
      match text with
      | [] => false
      | c :: text' =>
        ((p =? 95) || (like_fold p =? like_fold c)) && like_chars pattern' text'
      end
  end.

(** SQLite's [LIKE] without an escape character, for a pattern within the
    length the store accepts (50 000 bytes of UTF-8; a longer one makes
    the statement fail). *)
Definition like_match (pattern text : jsstring) : bool :=
  like_chars (until_nul (code_points pattern)) (until_nul (code_points text)).

(** The conditions of drizzle's query builder, as predicates on a row.  A
    row is selected when the condition is true; with [and] and [or] only,
    a condition that is unknown on a NULL behaves as a false one. *)
Module drizzle.

Definition eq (k : string) (v : value) : row → bool :=
  fun r => sql_eq (col r k) v.

Definition like (k : string) (pattern : jsstring) : row → bool :=
  fun r => match sql_text (col r k) with
           | Some text => like_match pattern text
           | None => false
           end.

Definition gte (k : string) (v : value) : row → bool :=
  fun r => sql_le v (col r k).

Definition lte (k : string) (v : value) : row → bool :=
  fun r => sql_le (col r k) v.

Definition between (k : string) (lo hi : value) : row → bool :=
  fun r => sql_le lo (col r k) && sql_le (col r k) hi.

Definition and (conditions : list (row → bool)) : row → bool :=
  fun r => forallb (fun c => c r) conditions.

Definition or (conditions : list (row → bool)) : row → bool :=
  fun r => existsb (fun c => c r) conditions.

End drizzle.

(** The template literal that puts a wildcard on both sides of [term]. *)
Definition anywhere (term : jsstring) : jsstring := 37 :: term ++ [37].

(** *** Statements of the query builder *)

(** [db.select().from(table).where(condition)] *)
Definition db_select (table : string) (condition : row → bool) : M (list row) :=
  fun st => (Returns (List.filter condition (rows_of table st)),
             record_statement (Select table) st).

(** [db.select().from(table)] *)
Definition db_select_all (table : string) : M (list row) :=
  db_select table (fun _ => true).

(** The row after [SET data]: the fields of [data] replace those of [r]. *)
Definition assign (data r : row) : row := data ∪ r.

(** [db.update(table).set(data).where(condition).returning()].  A payload
    field that is undefined is no field of [data]; [set] raises on a
    payload without fields, before any statement is issued. *)
Definition db_update (table : string) (data : row) (condition : row → bool) : M (list row) :=
  if bool_decide (data = ∅) then throw PlainError
  else
    fun st =>
      (Returns (assign data <$> List.filter condition (rows_of table st)),
       record_statement (Update table data)
         (with_tables
            (alter (fmap (fun r => if condition r then assign data r else r)) table (tables st))
            st)).

(** [db.delete(table).where(condition)] *)
Definition db_delete (table : string) (condition : row → bool) : M unit :=
  fun st =>
    (Returns tt,
     record_statement (Delete table)
       (with_tables
          (alter (List.filter (fun r => negb (condition r))) table (tables st))
          st)).

(** *** The prepared statements of the raw SQLite handle *)

Module sqliteDb.

(** The two statement shapes the repository prepares by hand. *)
Inductive prepared :=
  | UpdateById (table : string) (columns : list string)
  | SelectById (table : string).

Definition is_identifier_char (a : ascii) : bool :=
  let n := N_of_ascii a in
  ((48 <=? n) && (n <=? 57)) || ((65 <=? n) && (n <=? 90))
  || ((97 <=? n) && (n <=? 122)) || (n =? 95).

Definition is_digit (a : ascii) : bool :=
  (48 <=? N_of_ascii a) && (N_of_ascii a <=? 57).

(** A name of letters, digits and underscores that does not open with a
    digit.  Whether the name is a column of the table, or a word the
    store reserves, is not looked at: the schema is not part of this
    file. *)
Definition is_identifier (s : string) : bool :=
  match s with
  | EmptyString => false
  | String a _ => negb (is_digit a) && forallb is_identifier_char (list_ascii_of_string s)
  end.

(** [s] cut at the first occurrence of [sep]. *)
Definition cut (sep s : string) : option (string * string) :=
  match String.index 0 sep s with
  | Some i =>
    Some (String.substring 0 i s,
          String.substring (i + String.length sep)
                           (String.length s - (i + String.length sep)) s)
  | None => None
  end.

Fixpoint split (fuel : nat) (sep s : string) : list string :=
  match fuel with
  | O => [s]
  | S fuel =>
    match cut sep s with
    | Some (first, others) => first :: split fuel sep others
    | None => [s]
    end
  end.

(** The column of an assignment [column = ?]. *)
Definition assignment_column (a : string) : option string :=
  match cut " = ?" a with
  | Some (column, EmptyString) => if is_identifier column then Some column else None
  | _ => None
  end.

Definition parse_update (sql : string) : option prepared :=
  match cut "UPDATE " sql with
  | Some (EmptyString, s1) =>
    match cut " SET " s1 with
    | Some (table, s2) =>
      match cut " WHERE id = ?" s2 with
      | Some (assignments, EmptyString) =>
        match mapM assignment_column (split (String.length assignments) ", " assignments) with
        | Some columns => if is_identifier table then Some (UpdateById table columns) else None
        | None => None
        end
      | _ => None
      end
    | None => None
    end
  | _ => None
  end.

Definition parse_select (sql : string) : option prepared :=
  match cut "SELECT * FROM " sql with
  | Some (EmptyString, s1) =>
    match cut " WHERE id = ?" s1 with
    | Some (table, EmptyString) => if is_identifier table then Some (SelectById table) else None
    | _ => None
    end
  | _ => None
  end.

(** [sqliteDb.prepare(sql)]: a text that is not a statement is refused. *)
Definition prepare (sql : string) : M prepared :=
  match parse_update sql with
  | Some p => ret p
  | None =>
    match parse_select sql with
    | Some p => ret p
    | None => throw SqliteError
    end
  end.

(** The values the handle binds to a parameter: numbers, strings and null;
    it refuses a boolean and an array. *)
Definition bindable (v : value) : bool :=
  match v with
  | VNull | VNum _ | VStr _ => true
  | VBool _ | VList _ => false
  end.

(** [stmt.run(...params)] for an update: the parameters bind the
    assigned columns in order, the last one the id.  Of two assignments
    to one column the right-most counts. *)
Definition run (stmt : prepared) (params : list value) : M unit :=
  match stmt with
  | UpdateById table columns =>
    if negb (bool_decide (length params = S (length columns))) then throw RangeError
    else if negb (forallb bindable params) then throw TypeError
    else
      let data : row := list_to_map (reverse (zip columns params)) in
      let id := List.last params VNull in
      fun st =>
        (Returns tt,
         record_statement (Update table data)
           (with_tables
              (alter (fmap (fun r => if sql_eq (col r "id") id then assign data r else r))
                     table (tables st))
              st))
  | SelectById _ => throw TypeError
  end.

(** [stmt.get(id)]: the first row found, or undefined. *)
Definition get (stmt : prepared) (params : list value) : M (option row) :=
  match stmt, params with
  | SelectById table, [id] =>
    if negb (bindable id) then throw TypeError
    else
      fun st =>
        (Returns (head (List.filter (fun r => sql_eq (col r "id") id) (rows_of table st))),
         record_statement (Select table) st)
  | SelectById _, _ => throw RangeError
  | UpdateById _ _, _ => throw TypeError
  end.

End sqliteDb.

(** ** DatabaseUtils *)

Module DatabaseUtils.

Definition is_upper (a : ascii) : bool :=
  (65 <=? N_of_ascii a) && (N_of_ascii a <=? 90).

Definition toLowerCase (a : ascii) : ascii :=
  if is_upper a then ascii_of_N (N_of_ascii a + 32) else a.

(** [str.replace(/[A-Z]/g, letter => `_${letter.toLowerCase()}`)] *)
Fixpoint camelToSnake (str : string) : string :=
  match str with
  | EmptyString => EmptyString
  | String a rest =>
    if is_upper a then String "_" (String (toLowerCase a) (camelToSnake rest))
    else String a (camelToSnake rest)
  end.

Record update_query := { query : string; values : list value }.

(** [Object.keys] and [Object.values] list the properties of [data] in one
    and the same order, that of the object. *)
Definition buildUpdateQuery (tableName : string) (data : object) : M update_query :=
  let fields := data.*1 in
  let setClause := String.concat ", " ((fun key => camelToSnake key +:+ " = ?") <$> fields) in
  let query := "UPDATE " +:+ tableName +:+ " SET " +:+ setClause
               +:+ ", updated_at = ? WHERE id = ?" in
  let* now := TimestampUtils.now in
  ret {| query := query; values := data.*2 ++ [now] |}.

End DatabaseUtils.

(** ** Records handed back to the caller *)

(** A field of a returned record: a column as the store holds it, or a
    list-of-strings column after decoding. *)
Inductive field :=
  | Stored (v : value)
  | Decoded (j : json).

Abbreviation record := (gmap string field).

Definition outcome_bind {A B} (o : outcome A) (k : A → outcome B) : outcome B :=
  match o with
  | Returns a => k a
  | Throws e => Throws e
  end.

Notation "'let?' x ':=' o 'in' k" := (outcome_bind o (fun x => k))
  (at level 10, x name, o at level 100, k at level 200).

(** [rows.map(f)] when [f] may raise. *)
Fixpoint map_outcome {A B} (f : A → outcome B) (l : list A) : outcome (list B) :=
  match l with
  | [] => Returns []
  | a :: l' =>
    let? b := f a in
    let? bs := map_outcome f l' in
    Returns (b :: bs)
  end.


(** The object literal that spreads [r] and replaces [images] by its
    decoded form. *)
Definition with_images (r : row) : outcome record :=
  let? images := JsonUtils.parseArray (col r "images") in
  Returns (<["images" := Decoded images]> (Stored <$> r)).

(** The object literal that spreads [r] and replaces [images] and
    [requiredProfessions] by their decoded forms. *)
Definition with_images_and_professions (r : row) : outcome record :=
  let? images := JsonUtils.parseArray (col r "images") in
  let? requiredProfessions := JsonUtils.parseArray (col r "requiredProfessions") in
  Returns (<["requiredProfessions" := Decoded requiredProfessions]>
             (<["images" := Decoded images]> (Stored <$> r))).



(** *** Arithmetic on numbers

    A number is an IEEE 754 double.  The numbers of the rating are
    integer-valued, their quotient by a count is not; every operation
    gives the double nearest to its exact result, a tie going to the even
    mantissa.  Magnitudes stay below 2^1024, where nothing overflows. *)

(** The integer nearest to [n / d] for a positive [d], a tie going to the
    even one. *)
Definition round_half_even (n d : Z) : Z :=
  let q := (n / d)%Z in
  let r := (n mod d)%Z in
  if (2 * r <? d)%Z then q
  else if (d <? 2 * r)%Z then (q + 1)%Z
  else if Z.even q then q else (q + 1)%Z.

(** [n / d * 2 ^ (- e)] as a fraction. *)
Definition scaled (n d e : Z) : Z * Z :=
  if (0 <=? e)%Z then (n, d * 2 ^ e)%Z else (n * 2 ^ (- e), d)%Z.

(** The double nearest to [n / d] for positive [n] and [d], as a mantissa
    [m] and an exponent [e]: the double is [m * 2 ^ e], where [e] is such
    that [2 ^ 52 <= n / d * 2 ^ (- e) < 2 ^ 53]. *)
Definition nearest_double (n d : Z) : Z * Z :=
  let e0 := (Z.log2 n - Z.log2 d - 53)%Z in
  let e := if ((scaled n d e0).1 <? 2 ^ 53 * (scaled n d e0).2)%Z then e0 else (e0 + 1)%Z in
  (round_half_even (scaled n d e).1 (scaled n d e).2, e).

(** The double nearest to [n / d] for a positive [d]. *)
Definition double_of_ratio (n d : Z) : Z * Z :=
  if (n =? 0)%Z then (0, 0)%Z
  else ((Z.sgn n * (nearest_double (Z.abs n) d).1)%Z, (nearest_double (Z.abs n) d).2).

(** The double nearest to an integer; it is an integer. *)
Definition to_double (z : Z) : Z :=
  let x := double_of_ratio z 1 in
  if (0 <=? x.2)%Z then (x.1 * 2 ^ x.2)%Z else (x.1 / 2 ^ (- x.2))%Z.

(** [x + y] on integer-valued numbers. *)
Definition Number_add (x y : Z) : Z := to_double (x + y).

(** [Math.round(total / count)] for an integer-valued [total] and a
    positive integer [count]: the quotient is a double [m * 2 ^ e], and
    [Math.round] gives the integer nearest to it, a tie going up. *)
Definition Math_round_div (total count : Z) : Z :=
  let x := double_of_ratio total count in
  if (0 <=? x.2)%Z then (x.1 * 2 ^ x.2)%Z
  else ((2 * x.1 + 2 ^ (- x.2)) / 2 ^ (1 - x.2))%Z.

(** [review.rating] as the driver hands it over: the column holds integers
    or NULL; an integer is read as the nearest double, and a NULL adds
    nothing to a sum. *)
Definition rating_of (review : row) : Z :=
  match col review "rating" with
  | VNum z => to_double z
  | _ => 0%Z
  end.

(** ** Filter objects *)

(** A criterion tested by truthiness: [if (filters.k)]. *)
Definition if_string (o : option jsstring) (c : jsstring → row → bool) : list (row → bool) :=
  match o with
  | Some s => if truthy (VStr s) then [c s] else []
  | None => []
  end.

Definition if_number (o : option Z) (c : Z → row → bool) : list (row → bool) :=
  match o with
  | Some z => if truthy (VNum z) then [c z] else []
  | None => []
  end.

(** A criterion tested against undefined: [if (filters.k !== undefined)]. *)
Definition if_defined {A} (o : option A) (c : A → row → bool) : list (row → bool) :=
  match o with
  | Some a => [c a]
  | None => []
  end.

Module TenderFilters.
Record t := {
  category : option jsstring;
  location : option jsstring;
  status : option jsstring;
  userId : option Z;
  searchTerm : option jsstring;
  personType : option jsstring;
  requiredProfessions : option (list jsstring)
}.

Definition conditions (filters : t) : list (row → bool) :=
  if_string (category filters) (fun v => drizzle.eq "category" (VStr v))
  ++ if_string (location filters) (fun v => drizzle.like "location" (anywhere v))
  ++ if_string (status filters) (fun v => drizzle.eq "status" (VStr v))
  ++ if_number (userId filters) (fun v => drizzle.eq "userId" (VNum v))
  ++ if_string (searchTerm filters)
       (fun v => drizzle.or [drizzle.like "title" (anywhere v);
                             drizzle.like "description" (anywhere v)])
  ++ if_string (personType filters) (fun v => drizzle.eq "personType" (VStr v))
  ++ match requiredProfessions filters with
     | Some professions =>
       if (0 <? length professions)%nat then
         [drizzle.or ((fun profession =>
                         drizzle.like "requiredProfessions" (anywhere profession))
                      <$> professions)]
       else []
     | None => []
     end.
End TenderFilters.

Module ListingFilters.
Record t := {
  category : option jsstring;
  subcategory : option jsstring;
  listingType : option jsstring;
  location : option jsstring;
  userId : option Z;
  minPrice : option Z;
  maxPrice : option Z;
  searchTerm : option jsstring
}.

Definition conditions (filters : t) : list (row → bool) :=
  if_string (category filters) (fun v => drizzle.eq "category" (VStr v))
  ++ if_string (subcategory filters) (fun v => drizzle.eq "subcategory" (VStr v))
  ++ if_string (listingType filters) (fun v => drizzle.eq "listingType" (VStr v))
  ++ if_string (location filters) (fun v => drizzle.like "location" (anywhere v))
  ++ if_number (userId filters) (fun v => drizzle.eq "userId" (VNum v))
  ++ match minPrice filters, maxPrice filters with
     | Some lo, Some hi => [drizzle.between "price" (VNum lo) (VNum hi)]
     | Some lo, None => [drizzle.gte "price" (VNum lo)]
     | None, Some hi => [drizzle.lte "price" (VNum hi)]
     | None, None => []
     end
  ++ if_string (searchTerm filters)
       (fun v => drizzle.or [drizzle.like "title" (anywhere v);
                             drizzle.like "description" (anywhere v)]).
End ListingFilters.

Module CrewFilters.
Record t := {
  location : option jsstring;
  specialization : option jsstring;
  experienceYears : option Z;
  isVerified : option bool;
  isAvailable : option bool;
  searchTerm : option jsstring
}.

Definition conditions (filters : t) : list (row → bool) :=
  if_string (location filters) (fun v => drizzle.like "location" (anywhere v))
  ++ if_string (specialization filters)
       (fun v => drizzle.like "specialization" (anywhere v))
  ++ if_defined (experienceYears filters) (fun v => drizzle.gte "experienceYears" (VNum v))
  ++ if_defined (isVerified filters) (fun v => drizzle.eq "isVerified" (VBool v))
  ++ if_defined (isAvailable filters) (fun v => drizzle.eq "isAvailable" (VBool v))
  ++ if_string (searchTerm filters)
       (fun v => drizzle.or [drizzle.like "name" (anywhere v);
                             drizzle.like "description" (anywhere v);
                             drizzle.like "specialization" (anywhere v)]).
End CrewFilters.

(** The query of a filtered listing: [query.where(and(...conditions))] when
    a filter object was given and pushed at least one condition, the plain
    [select] otherwise. *)
Definition filtered_select (table : string) (conditions : option (list (row → bool)))
  : M (list row) :=
  match conditions with
  | Some cs =>
    if (0 <? length cs)%nat then db_select table (drizzle.and cs)
    else db_select_all table
  | None => db_select_all table
  end.

(** [array.push(element)] on whatever the decoding gave: the elements of the
    array with [element] at the end, and a TypeError where there is no such
    method. *)
Definition Array_push (array : json) (element : jsstring) : outcome (list json) :=
  match array with
  | JArr elements => Returns (elements ++ [JStr element])
  | JNull | JBool _ | JNum _ | JStr _ | JObj _ => Throws TypeError
  end.

(** The object literal that spreads [r] and replaces [visualizationUrls]
    and [projectFiles] by their decoded forms. *)
Definition with_project_lists (r : row) : outcome record :=
  let? visualizationUrls := JsonUtils.parseArray (col r "visualizationUrls") in
  let? projectFiles := JsonUtils.parseArray (col r "projectFiles") in
  Returns (<["projectFiles" := Decoded projectFiles]>
             (<["visualizationUrls" := Decoded visualizationUrls]> (Stored <$> r))).

(** [if (data.k) data.k = JsonUtils.stringify(data.k)] *)
Definition stringify_field (k : string) (data : row) : row :=
  if truthy (col data k) then <[k := VStr (JsonUtils.stringify (col data k))]> data
  else data.

(** ** SQLiteStorage *)

Module SQLiteStorage.

(** *** Users *)

Definition updateUser (id : Z) (userData : object) : M (option row) :=
  let updateData := Object_delete "updatedAt" userData in
  let* q := DatabaseUtils.buildUpdateQuery "users" updateData in
  let* stmt := sqliteDb.prepare (DatabaseUtils.query q) in
  let* _ := sqliteDb.run stmt (DatabaseUtils.values q ++ [VNum id]) in
  let* getUserStmt := sqliteDb.prepare "SELECT * FROM users WHERE id = ?" in
  sqliteDb.get getUserStmt [VNum id].

(** *** Tenders *)

Definition getTenders (filters : option TenderFilters.t) : M (list record) :=
  let* result := filtered_select "tenders" (TenderFilters.conditions <$> filters) in
  lift (map_outcome with_images result).

Definition updateTender (id : Z) (tenderData : row) : M (option record) :=
  let data :=
    if truthy (col tenderData "images")
    then <["images" := VStr (JsonUtils.stringify (col tenderData "images"))]> tenderData
    else tenderData in
  let* updated := db_update "tenders" data (drizzle.eq "id" (VNum id)) in
  match updated with
  | [] => ret None
  | updatedTender :: _ =>
    let* hydrated := lift (with_images updatedTender) in
    ret (Some hydrated)
  end.

Definition deleteTender (id : Z) : M bool :=
  let* _ := db_delete "tenders" (drizzle.eq "id" (VNum id)) in
  ret true.

(** *** Tender bids *)

Definition acceptTenderBid (bidId : Z) : M (option row) :=
  let* found := db_select "tenderBids" (drizzle.eq "id" (VNum bidId)) in
  match found with
  | [] => ret None
  | bid :: _ =>
    let* _ := db_update "tenders" {["status" := VStr (u "in_progress")]}
                (drizzle.eq "id" (col bid "tenderId")) in
    let* updated := db_update "tenderBids" {["isAccepted" := VBool true]}
                      (drizzle.eq "id" (VNum bidId)) in
    ret (head updated)
  end.

(** *** Marketplace *)


(** *** Reviews *)

Definition updateUserRating (userId : Z) : M value :=
  let* userReviews := db_select "reviews" (drizzle.eq "recipientId" (VNum userId)) in
  if bool_decide (length userReviews = 0%nat) then ret (VNum 0)
  else
    let totalRating := foldl (fun sum review => Number_add sum (rating_of review)) 0%Z
                             userReviews in
    let averageRating := Math_round_div totalRating (Z.of_nat (length userReviews)) in
    let* updated := db_update "users" {["rating" := VNum averageRating]}
                      (drizzle.eq "id" (VNum userId)) in
    match updated with
    | updatedUser :: _ => ret (col updatedUser "rating")
    | [] => throw TypeError
    end.

(** *** Delivery orders *)

Definition updateDeliveryOrderStatus (id : Z) (status : jsstring) : M (option row) :=
  let* now := TimestampUtils.now in
  let* updated := db_update "deliveryOrders"
                    (<["status" := VStr status]> {["updatedAt" := now]})
                    (drizzle.eq "id" (VNum id)) in
  ret (head updated).

(** *** Estimates *)

Definition updateEstimate (id : Z) (estimateData : row) : M (option row) :=
  let* now := TimestampUtils.now in
  let data := <["updatedAt" := now]> estimateData in
  let* updated := db_update "estimates" data (drizzle.eq "id" (VNum id)) in
  ret (head updated).

Definition updateEstimateStatus (id : Z) (status : jsstring) : M (option row) :=
  let* now := TimestampUtils.now in
  let* updated := db_update "estimates"
                    (<["status" := VStr status]> {["updatedAt" := now]})
                    (drizzle.eq "id" (VNum id)) in
  ret (head updated).

Definition deleteEstimateItem (id : Z) : M bool :=
  let* _ := db_delete "estimateItems" (drizzle.eq "id" (VNum id)) in
  ret true.

(** *** Crews *)


Definition deleteCrew (id : Z) : M bool :=
  let* _ := db_delete "crews" (drizzle.eq "id" (VNum id)) in
  ret true.

(** *** Tenders by profession *)


(** *** Reads by id and by owner *)

Definition getTender (id : Z) : M (option record) :=
  let* found := db_select "tenders" (drizzle.eq "id" (VNum id)) in
  match found with
  | [] => ret None
  | tender :: _ =>
    let* hydrated := lift (with_images tender) in
    ret (Some hydrated)
  end.

Definition getTenderBids (tenderId : Z) : M (list row) :=
  db_select "tenderBids" (drizzle.eq "tenderId" (VNum tenderId)).

Definition getTenderBid (id : Z) : M (option row) :=
  let* found := db_select "tenderBids" (drizzle.eq "id" (VNum id)) in
  ret (head found).

Definition getUserReviews (userId : Z) : M (list row) :=
  db_select "reviews" (drizzle.eq "recipientId" (VNum userId)).

Definition getTendersByPersonType (personType : jsstring) : M (list record) :=
  let* result := db_select "tenders" (drizzle.eq "personType" (VStr personType)) in
  lift (map_outcome with_images_and_professions result).

(** *** Delivery options *)

Definition getDeliveryOptions : M (list row) :=
  db_select "deliveryOptions" (drizzle.eq "isActive" (VBool true)).

Definition getDeliveryOption (id : Z) : M (option row) :=
  let* found := db_select "deliveryOptions" (drizzle.eq "id" (VNum id)) in
  ret (head found).

Definition deleteDeliveryOption (id : Z) : M bool :=
  let* _ := db_update "deliveryOptions" {["isActive" := VBool false]}
              (drizzle.eq "id" (VNum id)) in
  ret true.

(** *** Delivery orders, estimates and design projects of a user *)

Definition getDeliveryOrders (userId : option Z) : M (list row) :=
  match userId with
  | Some id =>
    if truthy (VNum id) then db_select "deliveryOrders" (drizzle.eq "userId" (VNum id))
    else db_select_all "deliveryOrders"
  | None => db_select_all "deliveryOrders"
  end.

Definition getDeliveryOrder (id : Z) : M (option row) :=
  let* found := db_select "deliveryOrders" (drizzle.eq "id" (VNum id)) in
  ret (head found).

Definition updateDeliveryOrderTracking (id : Z) (trackingCode : jsstring) : M (option row) :=
  let* now := TimestampUtils.now in
  let* updated := db_update "deliveryOrders"
                    (<["trackingCode" := VStr trackingCode]> {["updatedAt" := now]})
                    (drizzle.eq "id" (VNum id)) in
  ret (head updated).

Definition getEstimates (userId tenderId : option Z) : M (list row) :=
  let conditions :=
    if_number userId (fun v => drizzle.eq "userId" (VNum v))
    ++ if_number tenderId (fun v => drizzle.eq "tenderId" (VNum v)) in
  filtered_select "estimates" (Some conditions).

Definition getEstimate (id : Z) : M (option row) :=
  let* found := db_select "estimates" (drizzle.eq "id" (VNum id)) in
  ret (head found).

Definition getDesignProjects (userId : option Z) : M (list record) :=
  let* result :=
    match userId with
    | Some id =>
      if truthy (VNum id) then db_select "designProjects" (drizzle.eq "userId" (VNum id))
      else db_select_all "designProjects"
    | None => db_select_all "designProjects"
    end in
  lift (map_outcome with_project_lists result).

Definition getDesignProject (id : Z) : M (option record) :=
  let* found := db_select "designProjects" (drizzle.eq "id" (VNum id)) in
  match found with
  | [] => ret None
  | project :: _ =>
    let* hydrated := lift (with_project_lists project) in
    ret (Some hydrated)
  end.

Definition updateDesignProject (id : Z) (projectData : row) : M (option record) :=
  let* now := TimestampUtils.now in
  let data := stringify_field "projectFiles"
                (stringify_field "visualizationUrls" (<["updatedAt" := now]> projectData)) in
  let* updated := db_update "designProjects" data (drizzle.eq "id" (VNum id)) in
  match updated with
  | [] => ret None
  | updatedProject :: _ =>
    let* hydrated := lift (with_project_lists updatedProject) in
    ret (Some hydrated)
  end.

Definition addProjectVisualization (id : Z) (visualizationUrl : jsstring)
  : M (option record) :=
  let* found := db_select "designProjects" (drizzle.eq "id" (VNum id)) in
  match found with
  | [] => ret None
  | project :: _ =>
    let* decoded := lift (JsonUtils.parseArray (col project "visualizationUrls")) in
    let* currentVisualizations := lift (Array_push decoded visualizationUrl) in
    let encoded := JsonUtils.stringify (VList currentVisualizations) in
    let* now := TimestampUtils.now in
    let* updated := db_update "designProjects"
                      (<["visualizationUrls" := VStr encoded]> {["updatedAt" := now]})
                      (drizzle.eq "id" (VNum id)) in
    match updated with
    | updatedProject :: _ =>
      let* hydrated := lift (with_project_lists updatedProject) in
      ret (Some hydrated)
    | [] => throw TypeError
    end
  end.

Definition addProjectFile (id : Z) (fileUrl : jsstring) : M (option record) :=
  let* found := db_select "designProjects" (drizzle.eq "id" (VNum id)) in
  match found with
  | [] => ret None
  | project :: _ =>
    let* decoded := lift (JsonUtils.parseArray (col project "projectFiles")) in
    let* currentFiles := lift (Array_push decoded fileUrl) in
    let encoded := JsonUtils.stringify (VList currentFiles) in
    let* now := TimestampUtils.now in
    let* updated := db_update "designProjects"
                      (<["projectFiles" := VStr encoded]> {["updatedAt" := now]})
                      (drizzle.eq "id" (VNum id)) in
    match updated with
    | updatedProject :: _ =>
      let* hydrated := lift (with_project_lists updatedProject) in
      ret (Some hydrated)
    | [] => throw TypeError
    end
  end.

(** *** The other updates by a payload *)









Definition updateDesignProjectStatus (id : Z) (status : jsstring) : M (option record) :=
  let* now := TimestampUtils.now in
  let* updated := db_update "designProjects"
                    (<["status" := VStr status]> {["updatedAt" := now]})
                    (drizzle.eq "id" (VNum id)) in
  match updated with
  | [] => ret None
  | updatedProject :: _ =>
    let* hydrated := lift (with_project_lists updatedProject) in
    ret (Some hydrated)
  end.

End SQLiteStorage.

(** The outcome and the final store of running a method. *)
Definition result_of {A} (m : M A) (st : store) : outcome A := (m st).1.
Definition store_after {A} (m : M A) (st : store) : store := (m st).2.

(** ** Decoding that cannot fail *)

(** What [parseArray] returns; it raises on no input (see
    [parseArray_returns] below), so the second branch is never taken. *)
Definition decode (v : value) : json :=
  match JsonUtils.parseArray v with
  | Returns j => j
  | Throws _ => JArr []
  end.

(** The record [getTenders] hands back for a stored row. *)
Definition hydrate (r : row) : record :=
  <["images" := Decoded (decode (col r "images"))]> (Stored <$> r).

(** The record [getTendersByRequiredProfession] hands back for a stored row. *)
Definition hydrate_with_professions (r : row) : record :=
  <["requiredProfessions" := Decoded (decode (col r "requiredProfessions"))]> (hydrate r).


(** ** The row transformations of the repository methods *)

Definition in_progress : value := VStr (u "in_progress").

(** What the two updates of [acceptTenderBid] do to a bid and to a tender. *)
Definition accept_row (bidId : Z) (r : row) : row :=
  if drizzle.eq "id" (VNum bidId) r then assign {["isAccepted" := VBool true]} r else r.

Definition start_row (tenderId : value) (t : row) : row :=
  if drizzle.eq "id" tenderId t then assign {["status" := in_progress]} t else t.

(** What the update of [updateUserRating] does to a user. *)
Definition rate_row (userId rating : Z) (r : row) : row :=
  if drizzle.eq "id" (VNum userId) r then assign {["rating" := VNum rating]} r else r.

(** The reviews addressed to a user, and their ratings. *)
Definition reviews_for (userId : Z) (st : store) : list row :=
  List.filter (drizzle.eq "recipientId" (VNum userId)) (rows_of "reviews" st).

(** The sum and the mean as [updateUserRating] computes them. *)
Definition totalRating (reviews : list row) : Z :=
  foldl (fun sum review => Number_add sum (rating_of review)) 0%Z reviews.

Definition averageRating (reviews : list row) : Z :=
  Math_round_div (totalRating reviews) (Z.of_nat (length reviews)).

(** Every review is rated by a number of magnitude at most [bound]. *)
Definition rated_within (bound : Z) (reviews : list row) : Prop :=
  ∀ review, review ∈ reviews →
            ∃ z, col review "rating" = VNum z ∧ (Z.abs z <= bound)%Z.

(** So few reviews of so small a magnitude that every sum of their ratings
    is a double: below 2^52. *)
Definition sums_exactly (bound : Z) (reviews : list row) : Prop :=
  (Z.of_nat (length reviews) * bound < 2 ^ 52)%Z.

Definition total (ratings : list Z) : Z := foldr Z.add 0%Z ratings.

(** [m] is the mean of [ratings] rounded to the nearest integer, a tie
    going up: [m - 1/2 <= total / count < m + 1/2]. *)
Definition rounded_mean (ratings : list Z) (m : Z) : Prop :=
  let count := Z.of_nat (length ratings) in
  (2 * count * m <= 2 * total ratings + count < 2 * count * (m + 1))%Z.

(** What [db_update] with the payload [data] does to the rows of id [id]. *)
Definition update_row (id : Z) (data : row) (r : row) : row :=
  if drizzle.eq "id" (VNum id) r then assign data r else r.

(** The payload [updateTender] hands to the store. *)
Definition tender_payload (tenderData : row) : row :=
  if truthy (col tenderData "images")
  then <["images" := VStr (JsonUtils.stringify (col tenderData "images"))]> tenderData
  else tenderData.

(** The payload [updateDeliveryOrderStatus] hands to the store at the
    instant [now]. *)
Definition status_payload (status : jsstring) (now : value) : row :=
  <["status" := VStr status]> {["updatedAt" := now]}.

(** ** The updates by a payload *)

(** The methods that hand a caller's payload to the query builder. *)
Inductive update_method :=
  | UpdateUserDocument
  | UpdateTender
  | UpdateMarketplaceListing
  | UpdateDeliveryOption
  | UpdateEstimate
  | UpdateEstimateItem
  | UpdateDesignProject
  | UpdateCrew
  | UpdateCrewMember
  | UpdateCrewPortfolio
  | UpdateCrewMemberSkill.


(** The methods that write [updatedAt] themselves. *)
Definition stamps (m : update_method) : bool :=
  match m with
  | UpdateEstimate | UpdateDesignProject | UpdateCrew => true
  | _ => false
  end.

(** The fields a method encodes as JSON text before it stores them. *)
Definition encoded (m : update_method) : list string :=
  match m with
  | UpdateTender | UpdateMarketplaceListing | UpdateCrewPortfolio => ["images"]
  | UpdateDesignProject => ["projectFiles"; "visualizationUrls"]
  | _ => []
  end.

(** The payload a method hands to the store at the instant [now]. *)
Definition payload_of (m : update_method) (data : row) (now : value) : row :=
  foldr stringify_field (if stamps m then <["updatedAt" := now]> data else data) (encoded m).

(** Whether a method handed a record back, or undefined. *)
Definition returned {A} (m : M (option A)) : M bool :=
  let* result := m in
  ret (match result with Some _ => true | None => false end).


(** *** The update of a user *)

(** [c] occurs in [s]. *)
Fixpoint occurs (c : ascii) (s : string) : bool :=
  match s with
  | EmptyString => false
  | String x s' => Ascii.eqb x c || occurs c s'
  end.

(** A column as [camelToSnake] names it: a name without upper-case
    letters. *)
Definition is_column (s : string) : bool :=
  sqliteDb.is_identifier s
  && forallb (fun a => negb (DatabaseUtils.is_upper a)) (list_ascii_of_string s).

(** The text of the update by id of the columns of a table. *)
Definition update_text (table : string) (columns : list string) : string :=
  "UPDATE " +:+ table +:+ " SET "
  +:+ String.concat ", " ((fun column => column +:+ " = ?") <$> columns)
  +:+ " WHERE id = ?".






(** ** A small store for the examples *)

Definition example_bid : row :=
  list_to_map [("id", VNum 1); ("tenderId", VNum 1); ("userId", VNum 1);
               ("amount", VNum 7500000); ("isAccepted", VBool false)].

Definition example_user : row :=
  list_to_map [("id", VNum 1); ("full_name", VStr (u "Anna"));
               ("rating", VNum 0); ("updated_at", VNum 100)].

Definition example_store : store :=
  {| tables :=
       list_to_map
         [("tenderBids", [example_bid]);
          ("users", [example_user]);
          ("reviews",
           [list_to_map [("id", VNum 1); ("recipientId", VNum 1); ("rating", VNum 5)];
            list_to_map [("id", VNum 2); ("recipientId", VNum 1); ("rating", VNum 4)];
            list_to_map [("id", VNum 3); ("recipientId", VNum 1); ("rating", VNum 3)]]);
          ("tenders",
           [list_to_map [("id", VNum 1); ("userId", VNum 1); ("title", VStr (u "a"));
                         ("description", VStr (u "b"));
                         ("category", VStr (u "construction"));
                         ("status", VStr (u "open"));
                         ("requiredProfessions",
                          VStr (JSON_stringify (JArr [JStr (u "electrician-helper")])));
                         ("updatedAt", VNum 100)]]);
          ("estimates",
           [list_to_map [("id", VNum 1); ("status", VStr (u "draft"));
                         ("updatedAt", VNum 100)]]);
          ("deliveryOrders",
           [list_to_map [("id", VNum 1); ("status", VStr (u "new"));
                         ("trackingCode", VNull); ("updatedAt", VNum 100)]]);
          ("marketplaceListings",
           [list_to_map [("id", VNum 1); ("userId", VNum 1); ("title", VStr (u "drill"));
                         ("price", VNum (-5))]]);
          ("crews",
           [list_to_map [("id", VNum 1); ("name", VStr (u "crew"));
                         ("isVerified", VBool true); ("isAvailable", VBool true);
                         ("experienceYears", VNum 3)]])];
     clock := 500;
     journal := [] |}.

(** The field [k] of the first row of a table. *)
Definition first_row_field (table k : string) (st : store) : option value :=
  (fun r => col r k) <$> head (rows_of table st).

(** ** Filter objects that differ in one criterion *)










(** ** What a text criterion asks of a column *)















(** The rows a filtered listing selects. *)
Definition selected (conditions : list (row → bool)) (rows : list row) : list row :=
  List.filter (drizzle.and conditions) rows.




(** ** Field names *)

(** [s] holds no upper-case ASCII letter. *)
Definition no_upper (s : string) : bool :=
  forallb (fun a => negb (DatabaseUtils.is_upper a)) (list_ascii_of_string s).

(** [s] holds no underscore. *)
Definition no_underscore (s : string) : bool :=
  forallb (fun a => negb (Ascii.eqb a "_")) (list_ascii_of_string s).

(** ** A second store for the examples *)

Definition second_bid : row :=
  list_to_map [("id", VNum 2); ("tenderId", VNum 1); ("userId", VNum 2);
               ("amount", VNum 7000000); ("isAccepted", VBool false)].

Definition example_project : row :=
  list_to_map [("id", VNum 1); ("userId", VNum 1); ("status", VStr (u "draft"));
               ("visualizationUrls", VStr (u "https://example.com/a.png"));
               ("projectFiles", VNull); ("updatedAt", VNum 100)].

Definition second_store : store :=
  {| tables :=
       list_to_map
         [("tenderBids", [example_bid; second_bid]);
          ("tenders",
           [list_to_map [("id", VNum 1); ("userId", VNum 1); ("status", VStr (u "open"));
                         ("personType", VStr (u "individual"))]]);
          ("reviews",
           [list_to_map [("id", VNum 1); ("recipientId", VNum 7); ("rating", VNum 5)]]);
          ("deliveryOptions",
           [list_to_map [("id", VNum 1); ("name", VStr (u "courier")); ("isActive", VBool true)];
            list_to_map [("id", VNum 2); ("name", VStr (u "pickup")); ("isActive", VBool true)]]);
          ("deliveryOrders",
           [list_to_map [("id", VNum 1); ("userId", VNum 1); ("status", VStr (u "new"));
                         ("trackingCode", VNull); ("updatedAt", VNum 100)]]);
          ("designProjects", [example_project])];
     clock := 500;
     journal := [] |}.

(** What [deleteDeliveryOption] does to an option. *)
Definition deactivate_row (id : Z) (r : row) : row :=
  update_row id {["isActive" := VBool false]} r.

(** The payload [updateDeliveryOrderTracking] hands to the store at the
    instant [now]. *)
Definition tracking_payload (trackingCode : jsstring) (now : value) : row :=
  <["trackingCode" := VStr trackingCode]> {["updatedAt" := now]}.

(** The payload [updateDesignProject] hands to the store at the instant
    [now]. *)
Definition project_payload (projectData : row) (now : value) : row :=
  stringify_field "projectFiles"
    (stringify_field "visualizationUrls" (<["updatedAt" := now]> projectData)).

(** The payload of [addProjectVisualization] and of [addProjectFile]: the
    column [k] with the encoded list, and the instant [now]. *)
Definition append_payload (k : string) (elements : list json) (now : value) : row :=
  <[k := VStr (JsonUtils.stringify (VList elements))]> {["updatedAt" := now]}.

(** The record [getDesignProject] hands back for a stored row. *)
Definition hydrate_project (r : row) : record :=
  <["projectFiles" := Decoded (decode (col r "projectFiles"))]>
    (<["visualizationUrls" := Decoded (decode (col r "visualizationUrls"))]> (Stored <$> r)).



(** A store whose only design project holds a number where the list of
    visualizations should be. *)
Definition broken_project_store : store :=
  {| tables :=
       list_to_map
         [("designProjects",
           [list_to_map [("id", VNum 1); ("visualizationUrls", VStr (u "42"));
                         ("projectFiles", VStr (u "true"))]])];
     clock := 500;
     journal := [] |}.

(** ** The parameters of a statement text *)

(** The number of [?] placeholders in a statement text. *)
Fixpoint placeholders (sql : string) : nat :=
  match sql with
  | EmptyString => 0
  | String a rest => (if Ascii.eqb a "?" then 1 else 0) + placeholders rest
  end.

(** A payload that names a status and nothing else. *)
Definition status_only (status : jsstring) : row := {["status" := VStr status]}.

(** * Properties *)

(** ** The JSON column codec *)

Section Codec.

Lemma hex_value_digit (n : N) : n < 16 → hex_value (hex_digit n) = Some n.
Proof.
  intros Hn. unfold hex_digit, hex_value.
  destruct (n <? 10) eqn:E.
  - apply N.ltb_lt in E.
    replace ((48 <=? 48 + n) && (48 + n <=? 57)) with true.
    + f_equal. lia.
    + symmetry. apply andb_true_intro. split; apply N.leb_le; lia.
  - apply N.ltb_ge in E.
    replace ((48 <=? 87 + n) && (87 + n <=? 57)) with false.
    + replace ((97 <=? 87 + n) && (87 + n <=? 102)) with true.
      * f_equal. lia.
      * symmetry. apply andb_true_intro. split; apply N.leb_le; lia.
    + symmetry. apply andb_false_iff. right. apply N.leb_gt. lia.
Qed.

(** One step of [parse_string] on a character that stands for itself. *)
Lemma parse_string_plain (c : N) (r : jsstring) :
  c ≠ 34 → c ≠ 92 → 32 <= c →
  parse_string (c :: r) =
  match parse_string r with
  | Ok t rest => Ok (c :: t) rest
  | other => other
  end.
Proof.
  intros H1 H2 H3. cbn [parse_string].
  apply N.eqb_neq in H1, H2. rewrite H1, H2.
  replace (c <? 32) with false by (symmetry; apply N.ltb_ge; done).
  done.
Qed.

Lemma parse_string_simple_escape (e x : N) (r : jsstring) :
  e ≠ 117 → simple_escape e = Some x →
  parse_string (92 :: e :: r) =
  match parse_string r with
  | Ok t rest => Ok (x :: t) rest
  | other => other
  end.
Proof.
  intros H1 H2. cbn [parse_string].
  change (92 =? 34) with false. change (92 =? 92) with true. cbn match.
  apply N.eqb_neq in H1. rewrite H1, H2. done.
Qed.

Lemma parse_string_unicode_escape (c : N) (r : jsstring) :
  c < 65536 →
  parse_string (unicode_escape c ++ r) =
  match parse_string r with
  | Ok t rest => Ok (c :: t) rest
  | other => other
  end.
Proof.
  intros Hc. unfold unicode_escape. cbn [app parse_string].
  change (92 =? 34) with false. change (92 =? 92) with true.
  change (117 =? 117) with true. cbn match.
  rewrite !hex_value_digit by (apply N.mod_lt; done).
  replace (4096 * (c / 4096 mod 16) + 256 * (c / 256 mod 16)
           + 16 * (c / 16 mod 16) + c mod 16) with c
    by (zify; Z.to_euclidean_division_equations; lia).
  done.
Qed.

Lemma high_surrogate_bounds (c : N) :
  is_high_surrogate c = true → 55296 <= c ∧ c <= 56319.
Proof.
  unfold is_high_surrogate. intros [H1 H2]%andb_true_iff.
  apply N.leb_le in H1, H2. done.
Qed.

Lemma low_surrogate_bounds (c : N) :
  is_low_surrogate c = true → 56320 <= c ∧ c <= 57343.
Proof.
  unfold is_low_surrogate. intros [H1 H2]%andb_true_iff.
  apply N.leb_le in H1, H2. done.
Qed.

Lemma parse_string_escape_unit (c : N) (r : jsstring) :
  c < 55296 ∨ 57343 < c →
  parse_string (escape_unit c ++ r) =
  match parse_string r with
  | Ok t rest => Ok (c :: t) rest
  | other => other
  end.
Proof.
  intros Hc. unfold escape_unit.
  repeat match goal with
         | |- context [if ?x =? ?y then _ else _] =>
           destruct (N.eqb_spec x y) as [->|?]; [reflexivity|]
         end.
  destruct (N.ltb_spec c 32).
  - apply parse_string_unicode_escape. lia.
  - apply parse_string_plain; done.
Qed.

(** Reading back what QuoteJSONString wrote, up to the closing quote. *)
Lemma parse_string_quote_units (s tail : jsstring) :
  parse_string (quote_units s ++ 34 :: tail) = Ok s tail.
Proof.
  remember (length s) as n eqn:Hn. revert s Hn.
  induction n as [n IH] using lt_wf_ind. intros [|c r] Hn.
  - reflexivity.
  - cbn [quote_units]. cbn [length] in Hn.
    destruct (is_high_surrogate c) eqn:Hh.
    + apply high_surrogate_bounds in Hh.
      destruct r as [|d r'].
      * rewrite parse_string_unicode_escape by lia. reflexivity.
      * destruct (is_low_surrogate d) eqn:Hl.
        -- apply low_surrogate_bounds in Hl. cbn [app length] in *.
           rewrite parse_string_plain by lia.
           rewrite parse_string_plain by lia.
           rewrite (IH (length r')) by (done || lia). reflexivity.
        -- rewrite <- app_assoc, parse_string_unicode_escape by lia.
           rewrite (IH (length (d :: r'))) by (done || lia). reflexivity.
    + destruct (is_low_surrogate c) eqn:Hl; rewrite <- app_assoc.
      * apply low_surrogate_bounds in Hl.
        rewrite parse_string_unicode_escape by lia.
        rewrite (IH (length r)) by (done || lia). reflexivity.
      * rewrite parse_string_escape_unit.
        -- rewrite (IH (length r)) by (done || lia). reflexivity.
        -- unfold is_high_surrogate, is_low_surrogate in Hh, Hl.
           apply andb_false_iff in Hh, Hl.
           rewrite !N.leb_gt in Hh, Hl. lia.
Qed.

Lemma parse_value_string (fuel : nat) (s tail : jsstring) :
  parse_value (S fuel) (QuoteJSONString s ++ tail) = Ok (JStr s) tail.
Proof.
  unfold QuoteJSONString. cbn [app parse_value skip_ws].
  change (is_json_space 34) with false. cbn match.
  change (34 =? 91) with false. change (34 =? 123) with false.
  change (34 =? 34) with true. cbn match.
  rewrite <- app_assoc. cbn [app]. rewrite parse_string_quote_units. done.
Qed.

Lemma parse_elements_S (fuel : nat) (s : jsstring) :
  parse_elements (S fuel) s =
  match parse_value fuel s with
  | Ok v r =>
    match skip_ws r with
    | c :: r' =>
      if c =? 44 then
        match parse_elements fuel r' with
        | Ok vs rest => Ok (v :: vs) rest
        | other => other
        end
      else if c =? 93 then Ok [v] r'
      else Malformed
    | [] => Malformed
    end
  | Malformed => Malformed
  | OutOfFuel => OutOfFuel
  end.
Proof. reflexivity. Qed.

(** The text of a non-empty array of strings, read back element by
    element. *)
Lemma parse_elements_strings (L : list jsstring) :
  L ≠ [] → ∀ (fuel : nat) (rest : jsstring),
  (length L < fuel)%nat →
  parse_elements fuel (join_with [44] (QuoteJSONString <$> L) ++ 93 :: rest)
  = Ok (string_array L) rest.
Proof.
  induction L as [|x L IH]; [done|]. intros _ fuel rest Hfuel.
  destruct fuel as [|fuel]; [cbn in Hfuel; lia|].
  destruct fuel as [|fuel]; [cbn in Hfuel; lia|].
  rewrite parse_elements_S.
  destruct L as [|y L].
  - cbn [fmap list_fmap join_with].
    rewrite parse_value_string. reflexivity.
  - change (join_with [44] (QuoteJSONString <$> x :: y :: L))
      with (QuoteJSONString x ++ [44] ++ join_with [44] (QuoteJSONString <$> y :: L)).
    rewrite <- !app_assoc.
    rewrite parse_value_string. cbn [app skip_ws].
    change (is_json_space 44) with false. cbn match.
    change (44 =? 44) with true. cbn match.
    rewrite IH; [reflexivity|done|cbn [length] in *; lia].
Qed.

Lemma join_quoted_length (L : list jsstring) :
  (length L <= length (join_with [44%N] (QuoteJSONString <$> L)))%nat.
Proof.
  induction L as [|x [|y L] IH]; [done|cbn; lia|].
  change (join_with [44] (QuoteJSONString <$> x :: y :: L))
    with (QuoteJSONString x ++ [44] ++ join_with [44] (QuoteJSONString <$> y :: L)).
  rewrite !length_app. cbn [length] in *. lia.
Qed.

Lemma join_quoted_head (x : jsstring) (L : list jsstring) :
  ∃ t, join_with [44] (QuoteJSONString <$> x :: L) = 34 :: t.
Proof. destruct L; eexists; reflexivity. Qed.

Lemma parse_value_array_of_strings (fuel : nat) (x : jsstring) (L : list jsstring)
      (rest : jsstring) :
  parse_value (S fuel) (91 :: join_with [44] (QuoteJSONString <$> x :: L) ++ rest) =
  match parse_elements fuel (join_with [44] (QuoteJSONString <$> x :: L) ++ rest) with
  | Ok vs rest' => Ok (JArr vs) rest'
  | Malformed => Malformed
  | OutOfFuel => OutOfFuel
  end.
Proof.
  destruct (join_quoted_head x L) as [t ->]. reflexivity.
Qed.

(** [JSON.parse] reads back the text [JSON.stringify] writes for an
    array of strings. *)
Lemma JSON_parse_stringify_strings (L : list jsstring) :
  JSON_parse (JSON_stringify (JArr (string_array L))) = Returns (JArr (string_array L)).
Proof.
  unfold JSON_parse, string_array. cbn [JSON_stringify].
  rewrite <- list_fmap_compose.
  change (JSON_stringify ∘ JStr) with QuoteJSONString.
  set (text := 91 :: join_with [44] (QuoteJSONString <$> L) ++ [93]).
  replace (2 * length text + 1)%nat with (S (2 * length text)) by lia.
  destruct L as [|x L]; [reflexivity|].
  pose proof (join_quoted_length (x :: L)) as Hlen.
  assert (length (x :: L) < 2 * length text)%nat as Hfuel.
  { subst text. cbn [length]. rewrite length_app. cbn [length] in *. lia. }
  subst text. rewrite parse_value_array_of_strings.
  rewrite parse_elements_strings by done. reflexivity.
Qed.

Lemma trimStart_keep (c : N) (s : jsstring) :
  is_trim_space c = false → trimStart (c :: s) = c :: s.
Proof. intros H. cbn [trimStart]. rewrite H. done. Qed.

Lemma trim_bracketed (m : jsstring) : trim (91 :: m ++ [93]) = 91 :: m ++ [93].
Proof.
  unfold trim. rewrite trimStart_keep by done.
  rewrite (app_comm_cons m [93] 91), reverse_snoc.
  rewrite trimStart_keep by done.
  rewrite <- reverse_snoc, reverse_involutive. done.
Qed.

End Codec.

(** C4. For every ordered list of strings, the empty one included, decoding
    what the codec encoded gives the list back:
    [parseArray (stringify L) = L]; an absent value is encoded as the empty
    list. *)
Theorem parseArray_stringify (L : list jsstring) :
  JsonUtils.parseArray (VStr (JsonUtils.stringify (VList (string_array L))))
  = Returns (JArr (string_array L))
  ∧ JsonUtils.parseArray (VStr (JsonUtils.stringify VNull)) = Returns (JArr []).
Proof.
  split; [|reflexivity].
  unfold JsonUtils.stringify. cbn [truthy to_json].
  pose proof (JSON_parse_stringify_strings L) as Hparse.
  cbn [JSON_stringify] in *.
  set (m := join_with [44] (JSON_stringify <$> string_array L)) in *.
  unfold JsonUtils.parseArray. cbn [truthy negb].
  rewrite bool_decide_eq_false_2 by done. cbn [negb].
  rewrite trim_bracketed. cbn [startsWith u fmap list_fmap list_ascii_of_string].
  change (N_of_ascii "[" =? 91) with true. cbn [andb].
  rewrite Hparse. reflexivity.
Qed.

Section Strings.

Lemma startsWith_spec (p s : jsstring) :
  startsWith p s = true ↔ ∃ t, s = p ++ t.
Proof.
  revert s. induction p as [|a p IH]; intros s; cbn [startsWith].
  - split; [eauto|done].
  - destruct s as [|c s].
    + split; [done|]. intros [t Ht]. discriminate.
    + rewrite andb_true_iff, N.eqb_eq, IH. split.
      * intros [-> [t ->]]. eauto.
      * intros [t Ht]. injection Ht as -> ->. eauto.
Qed.

(** [includes] is the substring relation. *)
Lemma includes_spec (needle s : jsstring) :
  includes needle s = true ↔ ∃ pre post, s = pre ++ needle ++ post.
Proof.
  induction s as [|c s IH].
  - cbn [includes]. rewrite orb_false_r, startsWith_spec. split.
    + intros [t Ht]. exists [], t. done.
    + intros (pre & post & H). symmetry in H.
      apply app_eq_nil in H as [-> H]. exists post. done.
  - cbn [includes]. rewrite orb_true_iff, startsWith_spec, IH. split.
    + intros [[t Ht]|(pre & post & ->)].
      * exists [], t. done.
      * exists (c :: pre), post. done.
    + intros (pre & post & H). destruct pre as [|c' pre].
      * left. exists post. done.
      * right. injection H as -> ->. eauto.
Qed.

Lemma includes_infix (needle a s b : jsstring) :
  includes needle s = true → includes needle (a ++ s ++ b) = true.
Proof.
  rewrite !includes_spec. intros (pre & post & ->).
  exists (a ++ pre), (post ++ b). by rewrite <- !app_assoc.
Qed.

Lemma trimStart_suffix (s : jsstring) : ∃ a, s = a ++ trimStart s.
Proof.
  induction s as [|c s [a IH]]; [by exists []|].
  cbn [trimStart]. destruct (is_trim_space c).
  - exists (c :: a). cbn [app]. by rewrite <- IH.
  - by exists [].
Qed.

(** The trimmed text is a piece of the text. *)
Lemma trim_infix (s : jsstring) : ∃ a b, s = a ++ trim s ++ b.
Proof.
  unfold trim. destruct (trimStart_suffix s) as [a Ha].
  destruct (trimStart_suffix (reverse (trimStart s))) as [b Hb].
  exists a, (reverse b). rewrite <- reverse_app, <- Hb, reverse_involutive. done.
Qed.

Lemma isUrl_trim (s : jsstring) :
  JsonUtils.isUrl s = false → JsonUtils.isUrl (trim s) = false.
Proof.
  unfold JsonUtils.isUrl. destruct (trim_infix s) as (a & b & Hs).
  intros H. apply orb_false_iff in H as [H1 H2]. apply orb_false_iff.
  split; apply not_true_is_false; intros Hin;
    apply (includes_infix _ a _ b) in Hin; rewrite <- Hs in Hin; congruence.
Qed.

End Strings.

Section Decoding.

(** [parseArray] raises on no input: every failure of the parse ends in
    the handler, which returns. *)
Lemma parseArray_returns (v : value) : JsonUtils.parseArray v = Returns (decode v).
Proof.
  unfold decode. unfold JsonUtils.parseArray.
  destruct (negb (truthy v)); [done|].
  unfold try_catch.
  destruct v as [| | |s|]; repeat case_match; done.
Qed.

Lemma with_images_returns (r : row) : with_images r = Returns (hydrate r).
Proof. unfold with_images. rewrite parseArray_returns. done. Qed.

Lemma with_images_and_professions_returns (r : row) :
  with_images_and_professions r = Returns (hydrate_with_professions r).
Proof. unfold with_images_and_professions. rewrite !parseArray_returns. done. Qed.

Lemma map_outcome_returns {A B} (f : A → outcome B) (g : A → B) (l : list A) :
  (∀ a, f a = Returns (g a)) → map_outcome f l = Returns (g <$> l).
Proof.
  intros Hf. induction l as [|a l IH]; [done|].
  cbn [map_outcome]. rewrite Hf, IH. done.
Qed.

End Decoding.

(** C5 (as the code has it). A stored text whose trimmed form [JSON.parse]
    rejects and which contains neither [http] nor [www] decodes to the
    empty list, and no error is raised. *)
Theorem parseArray_malformed (s : jsstring) :
  JSON_parse (trim s) = Throws SyntaxError →
  JsonUtils.isUrl s = false →
  JsonUtils.parseArray (VStr s) = Returns (JArr []).
Proof.
  intros Hparse Hurl. unfold JsonUtils.parseArray.
  destruct (negb (truthy (VStr s))); [done|].
  rewrite Hparse, (isUrl_trim s Hurl), Hurl.
  destruct (startsWith (u "[") (trim s)); done.
Qed.

Lemma parseArray_malformed_witness :
  JSON_parse (trim (u "not json")) = Throws SyntaxError
  ∧ JsonUtils.isUrl (u "not json") = false
  ∧ JsonUtils.parseArray (VStr (u "not json")) = Returns (JArr []).
Proof.
  split; [reflexivity|]. split; [reflexivity|].
  apply parseArray_malformed; reflexivity.
Defined.

(** C5 (as stated) fails: a text that starts with a byte order mark is not
    valid JSON and holds neither [http] nor [www], yet it decodes to a
    non-empty list, because the text is trimmed before it is parsed. *)
Lemma parseArray_not_valid_json_counterexample :
  let text := 65279 :: JSON_stringify (JArr [JStr (u "a")]) in
  JSON_parse text = Throws SyntaxError
  ∧ JsonUtils.isUrl text = false
  ∧ JsonUtils.parseArray (VStr text) = Returns (JArr [JStr (u "a")])
  ∧ JsonUtils.parseArray (VStr text) ≠ Returns (JArr []).
Proof. repeat split; try reflexivity. discriminate. Qed.

(** ** The recursion budget of [JSON_parse] is never used up *)

Section Fuel.

Lemma skip_ws_length (s : jsstring) : (length (skip_ws s) <= length s)%nat.
Proof.
  induction s as [|c s IH]; [done|]. cbn [skip_ws].
  destruct (is_json_space c); cbn [length]; lia.
Qed.

Lemma parse_string_length (s t r : jsstring) :
  parse_string s = Ok t r → (length r < length s)%nat.
Proof.
  remember (length s) as n eqn:Hn. revert s t r Hn.
  induction n as [n IH] using lt_wf_ind. intros s t r Hn H.
  destruct s as [|c s]; [done|]. cbn [parse_string] in H. cbn [length] in Hn.
  repeat case_match; simplify_eq; cbn [length] in *; try lia;
    match goal with
    | Hp : parse_string ?x = Ok _ _ |- _ =>
      eapply (IH (length x)) in Hp; [|cbn [length]; lia|done]; cbn [length] in Hp; lia
    end.
Qed.

Lemma span_digits_length (s ds r : jsstring) :
  span_digits s = (ds, r) → (length r <= length s)%nat.
Proof.
  revert ds r. induction s as [|c s IH]; intros ds r H; cbn [span_digits] in H.
  - by simplify_eq.
  - destruct (is_digit c).
    + destruct (span_digits s) as [ds' r'] eqn:E. simplify_eq.
      specialize (IH _ _ eq_refl). cbn [length]. lia.
    + by simplify_eq.
Qed.

Lemma parse_fraction_length (s f r : jsstring) :
  parse_fraction s = Ok f r → (length r <= length s)%nat.
Proof.
  unfold parse_fraction. intros H.
  repeat case_match; simplify_eq; cbn [length]; try lia;
    match goal with
    | Hs : span_digits _ = _ |- _ => apply span_digits_length in Hs; lia
    end.
Qed.

Lemma parse_exponent_length (s e r : jsstring) :
  parse_exponent s = Ok e r → (length r <= length s)%nat.
Proof.
  unfold parse_exponent. intros H.
  repeat case_match; simplify_eq; cbn [length]; try lia;
    match goal with
    | Hs : span_digits _ = _ |- _ =>
      apply span_digits_length in Hs; cbn [length] in Hs; lia
    end.
Qed.

Lemma parse_number_length (s l r : jsstring) :
  parse_number s = Ok l r → (length r < length s)%nat.
Proof.
  unfold parse_number. intros H.
  repeat case_match; simplify_eq;
    repeat match goal with
           | Hs : span_digits _ = _ |- _ => apply span_digits_length in Hs
           | Hs : parse_fraction _ = _ |- _ => apply parse_fraction_length in Hs
           | Hs : parse_exponent _ = _ |- _ => apply parse_exponent_length in Hs
           end; cbn [length] in *; lia.
Qed.

Lemma strip_prefix_length (word s rest : jsstring) :
  strip_prefix word s = Some rest → (length rest + length word = length s)%nat.
Proof.
  revert s. induction word as [|w word IH]; intros s H; cbn [strip_prefix] in H.
  - simplify_eq. cbn [length]. lia.
  - destruct s as [|c s]; [done|]. destruct (w =? c); [|done].
    apply IH in H. cbn [length]. lia.
Qed.

Lemma parse_literal_length (word : jsstring) (v v' : json) (s r : jsstring) :
  word ≠ [] → parse_literal word v s = Ok v' r → (length r < length s)%nat.
Proof.
  unfold parse_literal. intros Hw H.
  destruct (strip_prefix word s) eqn:E; [|done]. simplify_eq.
  apply strip_prefix_length in E. destruct word; [done|]. cbn [length] in E. lia.
Qed.

Lemma parse_string_answers (s : jsstring) : parse_string s ≠ OutOfFuel.
Proof.
  remember (length s) as n eqn:Hn. revert s Hn.
  induction n as [n IH] using lt_wf_ind. intros s Hn H.
  destruct s as [|c s]; [done|]. cbn [parse_string] in H. cbn [length] in Hn.
  repeat case_match; simplify_eq;
    match goal with
    | Hp : parse_string ?x = OutOfFuel |- _ =>
      apply (IH (length x)) in Hp; [done|cbn [length]; lia|done]
    end.
Qed.

Lemma parse_number_answers (s : jsstring) : parse_number s ≠ OutOfFuel.
Proof.
  unfold parse_number, parse_fraction, parse_exponent. intros H.
  repeat case_match; simplify_eq.
Qed.

Lemma parse_literal_answers (word : jsstring) (v : json) (s : jsstring) :
  parse_literal word v s ≠ OutOfFuel.
Proof. unfold parse_literal. by destruct (strip_prefix word s). Qed.

Local Ltac measure_rests IHv IHe IHm :=
  repeat match goal with
         | H : skip_ws ?x = _ |- _ =>
           let Hn := fresh "Hn" in
           pose proof (skip_ws_length x) as Hn; rewrite H in Hn; clear H
         | H : parse_string _ = Ok _ _ |- _ => apply parse_string_length in H
         | H : parse_number _ = Ok _ _ |- _ => apply parse_number_length in H
         | H : parse_literal _ _ _ = Ok _ _ |- _ =>
           apply parse_literal_length in H; [|done]
         | H : parse_value _ _ = Ok _ _ |- _ => apply IHv in H
         | H : parse_elements _ _ = Ok _ _ |- _ => apply IHe in H
         | H : parse_members _ _ = Ok _ _ |- _ => apply IHm in H
         end;
  cbn [length] in *.

(** Every successful parse consumes at least one character. *)
Lemma parse_consumes (fuel : nat) :
  (∀ s v r, parse_value fuel s = Ok v r → (length r < length s)%nat)
  ∧ (∀ s vs r, parse_elements fuel s = Ok vs r → (length r < length s)%nat)
  ∧ (∀ s ms r, parse_members fuel s = Ok ms r → (length r < length s)%nat).
Proof.
  induction fuel as [|fuel (IHv & IHe & IHm)]; [done|].
  split; [|split]; intros s x r H; cbn [parse_value parse_elements parse_members] in H;
    repeat case_match; simplify_eq; measure_rests IHv IHe IHm; lia.
Qed.

(** With twice the length of the text as budget, no call runs out. *)
Lemma parse_within_budget (fuel : nat) :
  (∀ s, (2 * length s < fuel)%nat → parse_value fuel s ≠ OutOfFuel)
  ∧ (∀ s, (2 * length s + 1 < fuel)%nat → parse_elements fuel s ≠ OutOfFuel)
  ∧ (∀ s, (2 * length s + 1 < fuel)%nat → parse_members fuel s ≠ OutOfFuel).
Proof.
  induction fuel as [|fuel (IHv & IHe & IHm)]; [repeat split; intros; lia|].
  destruct (parse_consumes fuel) as (Cv & Ce & Cm).
  split; [|split]; intros s Hs H; cbn [parse_value parse_elements parse_members] in H;
    repeat case_match; simplify_eq;
    try (by eapply parse_string_answers);
    try (by eapply parse_number_answers);
    try (by eapply parse_literal_answers);
    match goal with
    | Hf : parse_value fuel ?x = OutOfFuel |- _ => apply IHv in Hf; [done|]
    | Hf : parse_elements fuel ?x = OutOfFuel |- _ => apply IHe in Hf; [done|]
    | Hf : parse_members fuel ?x = OutOfFuel |- _ => apply IHm in Hf; [done|]
    end;
    measure_rests Cv Ce Cm; lia.
Qed.

(** [JSON_parse] raises only on a text that is not one JSON value. *)
Lemma JSON_parse_budget (text : jsstring) :
  parse_value (2 * length text + 1) text ≠ OutOfFuel.
Proof. apply parse_within_budget. lia. Qed.

End Fuel.

(** ** The store and its statements *)

Section Store.

Lemma col_insert_eq (k : string) (v : value) (r : row) : col (<[k := v]> r) k = v.
Proof. unfold col. by rewrite lookup_insert_eq. Qed.

Lemma col_insert_ne (k k' : string) (v : value) (r : row) :
  k ≠ k' → col (<[k := v]> r) k' = col r k'.
Proof. intros H. unfold col. by rewrite lookup_insert_ne. Qed.

Lemma assign_singleton (k : string) (v : value) (r : row) :
  assign {[k := v]} r = <[k := v]> r.
Proof. unfold assign. by rewrite insert_union_singleton_l. Qed.

Lemma assign_lookup_None (data r : row) (k : string) :
  data !! k = None → assign data r !! k = r !! k.
Proof. intros H. unfold assign. by rewrite lookup_union_r. Qed.

Lemma assign_lookup_Some (data r : row) (k : string) (v : value) :
  data !! k = Some v → assign data r !! k = Some v.
Proof. intros H. unfold assign. by apply lookup_union_Some_l. Qed.

Lemma eq_insert_ne (k k' : string) (x v : value) (r : row) :
  k ≠ k' → drizzle.eq k' v (<[k := x]> r) = drizzle.eq k' v r.
Proof. intros H. unfold drizzle.eq. by rewrite col_insert_ne. Qed.

(** The statement of an update whose payload has a field, and the error of
    one whose payload has none. *)
Lemma db_update_fields (table : string) (data : row) (c : row → bool) (st : store) :
  data ≠ ∅ →
  db_update table data c st
  = (Returns (assign data <$> List.filter c (rows_of table st)),
     record_statement (Update table data)
       (with_tables
          (alter (fmap (fun r => if c r then assign data r else r)) table (tables st)) st)).
Proof. intros H. unfold db_update. by rewrite bool_decide_eq_false_2. Qed.

Lemma db_update_no_fields (table : string) (c : row → bool) (st : store) :
  db_update table ∅ c st = (Throws PlainError, st).
Proof. reflexivity. Qed.

(** The rows of a table after another or the same table was rewritten. *)
Lemma rows_of_alter (f : list row → list row) (t t' : string) (st : store) :
  f [] = [] →
  rows_of t' (with_tables (alter f t (tables st)) st)
  = if decide (t = t') then f (rows_of t st) else rows_of t' st.
Proof.
  intros Hf. unfold rows_of, with_tables. cbn [tables].
  rewrite lookup_alter. case_decide as Ht; [subst t'|done].
  destruct (tables st !! t); done.
Qed.

Lemma rows_of_record_statement (s : statement) (t : string) (st : store) :
  rows_of t (record_statement s st) = rows_of t st.
Proof. done. Qed.

(** Rewriting rows that are left as they are leaves the tables as they
    are. *)
Lemma alter_fmap_id (f : row → row) (t : string) (m : gmap string (list row)) :
  (∀ r, r ∈ default [] (m !! t) → f r = r) → alter (fmap f) t m = m.
Proof.
  intros Hf. apply map_eq. intros k. rewrite lookup_alter.
  case_decide as Hk; [subst k|done].
  destruct (m !! t) as [rows|] eqn:E; [|done]. cbn [fmap option_fmap option_map].
  f_equal. cbn [default] in Hf. clear E.
  induction rows as [|r rows IH]; [done|]. cbn [fmap list_fmap]. f_equal.
  - apply Hf. left.
  - apply IH. intros r' Hr'. apply Hf. by right.
Qed.

Lemma filter_nil_not_elem (c : row → bool) (rows : list row) :
  List.filter c rows = [] → ∀ r, r ∈ rows → c r = false.
Proof.
  intros H r Hr. destruct (c r) eqn:E; [|done].
  assert (In r (List.filter c rows)) as Hin.
  { apply filter_In. split; [by apply list_elem_of_In|done]. }
  rewrite H in Hin. destruct Hin.
Qed.

Lemma filter_fmap_stable (c : row → bool) (f : row → row) (rows : list row) :
  (∀ r, c (f r) = c r) → List.filter c (f <$> rows) = f <$> List.filter c rows.
Proof.
  intros H. induction rows as [|r rows IH]; [done|].
  cbn [fmap list_fmap List.filter]. rewrite H.
  destruct (c r); cbn [fmap list_fmap]; by rewrite <- IH.
Qed.

Lemma head_filter_Some (c : row → bool) (rows : list row) (r : row) :
  head (List.filter c rows) = Some r → c r = true ∧ r ∈ rows.
Proof.
  intros H. assert (In r (List.filter c rows)) as Hin.
  { destruct (List.filter c rows); [done|]. cbn in H. simplify_eq. by left. }
  apply filter_In in Hin as [Hin ?]. split; [done|by apply list_elem_of_In].
Qed.

End Store.

(** ** Accepting a bid *)

Section AcceptBid.

Lemma accept_row_id (bidId : Z) (r : row) :
  drizzle.eq "id" (VNum bidId) (accept_row bidId r) = drizzle.eq "id" (VNum bidId) r.
Proof.
  unfold accept_row. case_match; [|done]. by rewrite assign_singleton, eq_insert_ne.
Qed.

Lemma accept_row_idem (bidId : Z) (r : row) :
  accept_row bidId (accept_row bidId r) = accept_row bidId r.
Proof.
  unfold accept_row at 1. rewrite accept_row_id. unfold accept_row.
  case_match; [|done]. by rewrite !assign_singleton, insert_insert_eq.
Qed.

Lemma start_row_id (tenderId v : value) (t : row) :
  drizzle.eq "id" v (start_row tenderId t) = drizzle.eq "id" v t.
Proof.
  unfold start_row. case_match; [|done]. by rewrite assign_singleton, eq_insert_ne.
Qed.

Lemma start_row_idem (tenderId : value) (t : row) :
  start_row tenderId (start_row tenderId t) = start_row tenderId t.
Proof.
  unfold start_row at 1. rewrite start_row_id. unfold start_row.
  case_match; [|done]. by rewrite !assign_singleton, insert_insert_eq.
Qed.

(** The run of [acceptTenderBid] when a bid is found. *)
Lemma acceptTenderBid_found (st : store) (bidId : Z) (bid : row) :
  head (List.filter (drizzle.eq "id" (VNum bidId)) (rows_of "tenderBids" st)) = Some bid →
  SQLiteStorage.acceptTenderBid bidId st =
  (Returns (Some (<["isAccepted" := VBool true]> bid)),
   {| tables := alter (fmap (accept_row bidId)) "tenderBids"
                  (alter (fmap (start_row (col bid "tenderId"))) "tenders" (tables st));
      clock := clock st;
      journal := journal st ++ [Select "tenderBids";
                                Update "tenders" {["status" := in_progress]};
                                Update "tenderBids" {["isAccepted" := VBool true]}] |}).
Proof.
  intros Hhead. unfold SQLiteStorage.acceptTenderBid, bind, db_select.
  destruct (List.filter _ (rows_of "tenderBids" st)) as [|b found] eqn:Hfound; [done|].
  cbn in Hhead. simplify_eq.
  rewrite !db_update_fields by apply map_non_empty_singleton.
  unfold record_statement, with_tables, ret.
  cbn [tables clock journal]. f_equal.
  - f_equal. unfold rows_of in *. cbn [tables].
    rewrite lookup_alter_ne by done. rewrite Hfound.
    cbn [fmap list_fmap head]. by rewrite assign_singleton.
  - f_equal. by rewrite <- !app_assoc.
Qed.

Lemma acceptTenderBid_absent (st : store) (bidId : Z) :
  head (List.filter (drizzle.eq "id" (VNum bidId)) (rows_of "tenderBids" st)) = None →
  SQLiteStorage.acceptTenderBid bidId st =
  (Returns None, record_statement (Select "tenderBids") st).
Proof.
  intros Hhead. unfold SQLiteStorage.acceptTenderBid, bind, db_select.
  by destruct (List.filter _ (rows_of "tenderBids" st)).
Qed.

Lemma accept_row_flag (bidId : Z) (r0 r : row) :
  r = accept_row bidId r0 →
  drizzle.eq "id" (VNum bidId) r = true → col r "isAccepted" = VBool true.
Proof.
  intros -> H. rewrite accept_row_id in H. unfold accept_row. rewrite H.
  by rewrite assign_singleton, col_insert_eq.
Qed.

Lemma start_row_status (tenderId : value) (t0 t : row) :
  t = start_row tenderId t0 →
  drizzle.eq "id" tenderId t = true → col t "status" = in_progress.
Proof.
  intros -> H. rewrite start_row_id in H. unfold start_row. rewrite H.
  by rewrite assign_singleton, col_insert_eq.
Qed.

End AcceptBid.

(** C1. When a bid with the given id exists, [acceptTenderBid] returns that
    bid with [isAccepted] set, sets the flag on the stored bid and the
    status of the parent tender to [in_progress], and touches nothing else;
    when no such bid exists it returns undefined and changes no row.  A
    second call on the accepted bid returns the same bid, leaves every row
    as the first call left it, and issues the update of the tender again. *)
Theorem acceptTenderBid_spec (st : store) (bidId : Z) :
  match head (List.filter (drizzle.eq "id" (VNum bidId)) (rows_of "tenderBids" st)) with
  | None =>
    result_of (SQLiteStorage.acceptTenderBid bidId) st = Returns None
    ∧ tables (store_after (SQLiteStorage.acceptTenderBid bidId) st) = tables st
  | Some bid =>
    let st1 := store_after (SQLiteStorage.acceptTenderBid bidId) st in
    let st2 := store_after (SQLiteStorage.acceptTenderBid bidId) st1 in
    let accepted := <["isAccepted" := VBool true]> bid in
    result_of (SQLiteStorage.acceptTenderBid bidId) st = Returns (Some accepted)
    ∧ col accepted "isAccepted" = VBool true
    ∧ rows_of "tenderBids" st1 = accept_row bidId <$> rows_of "tenderBids" st
    ∧ rows_of "tenders" st1 = start_row (col bid "tenderId") <$> rows_of "tenders" st
    ∧ (∀ r, r ∈ rows_of "tenderBids" st1 →
            drizzle.eq "id" (VNum bidId) r = true → col r "isAccepted" = VBool true)
    ∧ (∀ t, t ∈ rows_of "tenders" st1 →
            drizzle.eq "id" (col bid "tenderId") t = true → col t "status" = in_progress)
    ∧ (∀ table, table ≠ "tenders" → table ≠ "tenderBids" →
                rows_of table st1 = rows_of table st)
    ∧ result_of (SQLiteStorage.acceptTenderBid bidId) st1 = Returns (Some accepted)
    ∧ tables st2 = tables st1
    ∧ journal st2 = journal st1 ++ [Select "tenderBids";
                                    Update "tenders" {["status" := in_progress]};
                                    Update "tenderBids" {["isAccepted" := VBool true]}]
  end.
Proof.
  destruct (head _) as [bid|] eqn:Hhead.
  - pose proof (acceptTenderBid_found st bidId bid Hhead) as Hrun.
    cbv zeta. unfold result_of, store_after. rewrite Hrun. cbn [fst snd].
    set (st1 := {| tables := _ |}).
    assert (rows_of "tenderBids" st1 = accept_row bidId <$> rows_of "tenderBids" st) as Hbids.
    { unfold rows_of, st1. cbn [tables]. rewrite lookup_alter_eq, lookup_alter_ne by done.
      by destruct (tables st !! "tenderBids"). }
    assert (rows_of "tenders" st1 = start_row (col bid "tenderId") <$> rows_of "tenders" st)
      as Htenders.
    { unfold rows_of, st1. cbn [tables]. rewrite lookup_alter_ne, lookup_alter_eq by done.
      by destruct (tables st !! "tenders"). }
    assert (head (List.filter (drizzle.eq "id" (VNum bidId)) (rows_of "tenderBids" st1))
            = Some (accept_row bidId bid)) as Hhead1.
    { rewrite Hbids, filter_fmap_stable by apply accept_row_id.
      destruct (List.filter _ (rows_of "tenderBids" st)); [done|].
      cbn in Hhead. by simplify_eq. }
    destruct (head_filter_Some _ _ _ Hhead) as [Hid _].
    assert (accept_row bidId bid = <["isAccepted" := VBool true]> bid) as Haccepted.
    { unfold accept_row. by rewrite Hid, assign_singleton. }
    rewrite (acceptTenderBid_found st1 bidId _ Hhead1). cbn [fst snd].
    rewrite Haccepted, insert_insert_eq.
    rewrite (col_insert_ne "isAccepted" "tenderId") by done.
    repeat split; try done.
    + by rewrite col_insert_eq.
    + intros r Hr. rewrite Hbids in Hr. apply list_elem_of_fmap in Hr as (r0 & -> & _).
      by apply (accept_row_flag bidId r0).
    + intros t Ht. rewrite Htenders in Ht. apply list_elem_of_fmap in Ht as (t0 & -> & _).
      by apply (start_row_status _ t0).
    + intros table H1 H2. unfold rows_of, st1. cbn [tables].
      by rewrite !lookup_alter_ne.
    + cbn [tables]. apply map_eq. intros k.
      assert (∀ k, tables st1 !! k =
                   if decide ("tenderBids" = k)
                   then fmap (accept_row bidId) <$> tables st !! k
                   else if decide ("tenders" = k)
                        then fmap (start_row (col bid "tenderId")) <$> tables st !! k
                        else tables st !! k) as Hk.
      { intros k'. unfold st1. cbn [tables]. rewrite !lookup_alter.
        repeat case_decide; by simplify_eq. }
      rewrite !lookup_alter, !Hk.
      repeat case_decide; simplify_eq; try done;
        (destruct (tables st !! _) as [rows|]; [|done]); cbn; f_equal;
        rewrite <- list_fmap_compose; apply list_fmap_ext; intros ? r _.
      * apply accept_row_idem.
      * apply start_row_idem.
  - pose proof (acceptTenderBid_absent st bidId Hhead) as Hrun.
    unfold result_of, store_after. by rewrite Hrun.
Qed.

Lemma acceptTenderBid_spec_witness :
  head (List.filter (drizzle.eq "id" (VNum 1)) (rows_of "tenderBids" example_store))
  = Some example_bid
  ∧ result_of (SQLiteStorage.acceptTenderBid 1) example_store
    = Returns (Some (<["isAccepted" := VBool true]> example_bid))
  ∧ (∀ t, t ∈ rows_of "tenders"
                (store_after (SQLiteStorage.acceptTenderBid 1) example_store) →
          drizzle.eq "id" (col example_bid "tenderId") t = true →
          col t "status" = in_progress).
Proof.
  pose proof (acceptTenderBid_spec example_store 1) as H.
  change (head (List.filter (drizzle.eq "id" (VNum 1)) (rows_of "tenderBids" example_store)))
    with (Some example_bid) in H.
  cbv beta iota zeta in H.
  destruct H as (Hresult & _ & _ & _ & _ & Htenders & _).
  split; [reflexivity|]. split; [exact Hresult|exact Htenders].
Defined.

(** ** The aggregate rating *)

Section Rating.

Local Open Scope Z_scope.

Lemma round_half_even_near (n d : Z) :
  0 < d → - d <= 2 * (round_half_even n d * d - n) <= d.
Proof.
  intros Hd. unfold round_half_even. cbv zeta.
  pose proof (Z.div_mod n d ltac:(lia)) as Hdiv.
  pose proof (Z.mod_pos_bound n d Hd) as Hmod.
  repeat case_match; rewrite ?Z.ltb_lt, ?Z.ltb_ge in *; nia.
Qed.

Lemma round_half_even_exact (n : Z) : round_half_even n 1 = n.
Proof.
  unfold round_half_even. cbv zeta. rewrite Z.div_1_r, Z.mod_1_r. done.
Qed.

(** The exponent of the double nearest to a positive ratio, and the bounds
    of the scaled ratio. *)
Lemma nearest_double_exponent (n d : Z) :
  0 < n → 0 < d →
  let e := (nearest_double n d).2 in
  Z.log2 n - Z.log2 d - 53 <= e <= Z.log2 n - Z.log2 d - 52
  ∧ (e < 0 → 2 ^ 52 * d <= n * 2 ^ (- e)).
Proof.
  intros Hn Hd. cbv zeta. unfold nearest_double. cbv zeta. cbn [snd].
  set (e0 := Z.log2 n - Z.log2 d - 53).
  pose proof (Z.log2_spec n Hn) as [Hn1 Hn2].
  pose proof (Z.log2_spec d Hd) as [Hd1 Hd2].
  pose proof (Z.log2_nonneg n) as Hln. pose proof (Z.log2_nonneg d) as Hld.
  split; [case_match; lia|].
  destruct (_ <? _) eqn:Htest.
  - intros He. unfold scaled in Htest. destruct (0 <=? e0) eqn:E; [lia|].
    assert (- e0 = (53 + Z.log2 d - Z.log2 n)) as -> by lia.
    assert (2 ^ Z.log2 n * 2 ^ (53 + Z.log2 d - Z.log2 n) = 2 ^ 53 * 2 ^ Z.log2 d) as Hpow.
    { rewrite <- !Z.pow_add_r by lia. f_equal. lia. }
    assert (0 < 2 ^ (53 + Z.log2 d - Z.log2 n)) as Hpos by (apply Z.pow_pos_nonneg; lia).
    assert (d < 2 * 2 ^ Z.log2 d) as Hd3.
    { replace (Z.succ (Z.log2 d)) with (Z.log2 d + 1) in Hd2 by lia.
      rewrite Z.pow_add_r in Hd2 by lia. lia. }
    nia.
  - intros He. unfold scaled in Htest. apply Z.ltb_ge in Htest.
    destruct (0 <=? e0) eqn:E; [lia|]. cbn [fst snd] in Htest.
    assert (- e0 = (- (e0 + 1)) + 1) as Hs by lia.
    rewrite Hs, Z.pow_add_r in Htest by lia. lia.
Qed.


Lemma to_double_exact (z : Z) : Z.abs z < 2 ^ 53 → to_double z = z.
Proof.
  intros Hz. unfold to_double, double_of_ratio. cbv zeta.
  destruct (z =? 0) eqn:E0; [apply Z.eqb_eq in E0; by subst|].
  apply Z.eqb_neq in E0. cbn [fst snd].
  assert (0 < Z.abs z) as Hn by lia.
  destruct (nearest_double_exponent (Z.abs z) 1 Hn ltac:(lia)) as [He Hscale].
  cbv zeta in He, Hscale.
  pose proof (Z.log2_spec (Z.abs z) Hn) as [Hn1 Hn2].
  assert (Z.log2 (Z.abs z) < 53) as Hlog by (apply Z.log2_lt_pow2; lia).
  change (Z.log2 1) with 0 in He.
  unfold nearest_double in *. cbv zeta in *. cbn [fst snd] in *.
  set (e := if _ <? _ then _ else _) in *.
  assert (e <= 0) as Hle.
  { destruct (Z.eq_dec e 1); [|lia]. assert (Z.log2 (Z.abs z) = 53) by lia. lia. }
  unfold scaled. destruct (0 <=? e) eqn:E.
  - assert (e = 0) as -> by lia. cbn [fst snd].
    change (1 * 2 ^ 0) with 1. rewrite round_half_even_exact. lia.
  - cbn [fst snd]. rewrite round_half_even_exact.
    assert (0 < 2 ^ (- e)) as Hpos by (apply Z.pow_pos_nonneg; lia).
    replace (Z.sgn z * (Z.abs z * 2 ^ (- e))) with (z * 2 ^ (- e)) by lia.
    apply Z.div_mul. lia.
Qed.

Lemma Math_round_div_exact (t c : Z) :
  0 < c → Z.abs t < 2 ^ 52 → Math_round_div t c = (2 * t + c) / (2 * c).
Proof.
  intros Hc Ht. unfold Math_round_div, double_of_ratio. cbv zeta.
  destruct (t =? 0) eqn:E0.
  { apply Z.eqb_eq in E0. subst t. cbn. symmetry. apply Z.div_small. lia. }
  apply Z.eqb_neq in E0. cbn [fst snd].
  assert (0 < Z.abs t) as Hn by lia.
  destruct (nearest_double_exponent (Z.abs t) c Hn Hc) as [He Hscale].
  cbv zeta in He, Hscale.
  assert (Z.log2 (Z.abs t) < 52) as Hlog by (apply Z.log2_lt_pow2; lia).
  pose proof (Z.log2_nonneg c) as Hlc.
  unfold nearest_double in *. cbv zeta in *. cbn [fst snd] in *.
  set (e := if _ <? _ then _ else _) in *.
  assert (e <= -1) as Hneg by lia.
  specialize (Hscale ltac:(lia)).
  unfold scaled. destruct (0 <=? e) eqn:E; [lia|]. cbn [fst snd].
  set (P := 2 ^ (- e)) in *.
  assert (2 ^ (1 - e) = 2 * P) as ->.
  { unfold P. replace (1 - e) with (1 + - e) by lia. by rewrite Z.pow_add_r by lia. }
  assert (∃ P', P = 2 * P' ∧ 0 < P') as (P' & HP & HP').
  { exists (2 ^ (- e - 1)). split; [|apply Z.pow_pos_nonneg; lia].
    unfold P. replace (- e) with (1 + (- e - 1)) at 1 by lia.
    by rewrite Z.pow_add_r by lia. }
  pose proof (round_half_even_near (Z.abs t * P) c Hc) as Hnear.
  set (m := round_half_even (Z.abs t * P) c) in *.
  assert (c < P) as HcP by nia.
  set (M := (2 * t + c) / (2 * c)).
  pose proof (Z.div_mod (2 * t + c) (2 * c) ltac:(lia)) as Hdiv.
  pose proof (Z.mod_pos_bound (2 * t + c) (2 * c) ltac:(lia)) as Hmod.
  fold M in Hdiv.
  assert ((2 * M - 1) * c <= 2 * t) as Hlo by lia.
  assert (2 * t <= (2 * M + 1) * c - 1) as Hhi by lia.
  assert (- c <= 2 * (Z.sgn t * m * c - t * P) <= c) as Hsigned.
  { destruct (Z.sgn_spec t) as [[? ->]|[[? ->]|[? ->]]]; lia. }
  set (m' := Z.sgn t * m) in *.
  symmetry. apply Z.div_unique with (r := 2 * m' + P - 2 * P * M).
  2: lia.
  left. split.
  - assert (((2 * M - 1) * P - 2 * m') * c <= c) as H1 by nia.
    assert ((2 * M - 1) * P - 2 * m' <= 1) as H2 by nia.
    lia.
  - assert (2 * m' * c < (2 * M + 1) * P * c) as H1 by nia.
    assert (2 * m' < (2 * M + 1) * P) as H2 by nia.
    lia.
Qed.

(** The code's sum of the ratings. *)
Lemma rating_of_exact (bound : Z) (review : row) (z : Z) :
  col review "rating" = VNum z → Z.abs z <= bound → bound < 2 ^ 52 →
  rating_of review = z.
Proof.
  intros Hcol Hz Hb. unfold rating_of. rewrite Hcol. apply to_double_exact. lia.
Qed.

Lemma foldl_ratings (bound : Z) (reviews : list row) (start : Z) :
  rated_within bound reviews →
  Z.abs start + Z.of_nat (length reviews) * bound < 2 ^ 52 →
  foldl (fun sum review => Number_add sum (rating_of review)) start reviews
  = start + total (rating_of <$> reviews)
  ∧ Z.abs (start + total (rating_of <$> reviews))
    <= Z.abs start + Z.of_nat (length reviews) * bound.
Proof.
  revert start. induction reviews as [|r reviews IH]; intros start Hrated Hsum.
  - cbn. split; lia.
  - destruct (Hrated r) as (z & Hcol & Hz); [left|].
    assert (0 <= bound) as Hb by lia.
    assert (bound < 2 ^ 52) as Hb'.
    { cbn [length] in Hsum. nia. }
    pose proof (rating_of_exact bound r z Hcol Hz Hb') as Hr.
    cbn [foldl fmap list_fmap length] in *. rewrite Hr.
    change (Number_add start z) with (to_double (start + z)).
    rewrite to_double_exact by nia.
    destruct (IH (start + z)) as [Hfold Habs].
    + intros r' Hr'. apply Hrated. by right.
    + nia.
    + rewrite Hfold. unfold total in *. cbn [foldr]. split; [lia|]. nia.
Qed.

Lemma total_rating_exact (bound : Z) (reviews : list row) :
  rated_within bound reviews → sums_exactly bound reviews →
  foldl (fun sum review => Number_add sum (rating_of review)) 0 reviews
  = total (rating_of <$> reviews)
  ∧ Z.abs (total (rating_of <$> reviews)) < 2 ^ 52.
Proof.
  intros Hrated Hsum. unfold sums_exactly in Hsum.
  destruct (foldl_ratings bound reviews 0 Hrated ltac:(lia)) as [Hfold Habs].
  rewrite Z.add_0_l in *. split; [done|lia].
Qed.

(** Beyond the exact range the sum is rounded before it is divided: of the
    ratings 2^53 and 1 the code makes 2^52, where the mean rounds to
    2^52 + 1. *)
Lemma Math_round_div_beyond_exact_sums :
  Math_round_div (Number_add (2 ^ 53) 1) 2 = 2 ^ 52
  ∧ (2 * (2 ^ 53 + 1) + 2) / (2 * 2) = 2 ^ 52 + 1.
Proof. split; reflexivity. Qed.

Lemma Math_round_div_rounds (ratings : list Z) :
  ratings ≠ [] → Z.abs (total ratings) < 2 ^ 52 →
  rounded_mean ratings (Math_round_div (total ratings) (Z.of_nat (length ratings))).
Proof.
  intros Hne Hsmall. unfold rounded_mean. cbv zeta.
  assert (0 < Z.of_nat (length ratings))%Z as Hn by (destruct ratings; [done|cbn; lia]).
  rewrite Math_round_div_exact by done.
  set (n := Z.of_nat (length ratings)) in *. set (t := total ratings) in *.
  pose proof (Z.div_mod (2 * t + n) (2 * n) ltac:(lia)) as Hdiv.
  pose proof (Z.mod_pos_bound (2 * t + n) (2 * n) ltac:(lia)) as Hmod.
  nia.
Qed.

Local Close Scope Z_scope.

Lemma updateUserRating_none (st : store) (userId : Z) :
  reviews_for userId st = [] →
  SQLiteStorage.updateUserRating userId st
  = (Returns (VNum 0), record_statement (Select "reviews") st).
Proof.
  intros H. unfold SQLiteStorage.updateUserRating, bind, db_select.
  fold (reviews_for userId st). by rewrite H.
Qed.

Lemma updateUserRating_some (st : store) (userId : Z) (user : row) :
  reviews_for userId st ≠ [] →
  user ∈ rows_of "users" st → drizzle.eq "id" (VNum userId) user = true →
  let mean := averageRating (reviews_for userId st) in
  SQLiteStorage.updateUserRating userId st
  = (Returns (VNum mean),
     {| tables := alter (fmap (rate_row userId mean)) "users" (tables st);
        clock := clock st;
        journal := journal st ++ [Select "reviews"; Update "users" {["rating" := VNum mean]}] |}).
Proof.
  intros Hne Huser Hid mean.
  unfold SQLiteStorage.updateUserRating, bind, db_select.
  fold (reviews_for userId st).
  rewrite bool_decide_eq_false_2 by (by destruct (reviews_for userId st)).
  fold (totalRating (reviews_for userId st)). fold (averageRating (reviews_for userId st)).
  fold mean.
  rewrite db_update_fields by apply map_non_empty_singleton.
  rewrite rows_of_record_statement.
  assert (In user (List.filter (drizzle.eq "id" (VNum userId)) (rows_of "users" st))) as Hin.
  { apply filter_In. split; [by apply list_elem_of_In|done]. }
  destruct (List.filter _ (rows_of "users" st)) as [|updatedUser others]; [destruct Hin|].
  cbn [fmap list_fmap]. unfold ret, record_statement, with_tables.
  cbn [tables clock journal]. f_equal.
  - by rewrite assign_singleton, col_insert_eq.
  - by rewrite <- app_assoc.
Qed.

End Rating.

(** C6. [updateUserRating] returns 0 and writes nothing when no review is
    addressed to the user.  When there are reviews and the user exists it
    returns the mean of their ratings rounded to the nearest integer and
    stores it as the user's rating; for the ratings 5, 4, 3 that is 4.
    The ratings are numbers, of a magnitude and in a number for which
    their sums are exact, below 2^52. *)
Theorem updateUserRating_spec (st : store) (userId : Z) (bound : Z) :
  let reviews := reviews_for userId st in
  let ratings := rating_of <$> reviews in
  let st' := store_after (SQLiteStorage.updateUserRating userId) st in
  (reviews = [] →
   result_of (SQLiteStorage.updateUserRating userId) st = Returns (VNum 0)
   ∧ tables st' = tables st
   ∧ journal st' = journal st ++ [Select "reviews"])
  ∧ (reviews ≠ [] →
     rated_within bound reviews → sums_exactly bound reviews →
     (∃ user, user ∈ rows_of "users" st ∧ drizzle.eq "id" (VNum userId) user = true) →
     ∃ mean,
       rounded_mean ratings mean
       ∧ (∀ review, review ∈ reviews → col review "rating" = VNum (rating_of review))
       ∧ result_of (SQLiteStorage.updateUserRating userId) st = Returns (VNum mean)
       ∧ rows_of "users" st' = rate_row userId mean <$> rows_of "users" st
       ∧ (∀ user, user ∈ rows_of "users" st' →
                  drizzle.eq "id" (VNum userId) user = true → col user "rating" = VNum mean)
       ∧ (ratings = [5; 4; 3]%Z → mean = 4%Z)).
Proof.
  cbv zeta. split.
  - intros Hnone. unfold result_of, store_after.
    by rewrite (updateUserRating_none st userId Hnone).
  - intros Hsome Hrated Hsums (user & Huser & Hid).
    pose proof (updateUserRating_some st userId user Hsome Huser Hid) as Hrun.
    cbv zeta in Hrun. unfold result_of, store_after. rewrite Hrun. cbn [fst snd].
    destruct (total_rating_exact bound _ Hrated Hsums) as [Htotal Hsmall].
    set (mean := averageRating _).
    assert (mean = Math_round_div (total (rating_of <$> reviews_for userId st))
                                  (Z.of_nat (length (rating_of <$> reviews_for userId st))))
      as Hmean.
    { unfold mean, averageRating, totalRating. by rewrite Htotal, length_fmap. }
    exists mean. split; [|split; [|split; [done|split; [|split]]]].
    + rewrite Hmean. apply Math_round_div_rounds; [|done].
      by destruct (reviews_for userId st).
    + intros review Hreview. destruct (Hrated review Hreview) as (z & Hcol & Hz).
      rewrite Hcol. f_equal. symmetry. apply (rating_of_exact bound); [done..|].
      unfold sums_exactly in Hsums. destruct (reviews_for userId st); [done|].
      cbn [length] in Hsums. lia.
    + unfold rows_of. cbn [tables]. rewrite lookup_alter_eq.
      by destruct (tables st !! "users").
    + intros r Hr. unfold rows_of in Hr. cbn [tables] in Hr. rewrite lookup_alter_eq in Hr.
      fold (rows_of "users" st) in Hr.
      assert (r ∈ rate_row userId mean <$> rows_of "users" st) as Hr'.
      { unfold rows_of. by destruct (tables st !! "users"). }
      apply list_elem_of_fmap in Hr' as (r0 & -> & _). unfold rate_row.
      destruct (drizzle.eq "id" (VNum userId) r0) eqn:E.
      * intros _. by rewrite assign_singleton, col_insert_eq.
      * intros Hid'. congruence.
    + intros Hratings. rewrite Hmean, Hratings. reflexivity.
Qed.

Lemma updateUserRating_spec_witness :
  reviews_for 1 example_store ≠ []
  ∧ rating_of <$> reviews_for 1 example_store = [5; 4; 3]%Z
  ∧ result_of (SQLiteStorage.updateUserRating 1) example_store = Returns (VNum 4).
Proof.
  split; [discriminate|]. split; [reflexivity|].
  destruct (updateUserRating_spec example_store 1 5) as [_ H].
  destruct H as (mean & _ & _ & Hresult & _ & _ & Hmean).
  - discriminate.
  - intros review Hreview. apply list_elem_of_In in Hreview.
    destruct Hreview as [<-|[<-|[<-|[]]]]; eexists; (split; [reflexivity|done]).
  - reflexivity.
  - eexists. split; [left|reflexivity].
  - rewrite Hresult, Hmean; reflexivity.
Defined.

(** ** Hard deletes *)

Section Delete.

Lemma db_delete_absent (table : string) (c : row → bool) (st : store) :
  List.filter c (rows_of table st) = [] →
  tables (store_after (db_delete table c) st) = tables st.
Proof.
  intros Hnone. unfold store_after, db_delete. cbn [snd tables record_statement with_tables].
  apply map_eq. intros k. rewrite lookup_alter. case_decide as Hk; [subst k|done].
  unfold rows_of in Hnone. destruct (tables st !! table) as [rows|]; [|done].
  cbn [default] in Hnone. cbn. f_equal.
  pose proof (filter_nil_not_elem c rows Hnone) as Hc. clear Hnone.
  induction rows as [|r rows IH]; [done|]. cbn [List.filter].
  rewrite (Hc r) by left. cbn [negb]. f_equal. apply IH.
  intros r' Hr'. apply Hc. by right.
Qed.

Lemma db_delete_rows (table : string) (c : row → bool) (st : store) :
  rows_of table (store_after (db_delete table c) st)
  = List.filter (fun r => negb (c r)) (rows_of table st).
Proof.
  unfold store_after, db_delete, rows_of. cbn [snd tables record_statement with_tables].
  rewrite lookup_alter_eq. by destruct (tables st !! table).
Qed.

End Delete.

(** C9. For every id, whether a row has it or not, the hard deletes return
    true; when no row has the id the tables are left as they were, so the
    boolean tells nothing about a removal. *)
Theorem delete_returns_true (st : store) (id : Z) :
  (result_of (SQLiteStorage.deleteTender id) st = Returns true
   ∧ result_of (SQLiteStorage.deleteEstimateItem id) st = Returns true
   ∧ result_of (SQLiteStorage.deleteCrew id) st = Returns true)
  ∧ (rows_of "tenders" (store_after (SQLiteStorage.deleteTender id) st)
     = List.filter (fun r => negb (drizzle.eq "id" (VNum id) r)) (rows_of "tenders" st)
     ∧ rows_of "estimateItems" (store_after (SQLiteStorage.deleteEstimateItem id) st)
       = List.filter (fun r => negb (drizzle.eq "id" (VNum id) r)) (rows_of "estimateItems" st)
     ∧ rows_of "crews" (store_after (SQLiteStorage.deleteCrew id) st)
       = List.filter (fun r => negb (drizzle.eq "id" (VNum id) r)) (rows_of "crews" st))
  ∧ (List.filter (drizzle.eq "id" (VNum id)) (rows_of "tenders" st) = [] →
     tables (store_after (SQLiteStorage.deleteTender id) st) = tables st)
  ∧ (List.filter (drizzle.eq "id" (VNum id)) (rows_of "estimateItems" st) = [] →
     tables (store_after (SQLiteStorage.deleteEstimateItem id) st) = tables st)
  ∧ (List.filter (drizzle.eq "id" (VNum id)) (rows_of "crews" st) = [] →
     tables (store_after (SQLiteStorage.deleteCrew id) st) = tables st).
Proof.
  split; [done|]. split.
  - split; [|split];
      apply (db_delete_rows _ (drizzle.eq "id" (VNum id)) st).
  - split; [|split]; intros H;
      apply (db_delete_absent _ (drizzle.eq "id" (VNum id)) st H).
Qed.

Lemma delete_returns_true_witness :
  List.filter (drizzle.eq "id" (VNum 99)) (rows_of "tenders" example_store) = []
  ∧ result_of (SQLiteStorage.deleteTender 99) example_store = Returns true
  ∧ tables (store_after (SQLiteStorage.deleteTender 99) example_store) = tables example_store.
Proof.
  destruct (delete_returns_true example_store 99) as ((Hresult & _) & _ & Habsent & _).
  split; [reflexivity|]. split; [exact Hresult|]. apply Habsent. reflexivity.
Defined.

(** ** The text of an update statement *)

Section StatementText.
Local Open Scope nat_scope.

Lemma append_cons (x : ascii) (a b : string) : String x a +:+ b = String x (a +:+ b).
Proof. reflexivity. Qed.

Lemma append_assoc (a b c : string) : (a +:+ b) +:+ c = a +:+ (b +:+ c).
Proof. induction a as [|x a IH]; [done|]. by rewrite !append_cons, IH. Qed.

Lemma append_nil_r (a : string) : a +:+ "" = a.
Proof. induction a as [|x a IH]; [done|]. by rewrite append_cons, IH. Qed.

Lemma length_append (a b : string) :
  String.length (a +:+ b) = String.length a + String.length b.
Proof.
  induction a as [|x a IH]; [done|]. rewrite append_cons. cbn [String.length]. by rewrite IH.
Qed.

Lemma occurs_append (c : ascii) (a b : string) :
  occurs c (a +:+ b) = occurs c a || occurs c b.
Proof.
  induction a as [|x a IH]; [done|]. rewrite append_cons. cbn [occurs].
  by rewrite IH, orb_assoc.
Qed.

Lemma substring_all (s : string) : substring 0 (String.length s) s = s.
Proof. induction s as [|x s IH]; [done|]. simpl. by rewrite IH. Qed.

Lemma substring_prefix (a r : string) : substring 0 (String.length a) (a +:+ r) = a.
Proof.
  induction a as [|x a IH]; [by destruct r|]. rewrite append_cons. simpl. by rewrite IH.
Qed.

Lemma substring_skip (a r : string) (n m : nat) :
  substring (String.length a + n) m (a +:+ r) = substring n m r.
Proof. induction a as [|x a IH]; [done|]. rewrite append_cons. simpl. apply IH. Qed.

Lemma prefix_append (sep rest : string) : String.prefix sep (sep +:+ rest) = true.
Proof.
  induction sep as [|x sep IH]; [by destruct rest|].
  rewrite append_cons. cbn [String.prefix]. destruct (ascii_dec x x); [done|congruence].
Qed.

(** The first occurrence of [sep] in [a ++ sep ++ rest] is the one after
    [a], when [sep] begins at no earlier place. *)
Lemma index_append (sep a rest : string) :
  (∀ p b x, a = p +:+ String x b →
            String.prefix sep (String x b +:+ sep +:+ rest) = false) →
  index 0 sep (a +:+ sep +:+ rest) = Some (String.length a).
Proof.
  induction a as [|x a IH]; intros Hfree.
  - change ("" +:+ sep +:+ rest) with (sep +:+ rest). cbn [String.length].
    pose proof (prefix_append sep rest) as Hp.
    destruct (sep +:+ rest) as [|y s] eqn:E.
    + destruct sep; [done|discriminate].
    + cbn [index]. by rewrite Hp.
  - rewrite append_cons. cbn [String.length index].
    pose proof (Hfree "" a x eq_refl) as Hhere. rewrite append_cons in Hhere.
    rewrite Hhere.
    rewrite IH; [done|]. intros p b y ->. apply (Hfree (String x p) b y). done.
Qed.

Lemma cut_append (sep a rest : string) :
  (∀ p b x, a = p +:+ String x b →
            String.prefix sep (String x b +:+ sep +:+ rest) = false) →
  sqliteDb.cut sep (a +:+ sep +:+ rest) = Some (a, rest).
Proof.
  intros Hfree. unfold sqliteDb.cut. rewrite index_append by done.
  rewrite substring_prefix. do 2 f_equal.
  rewrite substring_skip, !length_append.
  rewrite <- (Nat.add_0_r (String.length sep)) at 1. rewrite substring_skip.
  replace (String.length a + (String.length sep + String.length rest)
           - (String.length a + String.length sep)) with (String.length rest) by lia.
  apply substring_all.
Qed.

Lemma cut_here (sep rest : string) :
  sqliteDb.cut sep (sep +:+ rest) = Some ("", rest).
Proof. apply (cut_append sep ""). by intros [|??] ?? [=]. Qed.

(** [sep] begins nowhere in [a] when its first character does not occur
    there. *)
Lemma cut_first (c : ascii) (sep a rest : string) :
  occurs c a = false →
  sqliteDb.cut (String c sep) (a +:+ String c sep +:+ rest) = Some (a, rest).
Proof.
  intros Hc. apply cut_append. intros p b x ->.
  rewrite occurs_append in Hc. apply orb_false_iff in Hc as [_ Hc].
  cbn in Hc. apply orb_false_iff in Hc as [Hx _]. apply Ascii.eqb_neq in Hx.
  rewrite append_cons. cbn [String.prefix]. destruct (ascii_dec c x); [congruence|done].
Qed.

(** Nor when its second character does not occur there and is not its
    first. *)
Lemma cut_second (c d : ascii) (sep a rest : string) :
  occurs d a = false → c ≠ d →
  sqliteDb.cut (String c (String d sep)) (a +:+ String c (String d sep) +:+ rest)
  = Some (a, rest).
Proof.
  intros Hd Hcd. apply cut_append. intros p b x ->.
  rewrite occurs_append in Hd. apply orb_false_iff in Hd as [_ Hd].
  cbn in Hd. apply orb_false_iff in Hd as [_ Hb].
  rewrite append_cons. cbn [String.prefix]. destruct (ascii_dec c x); [|done].
  destruct b as [|y b].
  - change ("" +:+ ?s) with s. rewrite append_cons. cbn [String.prefix].
    destruct (ascii_dec d c); [congruence|done].
  - cbn in Hb. apply orb_false_iff in Hb as [Hy _]. apply Ascii.eqb_neq in Hy.
    rewrite append_cons. cbn [String.prefix].
    destruct (ascii_dec d y); [congruence|done].
Qed.

Lemma index_absent (c : ascii) (sep s : string) (n : nat) :
  occurs c s = false → index n (String c sep) s = None.
Proof.
  revert n. induction s as [|x s IH]; intros n Hc.
  - by destruct n.
  - cbn in Hc. apply orb_false_iff in Hc as [Hx Hs]. apply Ascii.eqb_neq in Hx.
    destruct n; cbn [index].
    + cbn [String.prefix]. destruct (ascii_dec c x); [congruence|].
      by rewrite IH.
    + by rewrite IH.
Qed.

Lemma cut_absent (c : ascii) (sep s : string) :
  occurs c s = false → sqliteDb.cut (String c sep) s = None.
Proof. intros H. unfold sqliteDb.cut. by rewrite index_absent. Qed.

(** The pieces of a text joined by [", "], none of which holds a comma. *)
Lemma split_concat (pieces : list string) (fuel : nat) :
  pieces ≠ [] → Forall (fun piece => occurs "," piece = false) pieces →
  length pieces ≤ S fuel →
  sqliteDb.split fuel ", " (String.concat ", " pieces) = pieces.
Proof.
  revert fuel. induction pieces as [|piece pieces IH]; intros fuel Hne Hfree Hfuel; [done|].
  apply Forall_cons in Hfree as [Hpiece Hfree].
  destruct pieces as [|next pieces].
  - cbn [String.concat]. destruct fuel; [done|]. cbn [sqliteDb.split].
    by rewrite cut_absent.
  - change (String.concat ", " (piece :: next :: pieces))
      with (piece +:+ ", " +:+ String.concat ", " (next :: pieces)).
    destruct fuel as [|fuel]; [cbn in Hfuel; lia|]. cbn [sqliteDb.split].
    rewrite cut_first by done. f_equal. apply IH; [done|done|cbn in *; lia].
Qed.

Lemma concat_snoc (sep : string) (pieces : list string) (last : string) :
  pieces ≠ [] →
  String.concat sep (pieces ++ [last]) = String.concat sep pieces +:+ sep +:+ last.
Proof.
  induction pieces as [|piece pieces IH]; intros Hne; [done|].
  destruct pieces as [|next pieces]; [done|].
  change (String.concat sep ((piece :: next :: pieces) ++ [last]))
    with (piece +:+ sep +:+ String.concat sep ((next :: pieces) ++ [last])).
  rewrite IH by done.
  change (String.concat sep (piece :: next :: pieces))
    with (piece +:+ sep +:+ String.concat sep (next :: pieces)).
  by rewrite !append_assoc.
Qed.

Lemma length_concat (sep : string) (pieces : list string) :
  String.length sep ≠ 0 → length pieces ≤ S (String.length (String.concat sep pieces)).
Proof.
  intros Hsep. induction pieces as [|piece pieces IH]; [cbn; lia|].
  destruct pieces as [|next pieces]; [cbn; lia|].
  change (String.concat sep (piece :: next :: pieces))
    with (piece +:+ sep +:+ String.concat sep (next :: pieces)).
  rewrite !length_append. cbn [length] in *. lia.
Qed.

Lemma occurs_concat (c : ascii) (sep : string) (pieces : list string) :
  occurs c sep = false → Forall (fun piece => occurs c piece = false) pieces →
  occurs c (String.concat sep pieces) = false.
Proof.
  intros Hsep. induction pieces as [|piece pieces IH]; intros Hfree; [done|].
  apply Forall_cons in Hfree as [Hpiece Hfree].
  destruct pieces as [|next pieces]; [done|].
  change (String.concat sep (piece :: next :: pieces))
    with (piece +:+ sep +:+ String.concat sep (next :: pieces)).
  rewrite !occurs_append, Hpiece, Hsep, IH; done.
Qed.

(** The characters of a name. *)
Lemma identifier_chars (s : string) :
  sqliteDb.is_identifier s = true →
  s ≠ "" ∧ forallb sqliteDb.is_identifier_char (list_ascii_of_string s) = true.
Proof.
  unfold sqliteDb.is_identifier. destruct s; [done|].
  intros [_ H]%andb_true_iff. done.
Qed.

Lemma occurs_identifier (c : ascii) (s : string) :
  sqliteDb.is_identifier_char c = false →
  forallb sqliteDb.is_identifier_char (list_ascii_of_string s) = true →
  occurs c s = false.
Proof.
  intros Hc. induction s as [|x s IH]; [done|]. cbn [list_ascii_of_string forallb occurs].
  intros [Hx Hs]%andb_true_iff. rewrite (IH Hs), orb_false_r.
  apply Ascii.eqb_neq. intros ->. congruence.
Qed.

Lemma occurs_no_upper (c : ascii) (s : string) :
  DatabaseUtils.is_upper c = true →
  forallb (fun a => negb (DatabaseUtils.is_upper a)) (list_ascii_of_string s) = true →
  occurs c s = false.
Proof.
  intros Hc. induction s as [|x s IH]; [done|]. cbn [list_ascii_of_string forallb occurs].
  intros [Hx Hs]%andb_true_iff. rewrite (IH Hs), orb_false_r.
  apply Ascii.eqb_neq. intros ->. by rewrite Hc in Hx.
Qed.

Lemma assignment_column_text (column : string) :
  sqliteDb.is_identifier column = true →
  sqliteDb.assignment_column (column +:+ " = ?") = Some column.
Proof.
  intros Hid. destruct (identifier_chars column Hid) as [_ Hchars].
  unfold sqliteDb.assignment_column.
  rewrite <- (append_nil_r (column +:+ " = ?")), append_assoc.
  rewrite cut_first by (by apply occurs_identifier). by rewrite Hid.
Qed.

(** The text of an update by id reads back as the update of its table and
    of its columns, in their order. *)
Lemma parse_update_text (table : string) (columns : list string) :
  sqliteDb.is_identifier table = true →
  columns ≠ [] → Forall (fun column => is_column column = true) columns →
  sqliteDb.parse_update (update_text table columns)
  = Some (sqliteDb.UpdateById table columns).
Proof.
  intros Htable Hne Hcolumns. unfold update_text, sqliteDb.parse_update.
  rewrite cut_here.
  destruct (identifier_chars table Htable) as [_ Htchars].
  rewrite cut_first by (by apply occurs_identifier).
  set (assignments := String.concat _ _).
  assert (Forall (fun piece => occurs "," piece = false ∧ occurs "W" piece = false)
                 ((fun column => column +:+ " = ?") <$> columns)) as Hpieces.
  { apply Forall_fmap. eapply Forall_impl; [exact Hcolumns|].
    intros column [Hid Hlow]%andb_true_iff. cbn.
    destruct (identifier_chars column Hid) as [_ Hchars].
    rewrite !occurs_append. split.
    - by rewrite occurs_identifier.
    - by rewrite (occurs_no_upper "W"). }
  rewrite <- (append_nil_r (assignments +:+ " WHERE id = ?")), append_assoc.
  rewrite cut_second; [| |done].
  2:{ apply occurs_concat; [done|]. eapply Forall_impl; [exact Hpieces|]. by intros ? [_ ?]. }
  unfold assignments at 2. rewrite split_concat.
  - rewrite mapM_fmap_Forall_Some; [by rewrite Htable|].
    eapply Forall_impl; [exact Hcolumns|].
    intros column [Hid _]%andb_true_iff. by apply assignment_column_text.
  - by destruct columns.
  - eapply Forall_impl; [exact Hpieces|]. by intros ? [? _].
  - apply length_concat. done.
Qed.


Lemma toLowerCase_not_upper (a : ascii) :
  DatabaseUtils.is_upper a = true →
  DatabaseUtils.is_upper (DatabaseUtils.toLowerCase a) = false.
Proof.
  intros Ha. unfold DatabaseUtils.toLowerCase. rewrite Ha.
  unfold DatabaseUtils.is_upper in *.
  apply andb_true_iff in Ha as [H1 H2]. apply N.leb_le in H1, H2.
  rewrite N_ascii_embedding by lia.
  apply andb_false_iff. right. apply N.leb_gt. lia.
Qed.

Lemma underscore_not_upper : DatabaseUtils.is_upper "_" = false.
Proof. reflexivity. Qed.

Lemma toLowerCase_identifier_char (a : ascii) :
  DatabaseUtils.is_upper a = true →
  sqliteDb.is_identifier_char (DatabaseUtils.toLowerCase a) = true.
Proof. destruct a as [[] [] [] [] [] [] [] []]; vm_compute; done. Qed.

Lemma camelToSnake_chars (key : string) :
  forallb sqliteDb.is_identifier_char (list_ascii_of_string key) = true →
  forallb sqliteDb.is_identifier_char
          (list_ascii_of_string (DatabaseUtils.camelToSnake key)) = true
  ∧ forallb (fun a => negb (DatabaseUtils.is_upper a))
            (list_ascii_of_string (DatabaseUtils.camelToSnake key)) = true.
Proof.
  induction key as [|a key IH]; [done|]. cbn [list_ascii_of_string forallb].
  intros [Ha Hkey]%andb_true_iff. destruct (IH Hkey) as [IH1 IH2].
  cbn [DatabaseUtils.camelToSnake]. destruct (DatabaseUtils.is_upper a) eqn:E.
  - cbn [list_ascii_of_string forallb].
    rewrite toLowerCase_identifier_char, toLowerCase_not_upper, IH1, IH2 by done. done.
  - cbn [list_ascii_of_string forallb]. by rewrite Ha, E, IH1, IH2.
Qed.

(** The column of a field name is a column name. *)
Lemma camelToSnake_column (key : string) :
  sqliteDb.is_identifier key = true → is_column (DatabaseUtils.camelToSnake key) = true.
Proof.
  intros Hid. unfold is_column.
  destruct key as [|a key]; [done|]. unfold sqliteDb.is_identifier in Hid.
  apply andb_true_iff in Hid as [Hdigit Hchars].
  destruct (camelToSnake_chars _ Hchars) as [H1 H2]. rewrite H2, andb_true_r.
  unfold sqliteDb.is_identifier.
  destruct (DatabaseUtils.camelToSnake (String a key)) as [|b name] eqn:E.
  - cbn [DatabaseUtils.camelToSnake] in E. by destruct (DatabaseUtils.is_upper a).
  - rewrite H1, andb_true_r. cbn [DatabaseUtils.camelToSnake] in E.
    destruct (DatabaseUtils.is_upper a); injection E as <- _; [done|done].
Qed.


(** With at least one field, the text of [buildUpdateQuery] is the update
    of the columns of the fields, in their order, and of [updated_at]. *)
Lemma query_text (tableName : string) (keys : list string) :
  keys ≠ [] →
  "UPDATE " +:+ tableName +:+ " SET "
  +:+ String.concat ", " ((fun key => DatabaseUtils.camelToSnake key +:+ " = ?") <$> keys)
  +:+ ", updated_at = ? WHERE id = ?"
  = update_text tableName ((DatabaseUtils.camelToSnake <$> keys) ++ ["updated_at"]).
Proof.
  intros Hne. unfold update_text.
  rewrite fmap_app.
  change ((fun column => column +:+ " = ?") <$> ["updated_at"]) with ["updated_at = ?"].
  rewrite concat_snoc by (by destruct keys).
  rewrite <- list_fmap_compose, !append_assoc. reflexivity.
Qed.








End StatementText.

(** ** Partial updates *)

Section Update.

Lemma db_update_by_id (table : string) (id : Z) (data : row) (st : store) :
  data ≠ ∅ →
  db_update table data (drizzle.eq "id" (VNum id)) st
  = (Returns (assign data <$> List.filter (drizzle.eq "id" (VNum id)) (rows_of table st)),
     {| tables := alter (fmap (update_row id data)) table (tables st);
        clock := clock st;
        journal := journal st ++ [Update table data] |}).
Proof. intros H. by rewrite db_update_fields. Qed.

Lemma rows_of_update (table : string) (f : row → row) (st : store) (c : Z)
      (j : list statement) :
  rows_of table {| tables := alter (fmap f) table (tables st); clock := c; journal := j |}
  = f <$> rows_of table st.
Proof.
  unfold rows_of. cbn [tables]. rewrite lookup_alter_eq.
  by destruct (tables st !! table).
Qed.


Lemma update_row_other (id : Z) (data r : row) :
  drizzle.eq "id" (VNum id) r = false → update_row id data r = r.
Proof. intros H. unfold update_row. by rewrite H. Qed.

Lemma update_row_same (id : Z) (data r : row) :
  drizzle.eq "id" (VNum id) r = true → update_row id data r = assign data r.
Proof. intros H. unfold update_row. by rewrite H. Qed.

Lemma update_row_frame (id : Z) (data r : row) (k : string) :
  data !! k = None → update_row id data r !! k = r !! k.
Proof.
  intros H. unfold update_row. case_match; [|done]. by apply assign_lookup_None.
Qed.


Lemma head_fmap_update (id : Z) (data : row) (found : list row) :
  (∀ r, In r found → drizzle.eq "id" (VNum id) r = true) →
  head (assign data <$> found) = update_row id data <$> head found.
Proof.
  intros H. destruct found as [|r found]; [done|].
  cbn. f_equal. symmetry. apply update_row_same. apply H. by left.
Qed.

Lemma filter_all (c : row → bool) (rows : list row) :
  ∀ r, In r (List.filter c rows) → c r = true.
Proof. intros r Hr. by apply filter_In in Hr as [_ ?]. Qed.

Lemma tender_payload_None (tenderData : row) (k : string) :
  tenderData !! k = None → tender_payload tenderData !! k = None.
Proof.
  intros H. unfold tender_payload. case_match eqn:Himg; [|done].
  destruct (decide (k = "images")) as [->|Hk].
  - unfold col in Himg. by rewrite H in Himg.
  - by rewrite lookup_insert_ne.
Qed.

Lemma tender_payload_Some (tenderData : row) (k : string) (v : value) :
  k ≠ "images" → tenderData !! k = Some v → tender_payload tenderData !! k = Some v.
Proof.
  intros Hk H. unfold tender_payload. case_match; [|done]. by rewrite lookup_insert_ne.
Qed.

Lemma tender_payload_fields (tenderData : row) :
  tenderData ≠ ∅ → tender_payload tenderData ≠ ∅.
Proof. intros H. unfold tender_payload. case_match; [apply insert_non_empty|done]. Qed.

Lemma updateTender_run (id : Z) (tenderData : row) (st : store) :
  tenderData ≠ ∅ →
  let data := tender_payload tenderData in
  SQLiteStorage.updateTender id tenderData st
  = (Returns ((fun r => hydrate (update_row id data r))
              <$> head (List.filter (drizzle.eq "id" (VNum id)) (rows_of "tenders" st))),
     {| tables := alter (fmap (update_row id data)) "tenders" (tables st);
        clock := clock st;
        journal := journal st ++ [Update "tenders" data] |}).
Proof.
  intros Hfields. cbv zeta. unfold SQLiteStorage.updateTender.
  fold (tender_payload tenderData).
  unfold bind. rewrite db_update_by_id by by apply tender_payload_fields.
  pose proof (filter_all (drizzle.eq "id" (VNum id)) (rows_of "tenders" st)) as Hall.
  destruct (List.filter _ (rows_of "tenders" st)) as [|r found]; [done|].
  cbn [fmap list_fmap head option_fmap option_map]. unfold lift.
  rewrite with_images_returns, update_row_same by (apply Hall; by left). done.
Qed.

Lemma updateDeliveryOrderStatus_run (id : Z) (status : jsstring) (st : store) :
  let data := status_payload status (VNum (clock st)) in
  SQLiteStorage.updateDeliveryOrderStatus id status st
  = (Returns (update_row id data
              <$> head (List.filter (drizzle.eq "id" (VNum id)) (rows_of "deliveryOrders" st))),
     {| tables := alter (fmap (update_row id data)) "deliveryOrders" (tables st);
        clock := (clock st + 1)%Z;
        journal := journal st ++ [Update "deliveryOrders" data] |}).
Proof.
  cbv zeta. unfold SQLiteStorage.updateDeliveryOrderStatus, bind, TimestampUtils.now.
  fold (status_payload status (VNum (clock st))).
  rewrite db_update_by_id by apply insert_non_empty. unfold ret.
  f_equal. f_equal. apply head_fmap_update. apply filter_all.
Qed.

Lemma rows_of_same_tables (t : string) (st : store) (c : Z) (j : list statement) :
  rows_of t {| tables := tables st; clock := c; journal := j |} = rows_of t st.
Proof. reflexivity. Qed.

Lemma with_project_lists_returns (r : row) :
  with_project_lists r = Returns (hydrate_project r).
Proof. unfold with_project_lists. rewrite !parseArray_returns. done. Qed.

Lemma stringify_field_other (k k' : string) (data : row) :
  k ≠ k' → stringify_field k data !! k' = data !! k'.
Proof.
  intros H. unfold stringify_field. case_match; [|done]. by rewrite lookup_insert_ne.
Qed.


Lemma stringify_field_fields (k : string) (data : row) :
  data ≠ ∅ → stringify_field k data ≠ ∅.
Proof. intros H. unfold stringify_field. case_match; [apply insert_non_empty|done]. Qed.

Lemma project_payload_updatedAt (projectData : row) (now : value) :
  project_payload projectData now !! "updatedAt" = Some now.
Proof.
  unfold project_payload. rewrite !stringify_field_other by done.
  apply lookup_insert_eq.
Qed.




Lemma payload_of_updatedAt (m : update_method) (data : row) (now : value) :
  stamps m = true → payload_of m data now !! "updatedAt" = Some now.
Proof.
  intros H. unfold payload_of. rewrite H.
  destruct m; try done; cbn [encoded foldr];
    rewrite ?stringify_field_other by done; apply lookup_insert_eq.
Qed.


End Update.




(** ** The timestamp of an update *)

Section Timestamp.

(** [updateTender] writes whatever [updatedAt] the payload carries. *)
Lemma updateTender_stores_payload_updatedAt (st : store) (id : Z) (tenderData r : row)
      (v : value) :
  tenderData !! "updatedAt" = Some v →
  r ∈ rows_of "tenders" (store_after (SQLiteStorage.updateTender id tenderData) st) →
  drizzle.eq "id" (VNum id) r = true →
  col r "updatedAt" = v.
Proof.
  intros Hv Hr Hid. unfold store_after in Hr.
  rewrite updateTender_run in Hr by (intros ->; by rewrite lookup_empty in Hv).
  cbn [snd] in Hr. rewrite rows_of_update in Hr.
  apply list_elem_of_fmap in Hr as (r0 & -> & _).
  unfold update_row in *. destruct (drizzle.eq "id" (VNum id) r0) eqn:E; [|congruence].
  unfold col. by rewrite (assign_lookup_Some _ _ _ v) by by apply tender_payload_Some.
Qed.

(** [updateTender] leaves [updatedAt] alone when the payload has none. *)
Lemma updateTender_does_not_stamp (st : store) (id : Z) (tenderData : row) :
  tenderData ≠ ∅ → tenderData !! "updatedAt" = None →
  (fun r => col r "updatedAt")
    <$> rows_of "tenders" (store_after (SQLiteStorage.updateTender id tenderData) st)
  = (fun r => col r "updatedAt") <$> rows_of "tenders" st.
Proof.
  intros Hfields Hv. unfold store_after. rewrite updateTender_run by done. cbn [snd].
  rewrite rows_of_update, <- list_fmap_compose. apply list_fmap_ext. intros ? r _.
  cbn. unfold col. by rewrite update_row_frame by by apply tender_payload_None.
Qed.

(** [updateEstimate] stamps the instant of the call over whatever the
    payload carries. *)
Lemma updateEstimate_stamps (st : store) (id : Z) (estimateData r : row) :
  r ∈ rows_of "estimates" (store_after (SQLiteStorage.updateEstimate id estimateData) st) →
  drizzle.eq "id" (VNum id) r = true →
  col r "updatedAt" = VNum (clock st).
Proof.
  intros Hr Hid. unfold store_after, SQLiteStorage.updateEstimate, bind,
    TimestampUtils.now in Hr.
  rewrite db_update_by_id in Hr by apply insert_non_empty.
  cbn [snd ret] in Hr. rewrite rows_of_update in Hr.
  apply list_elem_of_fmap in Hr as (r0 & -> & _).
  unfold update_row in *. destruct (drizzle.eq "id" (VNum id) r0) eqn:E; [|congruence].
  unfold col. by rewrite (assign_lookup_Some _ _ _ (VNum (clock st)))
    by apply lookup_insert_eq.
Qed.

(** [updateUser] with a payload that names no field (or [updatedAt] only)
    builds a statement whose [SET] list starts with a comma; the store
    refuses it, and nothing is written. *)
Lemma updateUser_without_fields (st : store) (id : Z) (userData : object) :
  Object_delete "updatedAt" userData = [] →
  result_of (SQLiteStorage.updateUser id userData) st = Throws SqliteError
  ∧ tables (store_after (SQLiteStorage.updateUser id userData) st) = tables st.
Proof.
  intros Hempty. unfold result_of, store_after, SQLiteStorage.updateUser.
  rewrite Hempty. split; reflexivity.
Qed.

End Timestamp.

(** C2 (where the code departs from it). On a tender last updated at 100, at
    the instant 500: [updateTender] with a payload that carries
    [updatedAt = 7] stores 7, and with a payload that carries none leaves
    100; the instant of the call is stored in neither case.  On the same
    payload [updateEstimate] stores 500, and so does [updateUser]. *)
Theorem updateTender_keeps_caller_updatedAt :
  let payload : row := list_to_map [("status", VStr (u "closed")); ("updatedAt", VNum 7)] in
  let status_only : row := list_to_map [("status", VStr (u "closed"))] in
  let user_payload : object := [("fullName", VStr (u "Anna B")); ("updatedAt", VNum 7)] in
  clock example_store = 500%Z
  ∧ first_row_field "tenders" "updatedAt" example_store = Some (VNum 100)
  ∧ first_row_field "tenders" "updatedAt"
      (store_after (SQLiteStorage.updateTender 1 payload) example_store) = Some (VNum 7)
  ∧ first_row_field "tenders" "status"
      (store_after (SQLiteStorage.updateTender 1 status_only) example_store)
    = Some (VStr (u "closed"))
  ∧ first_row_field "tenders" "updatedAt"
      (store_after (SQLiteStorage.updateTender 1 status_only) example_store)
    = Some (VNum 100)
  ∧ first_row_field "estimates" "updatedAt"
      (store_after (SQLiteStorage.updateEstimate 1 payload) example_store) = Some (VNum 500)
  ∧ first_row_field "users" "updated_at"
      (store_after (SQLiteStorage.updateUser 1 user_payload) example_store)
    = Some (VNum 500)
  ∧ first_row_field "users" "full_name"
      (store_after (SQLiteStorage.updateUser 1 user_payload) example_store)
    = Some (VStr (u "Anna B")).
Proof. vm_compute. repeat split; reflexivity. Qed.

(** ** Characters and code units *)

Section Characters.



















End Characters.

(** ** Filtered listings *)

Section Filters.









Lemma sql_eq_num (v : value) (z : Z) : sql_eq v (VNum z) = true ↔ v = VNum z.
Proof.
  destruct v; cbn; try (split; [done|discriminate]).
  rewrite Z.eqb_eq. split; congruence.
Qed.


Lemma truthy_str (s : jsstring) : truthy (VStr s) = true ↔ s ≠ [].
Proof. cbn. rewrite negb_true_iff, bool_decide_eq_false. done. Qed.





(** The rows a filtered listing returns. *)
Lemma filtered_select_result (table : string) (conditions : option (list (row → bool)))
      (st : store) :
  result_of (filtered_select table conditions) st
  = Returns (selected (default [] conditions) (rows_of table st)).
Proof.
  unfold result_of, filtered_select, selected.
  destruct conditions as [[|c cs]|]; reflexivity.
Qed.

Lemma filtered_select_store (table : string) (conditions : option (list (row → bool)))
      (st : store) :
  store_after (filtered_select table conditions) st = record_statement (Select table) st.
Proof.
  unfold store_after, filtered_select.
  destruct conditions as [[|c cs]|]; reflexivity.
Qed.

Lemma selected_nil (rows : list row) : selected [] rows = rows.
Proof.
  unfold selected. induction rows as [|r rows IH]; [done|].
  cbn. by rewrite IH.
Qed.


Lemma getTenders_result (filters : option TenderFilters.t) (st : store) :
  result_of (SQLiteStorage.getTenders filters) st
  = Returns (hydrate <$> selected (default [] (TenderFilters.conditions <$> filters))
                           (rows_of "tenders" st)).
Proof.
  unfold result_of, SQLiteStorage.getTenders, bind.
  pose proof (filtered_select_result "tenders" (TenderFilters.conditions <$> filters) st)
    as Hres.
  unfold result_of in Hres.
  destruct (filtered_select "tenders" (TenderFilters.conditions <$> filters) st)
    as [o st'] eqn:E.
  cbn [fst] in Hres. subst o. unfold lift. cbn [fst].
  by rewrite (map_outcome_returns with_images hydrate) by apply with_images_returns.
Qed.


End Filters.

Section TenderFilters.







End TenderFilters.




(** ** Tenders by profession *)

Section Professions.


Lemma filter_true {A} (l : list A) : List.filter (fun _ => true) l = l.
Proof. induction l as [|a l IH]; [done|]. cbn [List.filter]. by rewrite IH. Qed.



End Professions.




(** ** Criteria that are given but falsy *)

Section Falsy.




End Falsy.



(** * Further properties of the code *)

(** ** Column names *)

Section ColumnNames.

Lemma toLowerCase_inj (a b : ascii) :
  DatabaseUtils.is_upper a = true → DatabaseUtils.is_upper b = true →
  DatabaseUtils.toLowerCase a = DatabaseUtils.toLowerCase b → a = b.
Proof.
  intros Ha Hb. unfold DatabaseUtils.toLowerCase. rewrite Ha, Hb.
  unfold DatabaseUtils.is_upper in *.
  apply andb_true_iff in Ha as [Ha1 Ha2]. apply N.leb_le in Ha1, Ha2.
  apply andb_true_iff in Hb as [Hb1 Hb2]. apply N.leb_le in Hb1, Hb2.
  intros H. apply (f_equal N_of_ascii) in H.
  rewrite !N_ascii_embedding in H by lia.
  rewrite <- (ascii_N_embedding a), <- (ascii_N_embedding b). f_equal. lia.
Qed.

End ColumnNames.

(** X1. The column name [camelToSnake] gives holds no upper-case letter; a
    name without upper-case letters is its own column name; so mapping a
    column name again changes nothing. *)
Theorem camelToSnake_lowercase (str : string) :
  no_upper (DatabaseUtils.camelToSnake str) = true
  ∧ (no_upper str = true → DatabaseUtils.camelToSnake str = str)
  ∧ DatabaseUtils.camelToSnake (DatabaseUtils.camelToSnake str)
    = DatabaseUtils.camelToSnake str.
Proof.
  assert (∀ s, no_upper (DatabaseUtils.camelToSnake s) = true) as Hlower.
  { induction s as [|a s IH]; [done|]. cbn [DatabaseUtils.camelToSnake].
    destruct (DatabaseUtils.is_upper a) eqn:Ha.
    - unfold no_upper in *. cbn [list_ascii_of_string forallb].
      rewrite underscore_not_upper, toLowerCase_not_upper by done. done.
    - unfold no_upper in *. cbn [list_ascii_of_string forallb]. by rewrite Ha. }
  assert (∀ s, no_upper s = true → DatabaseUtils.camelToSnake s = s) as Hid.
  { induction s as [|a s IH]; [done|]. unfold no_upper. cbn [list_ascii_of_string forallb].
    intros [Ha Hs]%andb_true_iff. apply negb_true_iff in Ha.
    cbn [DatabaseUtils.camelToSnake]. rewrite Ha. f_equal. by apply IH. }
  split; [apply Hlower|]. split; [apply Hid|]. apply Hid, Hlower.
Qed.

Lemma camelToSnake_lowercase_witness :
  no_upper "full_name" = true
  ∧ DatabaseUtils.camelToSnake "full_name" = "full_name"%string.
Proof.
  split; [reflexivity|].
  destruct (camelToSnake_lowercase "full_name") as (_ & Hid & _).
  apply Hid. reflexivity.
Defined.

(** X2. Two field names without underscores that get the same column name
    are the same name: on such names [camelToSnake] loses nothing. *)
Theorem camelToSnake_injective (s t : string) :
  no_underscore s = true → no_underscore t = true →
  DatabaseUtils.camelToSnake s = DatabaseUtils.camelToSnake t → s = t.
Proof.
  revert t. induction s as [|a s IH]; intros t Hs Ht H.
  - destruct t as [|b t]; [done|]. cbn in H. by destruct (DatabaseUtils.is_upper b).
  - destruct t as [|b t].
    { cbn in H. by destruct (DatabaseUtils.is_upper a). }
    unfold no_underscore in Hs, Ht. cbn [list_ascii_of_string forallb] in Hs, Ht.
    apply andb_true_iff in Hs as [Ha Hs]. apply andb_true_iff in Ht as [Hb Ht].
    apply negb_true_iff, Ascii.eqb_neq in Ha. apply negb_true_iff, Ascii.eqb_neq in Hb.
    cbn [DatabaseUtils.camelToSnake] in H.
    destruct (DatabaseUtils.is_upper a) eqn:Ua, (DatabaseUtils.is_upper b) eqn:Ub.
    + injection H as Hlow Hrest. f_equal; [by apply toLowerCase_inj|by apply IH].
    + injection H as Hb' _. congruence.
    + injection H as Ha' _. congruence.
    + injection H as -> Hrest. f_equal. by apply IH.
Qed.

Lemma camelToSnake_injective_witness :
  no_underscore "fullName" = true
  ∧ DatabaseUtils.camelToSnake "fullName" = "full_name"%string
  ∧ (∀ t, no_underscore t = true →
          DatabaseUtils.camelToSnake t = "full_name"%string → t = "fullName"%string).
Proof.
  split; [reflexivity|]. split; [reflexivity|].
  intros t Ht H. symmetry.
  apply (camelToSnake_injective "fullName" t); [reflexivity|exact Ht|].
  rewrite H. reflexivity.
Defined.

(** ** Decoding legacy and bracketed texts *)

Section Legacy.

Lemma includes_nil_false (needle : jsstring) : needle ≠ [] → includes needle [] = false.
Proof. intros H. destruct needle; done. Qed.

Lemma isUrl_nonempty (s : jsstring) : JsonUtils.isUrl s = true → s ≠ [].
Proof. intros H ->. discriminate H. Qed.

Lemma trim_nil : trim [] = [].
Proof. reflexivity. Qed.

Lemma trim_nonempty (s : jsstring) : trim s ≠ [] → s ≠ [].
Proof. intros H ->. by apply H. Qed.

Lemma truthy_text (s : jsstring) : s ≠ [] → truthy (VStr s) = true.
Proof. intros H. cbn. by rewrite bool_decide_eq_false_2. Qed.

(** A text that opens with a bracket parses to an array, if it parses. *)
Lemma parse_value_bracket (fuel : nat) (r : jsstring) (v : json) (rest : jsstring) :
  parse_value fuel (91 :: r) = Ok v rest → ∃ elements, v = JArr elements.
Proof.
  destruct fuel as [|fuel]; [done|]. cbn [parse_value skip_ws].
  change (is_json_space 91) with false. cbn match.
  change (91 =? 91) with true. cbn match.
  intros H. repeat case_match; simplify_eq; eauto.
Qed.

Lemma JSON_parse_bracket (text : jsstring) (j : json) :
  startsWith (u "[") text = true → JSON_parse text = Returns j →
  ∃ elements, j = JArr elements.
Proof.
  intros [t ->]%startsWith_spec. unfold JSON_parse.
  destruct (parse_value _ _) as [v rest| |] eqn:E; [|done|done].
  apply parse_value_bracket in E as [elements ->].
  destruct (skip_ws rest); [|done]. intros [= <-]. eauto.
Qed.

End Legacy.

(** X3. A stored text whose trimmed form does not open with a bracket and
    contains [http] or [www] decodes to the list of that one trimmed text.
    A text that opens with a bracket, does not parse, and contains [http]
    or [www] decodes to the list of the text as stored, not trimmed. *)
Theorem parseArray_bare_url (s : jsstring) :
  (startsWith (u "[") (trim s) = false → JsonUtils.isUrl (trim s) = true →
   JsonUtils.parseArray (VStr s) = Returns (JArr [JStr (trim s)]))
  ∧ (startsWith (u "[") (trim s) = true → JSON_parse (trim s) = Throws SyntaxError →
     JsonUtils.isUrl s = true →
     JsonUtils.parseArray (VStr s) = Returns (JArr [JStr s])).
Proof.
  split.
  - intros Hbracket Hurl. unfold JsonUtils.parseArray.
    rewrite truthy_text by (by apply trim_nonempty, isUrl_nonempty).
    cbn [negb]. by rewrite Hbracket, Hurl.
  - intros Hbracket Hparse Hurl. unfold JsonUtils.parseArray.
    rewrite truthy_text by (by apply isUrl_nonempty).
    cbn [negb]. by rewrite Hbracket, Hparse, Hurl.
Qed.

Lemma parseArray_bare_url_witness :
  let url := u " https://example.com/a.png " in
  let broken := u " [https://example.com/a.png" in
  JsonUtils.parseArray (VStr url) = Returns (JArr [JStr (u "https://example.com/a.png")])
  ∧ JsonUtils.parseArray (VStr broken) = Returns (JArr [JStr broken]).
Proof.
  intros url broken.
  destruct (parseArray_bare_url url) as [Hurl _].
  destruct (parseArray_bare_url broken) as [_ Hbroken].
  split.
  - rewrite Hurl; reflexivity.
  - apply Hbroken; reflexivity.
Defined.

(** X4. [parseArray] returns a list for every stored text whose trimmed
    form opens with a bracket, contains [http] or [www], or does not
    parse; only a text that is a JSON value of another kind decodes to
    something else. *)
Theorem parseArray_list (s : jsstring) :
  startsWith (u "[") (trim s) = true
  ∨ JsonUtils.isUrl (trim s) = true
  ∨ JSON_parse (trim s) = Throws SyntaxError →
  ∃ elements, JsonUtils.parseArray (VStr s) = Returns (JArr elements).
Proof.
  intros H. unfold JsonUtils.parseArray.
  destruct (negb (truthy (VStr s))); [eauto|].
  destruct (startsWith (u "[") (trim s)) eqn:Hbracket.
  - destruct (JSON_parse (trim s)) as [j|e] eqn:Hparse.
    + destruct (JSON_parse_bracket _ _ Hbracket Hparse) as [elements ->]. cbn. eauto.
    + cbn. destruct (JsonUtils.isUrl s); eauto.
  - destruct (JsonUtils.isUrl (trim s)) eqn:Hurl; [cbn; eauto|].
    destruct H as [H|[H|H]]; [done|done|].
    rewrite H. cbn. destruct (JsonUtils.isUrl s); eauto.
Qed.

Lemma parseArray_list_witness :
  ∃ elements, JsonUtils.parseArray (VStr (u "[1, 2")) = Returns (JArr elements).
Proof. apply parseArray_list. left. reflexivity. Defined.

(** What is left: a text that is a JSON value of another kind is handed
    back as that value. *)
Lemma parseArray_other_value :
  JsonUtils.parseArray (VStr (u "42")) = Returns (JNum (u "42")).
Proof. reflexivity. Qed.

(** ** Reading a tender back *)

Section TenderReads.

Lemma decode_stringify_strings (L : list jsstring) :
  decode (VStr (JsonUtils.stringify (VList (string_array L)))) = JArr (string_array L).
Proof.
  unfold decode, JsonUtils.stringify. cbn [truthy to_json].
  pose proof (JSON_parse_stringify_strings L) as Hparse.
  cbn [JSON_stringify] in *.
  set (m := join_with [44] (JSON_stringify <$> string_array L)) in *.
  unfold JsonUtils.parseArray. cbn [truthy negb].
  rewrite bool_decide_eq_false_2 by done. cbn [negb].
  rewrite trim_bracketed. cbn [startsWith u fmap list_fmap list_ascii_of_string].
  change (N_of_ascii "[" =? 91) with true. cbn [andb].
  by rewrite Hparse.
Qed.

Lemma col_lookup (r : row) (k : string) (v : value) : r !! k = Some v → col r k = v.
Proof. intros H. unfold col. by rewrite H. Qed.

Lemma getTender_run (id : Z) (st : store) :
  SQLiteStorage.getTender id st
  = (Returns (hydrate <$> head (List.filter (drizzle.eq "id" (VNum id)) (rows_of "tenders" st))),
     record_statement (Select "tenders") st).
Proof.
  unfold SQLiteStorage.getTender, bind, db_select.
  destruct (List.filter _ (rows_of "tenders" st)) as [|tender found]; [done|].
  unfold lift. by rewrite with_images_returns.
Qed.

Lemma update_row_id (id : Z) (data r : row) (v : value) :
  data !! "id" = None →
  drizzle.eq "id" v (update_row id data r) = drizzle.eq "id" v r.
Proof.
  intros H. unfold drizzle.eq, col. by rewrite update_row_frame.
Qed.

Lemma head_fmap {A B} (f : A → B) (l : list A) : head (f <$> l) = f <$> head l.
Proof. by destruct l. Qed.

Lemma filter_filter_implied (c d : row → bool) (rows : list row) :
  (∀ r, c r = true → d r = true) →
  List.filter c (List.filter d rows) = List.filter c rows.
Proof.
  intros H. induction rows as [|r rows IH]; [done|]. cbn [List.filter].
  destruct (d r) eqn:Hd.
  - cbn [List.filter]. destruct (c r); by rewrite IH.
  - destruct (c r) eqn:Hc; [|done]. apply H in Hc. congruence.
Qed.

Lemma filter_filter_excluded (c d : row → bool) (rows : list row) :
  (∀ r, c r = true → d r = false) →
  List.filter c (List.filter d rows) = [].
Proof.
  intros H. induction rows as [|r rows IH]; [done|]. cbn [List.filter].
  destruct (d r) eqn:Hd; [|done].
  cbn [List.filter]. destruct (c r) eqn:Hc; [|done]. apply H in Hc. congruence.
Qed.

Lemma eq_id_distinct (id other : Z) (r : row) :
  other ≠ id → drizzle.eq "id" (VNum other) r = true →
  drizzle.eq "id" (VNum id) r = false.
Proof.
  intros Hne H. unfold drizzle.eq in *. apply sql_eq_num in H. rewrite H.
  cbn. by apply Z.eqb_neq.
Qed.

End TenderReads.

(** X5. For a payload that names at least one field and not [id],
    [getTender] right after [updateTender] returns what [updateTender]
    returned: the updated record with its images decoded, or undefined
    when no tender has the id. *)
Theorem getTender_after_updateTender (st : store) (id : Z) (tenderData : row) :
  tenderData ≠ ∅ → tenderData !! "id" = None →
  result_of (SQLiteStorage.getTender id)
            (store_after (SQLiteStorage.updateTender id tenderData) st)
  = result_of (SQLiteStorage.updateTender id tenderData) st.
Proof.
  intros Hfields Hid. unfold result_of, store_after.
  rewrite updateTender_run, getTender_run by done. cbn [fst snd].
  rewrite rows_of_update.
  rewrite filter_fmap_stable
    by (intros r; by apply update_row_id, tender_payload_None).
  rewrite head_fmap. by destruct (head _).
Qed.

Lemma getTender_after_updateTender_witness :
  let payload : row := {["status" := VStr (u "closed")]} in
  payload ≠ ∅
  ∧ payload !! "id" = None
  ∧ result_of (SQLiteStorage.getTender 1)
              (store_after (SQLiteStorage.updateTender 1 payload) example_store)
    = result_of (SQLiteStorage.updateTender 1 payload) example_store.
Proof.
  intros payload. split; [apply map_non_empty_singleton|]. split; [reflexivity|].
  apply getTender_after_updateTender; [apply map_non_empty_singleton|reflexivity].
Defined.

(** X6. When [updateTender] is given a list of strings as [images] and a
    tender has the id, the store holds the list as JSON text and the
    returned record carries the list as it was given. *)
Theorem updateTender_images (st : store) (id : Z) (tenderData old : row)
        (L : list jsstring) :
  tenderData !! "images" = Some (VList (string_array L)) →
  head (List.filter (drizzle.eq "id" (VNum id)) (rows_of "tenders" st)) = Some old →
  let st' := store_after (SQLiteStorage.updateTender id tenderData) st in
  (∃ returned,
     result_of (SQLiteStorage.updateTender id tenderData) st = Returns (Some returned)
     ∧ returned !! "images" = Some (Decoded (JArr (string_array L))))
  ∧ (∀ r, r ∈ rows_of "tenders" st' → drizzle.eq "id" (VNum id) r = true →
          col r "images" = VStr (JSON_stringify (JArr (string_array L)))).
Proof.
  intros Himages Hold. cbv zeta. unfold result_of, store_after.
  rewrite updateTender_run by (intros ->; by rewrite lookup_empty in Himages).
  cbn [fst snd]. rewrite Hold.
  assert (tender_payload tenderData !! "images"
          = Some (VStr (JSON_stringify (JArr (string_array L))))) as Hpayload.
  { unfold tender_payload. rewrite (col_lookup _ _ _ Himages). cbn [truthy].
    by rewrite lookup_insert_eq. }
  destruct (head_filter_Some _ _ _ Hold) as [Hid _].
  split.
  - eexists. split; [reflexivity|].
    unfold hydrate. rewrite lookup_insert_eq. do 2 f_equal.
    rewrite update_row_same by done.
    rewrite (col_lookup _ _ _ (assign_lookup_Some _ _ _ _ Hpayload)).
    apply (decode_stringify_strings L).
  - intros r Hr Hr_id. rewrite rows_of_update in Hr.
    apply list_elem_of_fmap in Hr as (r0 & -> & _).
    unfold update_row in *. destruct (drizzle.eq "id" (VNum id) r0) eqn:E; [|congruence].
    apply col_lookup. by apply assign_lookup_Some.
Qed.

Lemma updateTender_images_witness :
  let L := [u "a.png"; u "b.png"] in
  let payload : row := {["images" := VList (string_array L)]} in
  ∃ returned,
    result_of (SQLiteStorage.updateTender 1 payload) example_store = Returns (Some returned)
    ∧ returned !! "images" = Some (Decoded (JArr (string_array L))).
Proof.
  intros L payload.
  assert (∃ old, head (List.filter (drizzle.eq "id" (VNum 1))
                                   (rows_of "tenders" example_store)) = Some old)
    as [old Hold] by (eexists; reflexivity).
  destruct (updateTender_images example_store 1 payload old L) as [Hreturned _].
  - reflexivity.
  - exact Hold.
  - exact Hreturned.
Defined.

(** X7. After [deleteTender] no tender has the id: [getTender] returns
    undefined and the unfiltered listing holds the other tenders, in their
    order; the lookup of any other id gives what it gave before. *)
Theorem deleteTender_then_read (st : store) (id : Z) :
  let st' := store_after (SQLiteStorage.deleteTender id) st in
  result_of (SQLiteStorage.getTender id) st' = Returns None
  ∧ result_of (SQLiteStorage.getTenders None) st'
    = Returns (hydrate <$> List.filter (fun r => negb (drizzle.eq "id" (VNum id) r))
                                       (rows_of "tenders" st))
  ∧ (∀ other, other ≠ id →
              result_of (SQLiteStorage.getTender other) st'
              = result_of (SQLiteStorage.getTender other) st).
Proof.
  cbv zeta.
  assert (rows_of "tenders" (store_after (SQLiteStorage.deleteTender id) st)
          = List.filter (fun r => negb (drizzle.eq "id" (VNum id) r)) (rows_of "tenders" st))
    as Hrows by apply (db_delete_rows _ (drizzle.eq "id" (VNum id)) st).
  unfold result_of. rewrite !getTender_run. cbn [fst].
  fold (result_of (SQLiteStorage.getTenders None)
                  (store_after (SQLiteStorage.deleteTender id) st)).
  rewrite getTenders_result. cbn [fmap option_fmap option_map default].
  rewrite selected_nil, Hrows.
  split; [|split; [done|]].
  - rewrite filter_filter_excluded; [done|].
    intros r Hr. by rewrite Hr.
  - intros other Hother. rewrite !getTender_run. cbn [fst]. rewrite Hrows.
    rewrite filter_filter_implied; [done|].
    intros r Hr. by rewrite (eq_id_distinct id other r).
Qed.

Lemma deleteTender_then_read_witness :
  result_of (SQLiteStorage.getTender 1) example_store ≠ Returns None
  ∧ result_of (SQLiteStorage.getTender 1)
              (store_after (SQLiteStorage.deleteTender 2) example_store)
    = result_of (SQLiteStorage.getTender 1) example_store
  ∧ result_of (SQLiteStorage.getTender 1)
              (store_after (SQLiteStorage.deleteTender 1) example_store)
    = Returns None.
Proof.
  destruct (deleteTender_then_read example_store 2) as (_ & _ & Hother).
  destruct (deleteTender_then_read example_store 1) as (Hgone & _).
  split; [intros H; vm_compute in H; discriminate H|].
  split; [apply Hother; discriminate|exact Hgone].
Defined.

(** ** Soft delete of a delivery option *)

Section SoftDelete.

Lemma deleteDeliveryOption_run (id : Z) (st : store) :
  SQLiteStorage.deleteDeliveryOption id st
  = (Returns true,
     {| tables := alter (fmap (deactivate_row id)) "deliveryOptions" (tables st);
        clock := clock st;
        journal := journal st ++ [Update "deliveryOptions" {["isActive" := VBool false]}] |}).
Proof. reflexivity. Qed.

Lemma deactivate_row_id (id : Z) (v : value) (r : row) :
  drizzle.eq "id" v (deactivate_row id r) = drizzle.eq "id" v r.
Proof. by apply update_row_id. Qed.

Lemma deactivate_row_active (id : Z) (r : row) :
  drizzle.eq "isActive" (VBool true) (deactivate_row id r)
  = drizzle.eq "isActive" (VBool true) r && negb (drizzle.eq "id" (VNum id) r).
Proof.
  unfold deactivate_row, update_row. destruct (drizzle.eq "id" (VNum id) r).
  - rewrite assign_singleton. unfold drizzle.eq at 1. rewrite col_insert_eq.
    cbn. by rewrite andb_false_r.
  - by rewrite andb_true_r.
Qed.

Lemma filter_fmap_and (c d : row → bool) (f : row → row) (rows : list row) :
  (∀ r, c (f r) = c r && d r) → (∀ r, d r = true → f r = r) →
  List.filter c (f <$> rows) = List.filter d (List.filter c rows).
Proof.
  intros Hc Hf. induction rows as [|r rows IH]; [done|].
  cbn [fmap list_fmap List.filter]. rewrite Hc.
  destruct (c r) eqn:E1; cbn [andb List.filter]; [|apply IH].
  destruct (d r) eqn:E2; [|apply IH]. rewrite (Hf r E2). f_equal. apply IH.
Qed.

End SoftDelete.

(** X8. [deleteDeliveryOption] removes no row: it returns true, the table
    keeps its rows with their ids, the option is dropped from the listing
    of active options while the other active options stay listed in their
    order, and the lookup by id still returns the option, now inactive. *)
Theorem deleteDeliveryOption_soft (st : store) (id : Z) :
  let st' := store_after (SQLiteStorage.deleteDeliveryOption id) st in
  let options := rows_of "deliveryOptions" st in
  let active := List.filter (drizzle.eq "isActive" (VBool true)) options in
  result_of (SQLiteStorage.deleteDeliveryOption id) st = Returns true
  ∧ (fun r => col r "id") <$> rows_of "deliveryOptions" st' = (fun r => col r "id") <$> options
  ∧ result_of SQLiteStorage.getDeliveryOptions st'
    = Returns (List.filter (fun r => negb (drizzle.eq "id" (VNum id) r)) active)
  ∧ result_of (SQLiteStorage.getDeliveryOption id) st'
    = Returns ((fun r => <["isActive" := VBool false]> r)
               <$> head (List.filter (drizzle.eq "id" (VNum id)) options)).
Proof.
  cbv zeta. unfold result_of, store_after. rewrite deleteDeliveryOption_run. cbn [fst snd].
  split; [done|]. split; [|split].
  - rewrite rows_of_update, <- list_fmap_compose. apply list_fmap_ext. intros ? r _.
    cbn. unfold col, deactivate_row. by rewrite update_row_frame.
  - unfold SQLiteStorage.getDeliveryOptions, db_select. cbn [fst].
    rewrite rows_of_update. f_equal.
    apply filter_fmap_and; [apply deactivate_row_active|].
    intros r Hr. apply update_row_other. by apply negb_true_iff.
  - unfold SQLiteStorage.getDeliveryOption, bind, db_select, ret. cbn [fst].
    rewrite rows_of_update. f_equal.
    rewrite filter_fmap_stable by apply deactivate_row_id.
    pose proof (filter_all (drizzle.eq "id" (VNum id)) (rows_of "deliveryOptions" st)) as Hall.
    destruct (List.filter _ (rows_of "deliveryOptions" st)) as [|r found]; [done|].
    cbn. f_equal. unfold deactivate_row.
    rewrite update_row_same by (apply Hall; by left). apply assign_singleton.
Qed.

Lemma deleteDeliveryOption_soft_witness :
  let st' := store_after (SQLiteStorage.deleteDeliveryOption 1) second_store in
  (∃ kept, result_of SQLiteStorage.getDeliveryOptions st' = Returns [kept]
           ∧ col kept "id" = VNum 2)
  ∧ (∃ option, result_of (SQLiteStorage.getDeliveryOption 1) st' = Returns (Some option)
               ∧ col option "isActive" = VBool false).
Proof.
  destruct (deleteDeliveryOption_soft second_store 1) as (_ & _ & Hactive & Hoption).
  split.
  - eexists. split; [rewrite Hactive; reflexivity|reflexivity].
  - eexists. split; [rewrite Hoption; reflexivity|reflexivity].
Defined.

(** ** Accepting a second bid *)

Section SecondBid.

Lemma accept_row_any_id (bidId : Z) (v : value) (r : row) :
  drizzle.eq "id" v (accept_row bidId r) = drizzle.eq "id" v r.
Proof. unfold accept_row. by apply (update_row_id bidId). Qed.

Lemma accept_row_col (bidId : Z) (k : string) (r : row) :
  k ≠ "isAccepted" → col (accept_row bidId r) k = col r k.
Proof.
  intros Hk. unfold accept_row. case_match; [|done].
  by rewrite assign_singleton, col_insert_ne.
Qed.

Lemma accept_row_keeps_flag (bidId : Z) (r : row) :
  col r "isAccepted" = VBool true → col (accept_row bidId r) "isAccepted" = VBool true.
Proof.
  intros H. unfold accept_row. case_match; [|done].
  by rewrite assign_singleton, col_insert_eq.
Qed.

Lemma getTenderBid_run (id : Z) (st : store) :
  SQLiteStorage.getTenderBid id st
  = (Returns (head (List.filter (drizzle.eq "id" (VNum id)) (rows_of "tenderBids" st))),
     record_statement (Select "tenderBids") st).
Proof. reflexivity. Qed.

Lemma bids_after_accept (st : store) (bidId : Z) (bid : row) :
  head (List.filter (drizzle.eq "id" (VNum bidId)) (rows_of "tenderBids" st)) = Some bid →
  rows_of "tenderBids" (store_after (SQLiteStorage.acceptTenderBid bidId) st)
  = accept_row bidId <$> rows_of "tenderBids" st.
Proof.
  intros Hbid. unfold store_after. rewrite (acceptTenderBid_found st bidId bid Hbid).
  cbn [snd]. unfold rows_of. cbn [tables].
  rewrite lookup_alter_eq, lookup_alter_ne by done.
  by destruct (tables st !! "tenderBids").
Qed.

End SecondBid.

(** X9. [acceptTenderBid] never clears a flag.  After a first bid and then
    a second bid are accepted, of the same tender or not, both are
    returned as accepted: the code does not keep a tender to one accepted
    bid. *)
Theorem acceptTenderBid_twice (st : store) (first second : Z) (bid1 bid2 : row) :
  first ≠ second →
  head (List.filter (drizzle.eq "id" (VNum first)) (rows_of "tenderBids" st)) = Some bid1 →
  head (List.filter (drizzle.eq "id" (VNum second)) (rows_of "tenderBids" st)) = Some bid2 →
  let st1 := store_after (SQLiteStorage.acceptTenderBid first) st in
  let st2 := store_after (SQLiteStorage.acceptTenderBid second) st1 in
  result_of (SQLiteStorage.getTenderBid first) st2
  = Returns (Some (<["isAccepted" := VBool true]> bid1))
  ∧ result_of (SQLiteStorage.getTenderBid second) st2
    = Returns (Some (<["isAccepted" := VBool true]> bid2))
  ∧ (∀ i r, rows_of "tenderBids" st !! i = Some r → col r "isAccepted" = VBool true →
            ∃ r', rows_of "tenderBids" st2 !! i = Some r'
                  ∧ col r' "id" = col r "id" ∧ col r' "isAccepted" = VBool true).
Proof.
  intros Hne Hbid1 Hbid2. cbv zeta.
  pose proof (bids_after_accept st first bid1 Hbid1) as Hrows1.
  set (st1 := store_after (SQLiteStorage.acceptTenderBid first) st) in *.
  assert (head (List.filter (drizzle.eq "id" (VNum second)) (rows_of "tenderBids" st1))
          = Some (accept_row first bid2)) as Hbid2'.
  { rewrite Hrows1, filter_fmap_stable by apply accept_row_any_id.
    by rewrite head_fmap, Hbid2. }
  pose proof (bids_after_accept st1 second _ Hbid2') as Hrows2.
  set (st2 := store_after (SQLiteStorage.acceptTenderBid second) st1) in *.
  destruct (head_filter_Some _ _ _ Hbid1) as [Hid1 _].
  destruct (head_filter_Some _ _ _ Hbid2) as [Hid2 _].
  unfold result_of. rewrite !getTenderBid_run. cbn [fst].
  rewrite Hrows2, Hrows1.
  rewrite !filter_fmap_stable by apply accept_row_any_id.
  rewrite !head_fmap, Hbid1, Hbid2. cbn [fmap option_fmap option_map].
  split; [|split].
  - do 2 f_equal. unfold accept_row at 2. rewrite Hid1, assign_singleton.
    unfold accept_row. rewrite eq_insert_ne by done.
    by rewrite (eq_id_distinct second first bid1).
  - do 2 f_equal. unfold accept_row at 2.
    rewrite (eq_id_distinct first second bid2) by done.
    unfold accept_row. by rewrite Hid2, assign_singleton.
  - intros i r Hr Hflag. rewrite !list_lookup_fmap, Hr. cbn.
    eexists. split; [reflexivity|]. split.
    + by rewrite !accept_row_col.
    + by apply accept_row_keeps_flag, accept_row_keeps_flag.
Qed.

Lemma acceptTenderBid_twice_witness :
  let st2 := store_after (SQLiteStorage.acceptTenderBid 2)
               (store_after (SQLiteStorage.acceptTenderBid 1) second_store) in
  col example_bid "tenderId" = col second_bid "tenderId"
  ∧ result_of (SQLiteStorage.getTenderBid 1) st2
    = Returns (Some (<["isAccepted" := VBool true]> example_bid))
  ∧ result_of (SQLiteStorage.getTenderBid 2) st2
    = Returns (Some (<["isAccepted" := VBool true]> second_bid)).
Proof.
  destruct (acceptTenderBid_twice second_store 1 2 example_bid second_bid)
    as (H1 & H2 & _); [discriminate|reflexivity|reflexivity|].
  split; [reflexivity|]. split; [exact H1|exact H2].
Defined.

(** ** More on the aggregate rating *)

Section RatingBounds.

Lemma total_bounds (ratings : list Z) (lo hi : Z) :
  (∀ z, z ∈ ratings → lo <= z <= hi)%Z →
  (Z.of_nat (length ratings) * lo <= total ratings <= Z.of_nat (length ratings) * hi)%Z.
Proof.
  induction ratings as [|z ratings IH]; intros H.
  - cbn. lia.
  - assert (lo <= z <= hi)%Z as Hz by (apply H; left).
    assert (∀ z', z' ∈ ratings → (lo <= z' <= hi)%Z) as H' by (intros; apply H; by right).
    specialize (IH H'). unfold total in *. cbn [foldr length]. lia.
Qed.

Lemma Math_round_div_bounds (t n lo hi : Z) :
  (0 < n)%Z → (Z.abs t < 2 ^ 52)%Z → (n * lo <= t <= n * hi)%Z →
  (lo <= Math_round_div t n <= hi)%Z.
Proof.
  intros Hn Hsmall Ht. rewrite Math_round_div_exact by done. split.
  - apply Z.div_le_lower_bound; nia.
  - apply Z.lt_succ_r, Z.div_lt_upper_bound; nia.
Qed.

Lemma rate_row_id (userId rating : Z) (v : value) (r : row) :
  drizzle.eq "id" v (rate_row userId rating r) = drizzle.eq "id" v r.
Proof. unfold rate_row. by apply (update_row_id userId). Qed.

Lemma rate_row_idem (userId rating : Z) (r : row) :
  rate_row userId rating (rate_row userId rating r) = rate_row userId rating r.
Proof.
  unfold rate_row at 1. rewrite rate_row_id. unfold rate_row.
  case_match; [|done]. by rewrite !assign_singleton, insert_insert_eq.
Qed.

Lemma alter_fmap_idem (f : row → row) (t : string) (m : gmap string (list row)) :
  (∀ r, f (f r) = f r) → alter (fmap f) t (alter (fmap f) t m) = alter (fmap f) t m.
Proof.
  intros Hf. apply map_eq. intros k. rewrite !lookup_alter.
  repeat case_decide; simplify_eq; try done.
  destruct (m !! k) as [rows|]; [|done]. cbn. f_equal.
  rewrite <- list_fmap_compose. apply list_fmap_ext. intros ? r _. apply Hf.
Qed.

Lemma updateUserRating_missing_user (st : store) (userId : Z) :
  reviews_for userId st ≠ [] →
  List.filter (drizzle.eq "id" (VNum userId)) (rows_of "users" st) = [] →
  let mean := averageRating (reviews_for userId st) in
  SQLiteStorage.updateUserRating userId st
  = (Throws TypeError,
     {| tables := alter (fmap (rate_row userId mean)) "users" (tables st);
        clock := clock st;
        journal := journal st ++ [Select "reviews"; Update "users" {["rating" := VNum mean]}] |}).
Proof.
  intros Hne Hnone mean.
  unfold SQLiteStorage.updateUserRating, bind, db_select.
  fold (reviews_for userId st).
  rewrite bool_decide_eq_false_2 by (by destruct (reviews_for userId st)).
  fold (totalRating (reviews_for userId st)). fold (averageRating (reviews_for userId st)).
  fold mean. rewrite db_update_fields by apply map_non_empty_singleton.
  rewrite rows_of_record_statement, Hnone.
  cbn [fmap list_fmap]. unfold throw, record_statement, with_tables.
  cbn [tables clock journal]. by rewrite <- app_assoc.
Qed.

End RatingBounds.

(** X10. The rating [updateUserRating] returns lies between the lowest and
    the highest rating among the reviews: reviews rated 1 to 5 give a user
    rated 1 to 5.  The ratings are numbers, of a magnitude and in a number
    for which their sums are exact, below 2^52. *)
Theorem updateUserRating_range (st : store) (userId lo hi bound : Z) (user : row) :
  reviews_for userId st ≠ [] →
  rated_within bound (reviews_for userId st) → sums_exactly bound (reviews_for userId st) →
  user ∈ rows_of "users" st → drizzle.eq "id" (VNum userId) user = true →
  (∀ review, review ∈ reviews_for userId st → lo <= rating_of review <= hi)%Z →
  ∃ rating, result_of (SQLiteStorage.updateUserRating userId) st = Returns (VNum rating)
            ∧ (lo <= rating <= hi)%Z.
Proof.
  intros Hne Hrated Hsums Huser Hid Hrange.
  pose proof (updateUserRating_some st userId user Hne Huser Hid) as Hrun.
  cbv zeta in Hrun. unfold result_of. rewrite Hrun. cbn [fst].
  eexists. split; [reflexivity|].
  destruct (total_rating_exact bound _ Hrated Hsums) as [Htotal Hsmall].
  unfold averageRating, totalRating. rewrite Htotal.
  apply Math_round_div_bounds; [|done|].
  - destruct (reviews_for userId st); [done|cbn; lia].
  - rewrite <- (length_fmap rating_of). apply total_bounds.
    intros z (review & -> & Hreview)%list_elem_of_fmap. by apply Hrange.
Qed.

Lemma updateUserRating_range_witness :
  ∃ rating, result_of (SQLiteStorage.updateUserRating 1) example_store = Returns (VNum rating)
            ∧ (3 <= rating <= 5)%Z.
Proof.
  apply (updateUserRating_range example_store 1 3 5 5 example_user).
  - discriminate.
  - intros review Hreview. apply list_elem_of_In in Hreview.
    destruct Hreview as [<-|[<-|[<-|[]]]]; eexists; (split; [reflexivity|done]).
  - reflexivity.
  - apply list_elem_of_In. left. reflexivity.
  - reflexivity.
  - intros review Hreview. apply list_elem_of_In in Hreview.
    destruct Hreview as [<-|[<-|[<-|[]]]]; split; discriminate.
Defined.

(** X11. When reviews are addressed to a user that has no row,
    [updateUserRating] raises a TypeError after an update that changed no
    row. *)
Theorem updateUserRating_unknown_user (st : store) (userId : Z) :
  reviews_for userId st ≠ [] →
  List.filter (drizzle.eq "id" (VNum userId)) (rows_of "users" st) = [] →
  result_of (SQLiteStorage.updateUserRating userId) st = Throws TypeError
  ∧ tables (store_after (SQLiteStorage.updateUserRating userId) st) = tables st.
Proof.
  intros Hne Hnone.
  pose proof (updateUserRating_missing_user st userId Hne Hnone) as Hrun.
  cbv zeta in Hrun. unfold result_of, store_after. rewrite Hrun. cbn [fst snd tables].
  split; [done|]. apply alter_fmap_id. intros r Hr. unfold rate_row.
  by rewrite (filter_nil_not_elem _ _ Hnone r Hr).
Qed.

Lemma updateUserRating_unknown_user_witness :
  reviews_for 7 second_store ≠ []
  ∧ result_of (SQLiteStorage.updateUserRating 7) second_store = Throws TypeError.
Proof.
  split; [discriminate|].
  apply (updateUserRating_unknown_user second_store 7); [discriminate|reflexivity].
Defined.

(** X12. [updateUserRating] is idempotent: a second call right after the
    first returns the same rating and leaves every table as the first call
    left it. *)
Theorem updateUserRating_idempotent (st : store) (userId : Z) (user : row) :
  reviews_for userId st ≠ [] →
  user ∈ rows_of "users" st → drizzle.eq "id" (VNum userId) user = true →
  let st1 := store_after (SQLiteStorage.updateUserRating userId) st in
  result_of (SQLiteStorage.updateUserRating userId) st1
  = result_of (SQLiteStorage.updateUserRating userId) st
  ∧ tables (store_after (SQLiteStorage.updateUserRating userId) st1) = tables st1.
Proof.
  intros Hne Huser Hid. cbv zeta.
  pose proof (updateUserRating_some st userId user Hne Huser Hid) as Hrun.
  cbv zeta in Hrun. set (mean := averageRating _) in Hrun.
  unfold store_after at 1 3 4, result_of at 2. rewrite Hrun. cbn [fst snd].
  set (st1 := {| tables := _ |}).
  assert (reviews_for userId st1 = reviews_for userId st) as Hreviews.
  { unfold reviews_for, rows_of, st1. cbn [tables]. by rewrite lookup_alter_ne. }
  assert (rate_row userId mean user ∈ rows_of "users" st1) as Huser1.
  { unfold st1. rewrite rows_of_update. apply list_elem_of_fmap. eauto. }
  assert (drizzle.eq "id" (VNum userId) (rate_row userId mean user) = true) as Hid1
    by (by rewrite rate_row_id).
  pose proof (updateUserRating_some st1 userId _ ltac:(by rewrite Hreviews) Huser1 Hid1)
    as Hrun1.
  cbv zeta in Hrun1. rewrite Hreviews in Hrun1. fold mean in Hrun1.
  unfold result_of, store_after. rewrite Hrun1. cbn [fst snd tables].
  split; [done|]. unfold st1. cbn [tables].
  apply alter_fmap_idem, rate_row_idem.
Qed.

Lemma updateUserRating_idempotent_witness :
  let st1 := store_after (SQLiteStorage.updateUserRating 1) example_store in
  result_of (SQLiteStorage.updateUserRating 1) st1 = Returns (VNum 4)
  ∧ tables (store_after (SQLiteStorage.updateUserRating 1) st1) = tables st1.
Proof.
  destruct (updateUserRating_idempotent example_store 1 example_user) as [Hsame Htables].
  - discriminate.
  - apply list_elem_of_In. left. reflexivity.
  - reflexivity.
  - split; [rewrite Hsame; reflexivity|exact Htables].
Defined.

(** ** Status and tracking of a delivery order *)

Section DeliveryOrders.

Lemma updateDeliveryOrderTracking_run (id : Z) (trackingCode : jsstring) (st : store) :
  let data := tracking_payload trackingCode (VNum (clock st)) in
  SQLiteStorage.updateDeliveryOrderTracking id trackingCode st
  = (Returns (update_row id data
              <$> head (List.filter (drizzle.eq "id" (VNum id)) (rows_of "deliveryOrders" st))),
     {| tables := alter (fmap (update_row id data)) "deliveryOrders" (tables st);
        clock := (clock st + 1)%Z;
        journal := journal st ++ [Update "deliveryOrders" data] |}).
Proof.
  cbv zeta. unfold SQLiteStorage.updateDeliveryOrderTracking, bind, TimestampUtils.now.
  fold (tracking_payload trackingCode (VNum (clock st))).
  rewrite db_update_by_id by apply insert_non_empty. unfold ret.
  f_equal. f_equal. apply head_fmap_update. apply filter_all.
Qed.

Lemma assign_status_payload (status : jsstring) (now : value) (r : row) :
  assign (status_payload status now) r = <["status" := VStr status]> (<["updatedAt" := now]> r).
Proof.
  unfold assign, status_payload.
  by rewrite <- insert_union_l, <- insert_union_singleton_l.
Qed.

Lemma assign_tracking_payload (code : jsstring) (now : value) (r : row) :
  assign (tracking_payload code now) r
  = <["trackingCode" := VStr code]> (<["updatedAt" := now]> r).
Proof.
  unfold assign, tracking_payload.
  by rewrite <- insert_union_l, <- insert_union_singleton_l.
Qed.

Lemma status_then_tracking (id : Z) (status code : jsstring) (t1 t2 : value) (r : row) :
  update_row id (tracking_payload code t2) (update_row id (status_payload status t1) r)
  = update_row id (status_payload status t2) (update_row id (tracking_payload code t1) r).
Proof.
  unfold update_row at 1 3.
  rewrite !update_row_id
    by (unfold status_payload, tracking_payload;
        by rewrite lookup_insert_ne, lookup_singleton_ne).
  unfold update_row. destruct (drizzle.eq "id" (VNum id) r); [|done].
  rewrite !assign_status_payload, !assign_tracking_payload.
  apply map_eq. intros k. rewrite !lookup_insert.
  repeat case_decide; by simplify_eq.
Qed.

End DeliveryOrders.

(** X13. The status and the tracking code of a delivery order are updated
    independently: the two updates, in either order, leave the same
    tables, where every order of the id has both the status and the
    tracking code given. *)
Theorem status_and_tracking_commute (st : store) (id : Z) (status code : jsstring) :
  let status_first :=
    store_after (SQLiteStorage.updateDeliveryOrderTracking id code)
                (store_after (SQLiteStorage.updateDeliveryOrderStatus id status) st) in
  let tracking_first :=
    store_after (SQLiteStorage.updateDeliveryOrderStatus id status)
                (store_after (SQLiteStorage.updateDeliveryOrderTracking id code) st) in
  tables status_first = tables tracking_first
  ∧ (∀ r, r ∈ rows_of "deliveryOrders" status_first →
          drizzle.eq "id" (VNum id) r = true →
          col r "status" = VStr status ∧ col r "trackingCode" = VStr code).
Proof.
  cbv zeta. unfold store_after.
  rewrite (updateDeliveryOrderStatus_run id status st),
    (updateDeliveryOrderTracking_run id code st). cbn [snd].
  rewrite updateDeliveryOrderStatus_run, updateDeliveryOrderTracking_run.
  cbn [snd tables clock]. split.
  - rewrite !alter_alter_eq. apply alter_ext. intros rows _.
    cbn. rewrite <- !list_fmap_compose. apply list_fmap_ext. intros ? r _.
    apply status_then_tracking.
  - intros r Hr Hid. unfold rows_of in Hr. cbn [tables] in Hr.
    rewrite alter_alter_eq, lookup_alter_eq in Hr.
    destruct (tables st !! "deliveryOrders") as [rows|]; cbn in Hr;
      [|by apply elem_of_nil in Hr].
    apply list_elem_of_fmap in Hr as (r1 & -> & Hr1).
    apply list_elem_of_fmap in Hr1 as (r0 & -> & _).
    rewrite !update_row_id in Hid
      by (unfold status_payload, tracking_payload;
          by rewrite lookup_insert_ne, lookup_singleton_ne).
    unfold update_row at 1 3.
    rewrite !update_row_id
      by (unfold status_payload, tracking_payload;
          by rewrite lookup_insert_ne, lookup_singleton_ne).
    unfold update_row. rewrite Hid.
    rewrite assign_status_payload, assign_tracking_payload. unfold col.
    rewrite !lookup_insert. repeat case_decide; by simplify_eq.
Qed.

Lemma status_and_tracking_commute_witness :
  tables (store_after (SQLiteStorage.updateDeliveryOrderTracking 1 (u "TR-1"))
            (store_after (SQLiteStorage.updateDeliveryOrderStatus 1 (u "sent")) second_store))
  = tables (store_after (SQLiteStorage.updateDeliveryOrderStatus 1 (u "sent"))
              (store_after (SQLiteStorage.updateDeliveryOrderTracking 1 (u "TR-1"))
                           second_store))
  ∧ ∀ r, r ∈ rows_of "deliveryOrders"
               (store_after (SQLiteStorage.updateDeliveryOrderTracking 1 (u "TR-1"))
                  (store_after (SQLiteStorage.updateDeliveryOrderStatus 1 (u "sent"))
                               second_store)) →
         drizzle.eq "id" (VNum 1) r = true →
         col r "status" = VStr (u "sent") ∧ col r "trackingCode" = VStr (u "TR-1").
Proof.
  exact (status_and_tracking_commute second_store 1 (u "sent") (u "TR-1")).
Defined.

(** ** Design projects *)

Section DesignProjects.

Lemma updateDesignProject_run (id : Z) (projectData : row) (st : store) :
  let data := project_payload projectData (VNum (clock st)) in
  SQLiteStorage.updateDesignProject id projectData st
  = (Returns ((fun r => hydrate_project (update_row id data r))
              <$> head (List.filter (drizzle.eq "id" (VNum id)) (rows_of "designProjects" st))),
     {| tables := alter (fmap (update_row id data)) "designProjects" (tables st);
        clock := (clock st + 1)%Z;
        journal := journal st ++ [Update "designProjects" data] |}).
Proof.
  cbv zeta. unfold SQLiteStorage.updateDesignProject, bind, TimestampUtils.now.
  fold (project_payload projectData (VNum (clock st))).
  rewrite db_update_by_id
    by (unfold project_payload; apply stringify_field_fields, stringify_field_fields,
          insert_non_empty).
  rewrite rows_of_same_tables. cbn [clock journal tables].
  pose proof (filter_all (drizzle.eq "id" (VNum id)) (rows_of "designProjects" st)) as Hall.
  destruct (List.filter _ (rows_of "designProjects" st)) as [|r found]; [done|].
  cbn [fmap list_fmap head option_fmap option_map]. unfold lift.
  rewrite with_project_lists_returns, update_row_same by (apply Hall; by left). done.
Qed.

Lemma append_payload_other (k k' : string) (elements : list json) (now : value) :
  k' ≠ k → k' ≠ "updatedAt" → append_payload k elements now !! k' = None.
Proof.
  intros H1 H2. unfold append_payload.
  by rewrite lookup_insert_ne, lookup_singleton_ne.
Qed.

Lemma addProjectVisualization_found (st : store) (id : Z) (url : jsstring) (project : row)
      (elements : list json) :
  head (List.filter (drizzle.eq "id" (VNum id)) (rows_of "designProjects" st)) = Some project →
  decode (col project "visualizationUrls") = JArr elements →
  let data := append_payload "visualizationUrls" (elements ++ [JStr url]) (VNum (clock st)) in
  SQLiteStorage.addProjectVisualization id url st
  = (Returns (Some (hydrate_project (assign data project))),
     {| tables := alter (fmap (update_row id data)) "designProjects" (tables st);
        clock := (clock st + 1)%Z;
        journal := journal st ++ [Select "designProjects"; Update "designProjects" data] |}).
Proof.
  intros Hhead Hdecode. cbv zeta.
  unfold SQLiteStorage.addProjectVisualization, bind, db_select.
  destruct (List.filter _ (rows_of "designProjects" st)) as [|p found] eqn:Hfound; [done|].
  cbn in Hhead. simplify_eq. unfold lift at 1 2.
  rewrite parseArray_returns, Hdecode. cbn [Array_push].
  unfold TimestampUtils.now. cbn [record_statement clock tables journal].
  fold (append_payload "visualizationUrls" (elements ++ [JStr url]) (VNum (clock st))).
  rewrite db_update_by_id, rows_of_same_tables by apply insert_non_empty.
  rewrite Hfound. cbn [fmap list_fmap]. unfold lift, ret.
  rewrite with_project_lists_returns. cbn [clock journal].
  by rewrite <- app_assoc.
Qed.

Lemma addProjectFile_found (st : store) (id : Z) (url : jsstring) (project : row)
      (elements : list json) :
  head (List.filter (drizzle.eq "id" (VNum id)) (rows_of "designProjects" st)) = Some project →
  decode (col project "projectFiles") = JArr elements →
  let data := append_payload "projectFiles" (elements ++ [JStr url]) (VNum (clock st)) in
  SQLiteStorage.addProjectFile id url st
  = (Returns (Some (hydrate_project (assign data project))),
     {| tables := alter (fmap (update_row id data)) "designProjects" (tables st);
        clock := (clock st + 1)%Z;
        journal := journal st ++ [Select "designProjects"; Update "designProjects" data] |}).
Proof.
  intros Hhead Hdecode. cbv zeta.
  unfold SQLiteStorage.addProjectFile, bind, db_select.
  destruct (List.filter _ (rows_of "designProjects" st)) as [|p found] eqn:Hfound; [done|].
  cbn in Hhead. simplify_eq. unfold lift at 1 2.
  rewrite parseArray_returns, Hdecode. cbn [Array_push].
  unfold TimestampUtils.now. cbn [record_statement clock tables journal].
  fold (append_payload "projectFiles" (elements ++ [JStr url]) (VNum (clock st))).
  rewrite db_update_by_id, rows_of_same_tables by apply insert_non_empty.
  rewrite Hfound. cbn [fmap list_fmap]. unfold lift, ret.
  rewrite with_project_lists_returns. cbn [clock journal].
  by rewrite <- app_assoc.
Qed.

Lemma string_array_snoc (L : list jsstring) (url : jsstring) :
  string_array L ++ [JStr url] = string_array (L ++ [url]).
Proof. unfold string_array. by rewrite fmap_app. Qed.

Lemma hydrate_project_appended (k other : string) (project : row) (L : list jsstring)
      (url : jsstring) (now : value) :
  let data := append_payload k (string_array L ++ [JStr url]) now in
  k ≠ "updatedAt" → other ≠ k → other ≠ "updatedAt" →
  decode (col (assign data project) k) = JArr (string_array (L ++ [url]))
  ∧ col (assign data project) other = col project other
  ∧ col (assign data project) "updatedAt" = now.
Proof.
  cbv zeta. intros Hk H1 H2. split; [|split].
  - rewrite (col_lookup _ _ (VStr (JsonUtils.stringify (VList (string_array (L ++ [url])))))).
    + apply decode_stringify_strings.
    + apply assign_lookup_Some. unfold append_payload.
      by rewrite lookup_insert_eq, string_array_snoc.
  - unfold col. by rewrite assign_lookup_None by by apply append_payload_other.
  - apply col_lookup, assign_lookup_Some. unfold append_payload.
    rewrite lookup_insert_ne by done. apply lookup_singleton_eq.
Qed.

End DesignProjects.

Lemma head_elem_of (rows : list row) (r : row) : head rows = Some r → r ∈ rows.
Proof. destruct rows; [done|]. intros [= ->]. left. Qed.

(** X14. [updateEstimate] and [updateDesignProject] store the instant of
    the call as [updatedAt] in every row they update, whatever [updatedAt]
    the payload carries. *)
Theorem updates_stamp_the_instant (st : store) (id : Z) (data : row) :
  (∀ r, r ∈ rows_of "estimates" (store_after (SQLiteStorage.updateEstimate id data) st) →
        drizzle.eq "id" (VNum id) r = true → col r "updatedAt" = VNum (clock st))
  ∧ (∀ r, r ∈ rows_of "designProjects"
                (store_after (SQLiteStorage.updateDesignProject id data) st) →
          drizzle.eq "id" (VNum id) r = true → col r "updatedAt" = VNum (clock st)).
Proof.
  split.
  - intros r. apply updateEstimate_stamps.
  - intros r Hr Hid. unfold store_after in Hr. rewrite updateDesignProject_run in Hr.
    cbn [snd] in Hr. rewrite rows_of_update in Hr.
    apply list_elem_of_fmap in Hr as (r0 & -> & _).
    unfold update_row in *. destruct (drizzle.eq "id" (VNum id) r0) eqn:E; [|congruence].
    apply col_lookup, assign_lookup_Some, project_payload_updatedAt.
Qed.

Lemma updates_stamp_the_instant_witness :
  let payload : row := list_to_map [("status", VStr (u "sent")); ("updatedAt", VNum 7)] in
  first_row_field "estimates" "updatedAt"
    (store_after (SQLiteStorage.updateEstimate 1 payload) example_store)
  = Some (VNum (clock example_store)).
Proof.
  intros payload.
  destruct (updates_stamp_the_instant example_store 1 payload) as [Hestimate _].
  assert (∃ r, head (rows_of "estimates"
                       (store_after (SQLiteStorage.updateEstimate 1 payload) example_store))
               = Some r) as [r Hr] by (eexists; reflexivity).
  unfold first_row_field. rewrite Hr. cbn [fmap option_fmap option_map]. f_equal.
  apply Hestimate.
  - by apply head_elem_of.
  - vm_compute in Hr. injection Hr as <-. reflexivity.
Defined.

(** X15. [addProjectVisualization] on a project whose stored visualizations
    decode to a list of strings stores that list with the new entry at the
    end and returns the record with it; the project files, and every
    column but [visualizationUrls] and [updatedAt], are left as they
    were.  A bare address kept from before the column held lists becomes
    the first entry. *)
Theorem addProjectVisualization_appends (st : store) (id : Z) (url : jsstring)
        (project : row) (L : list jsstring) :
  head (List.filter (drizzle.eq "id" (VNum id)) (rows_of "designProjects" st)) = Some project →
  decode (col project "visualizationUrls") = JArr (string_array L) →
  let data := append_payload "visualizationUrls" (string_array (L ++ [url]))
                             (VNum (clock st)) in
  let st' := store_after (SQLiteStorage.addProjectVisualization id url) st in
  (∃ returned,
     result_of (SQLiteStorage.addProjectVisualization id url) st = Returns (Some returned)
     ∧ returned !! "visualizationUrls" = Some (Decoded (JArr (string_array (L ++ [url]))))
     ∧ returned !! "projectFiles" = Some (Decoded (decode (col project "projectFiles"))))
  ∧ rows_of "designProjects" st' = update_row id data <$> rows_of "designProjects" st
  ∧ (∀ r k, k ≠ "visualizationUrls" → k ≠ "updatedAt" →
            col (update_row id data r) k = col r k)
  ∧ (∀ r, drizzle.eq "id" (VNum id) r = true →
          decode (col (update_row id data r) "visualizationUrls")
          = JArr (string_array (L ++ [url]))).
Proof.
  intros Hhead Hdecode. cbv zeta. unfold result_of, store_after.
  rewrite (addProjectVisualization_found st id url project _ Hhead Hdecode).
  cbn [fst snd]. rewrite string_array_snoc.
  split; [|split; [apply rows_of_update|split]].
  - rewrite <- string_array_snoc.
    destruct (hydrate_project_appended "visualizationUrls" "projectFiles" project L url
                (VNum (clock st))) as (Hlist & Hother & _); [done..|].
    cbv zeta in Hlist, Hother.
    eexists. split; [reflexivity|]. unfold hydrate_project. split.
    + rewrite lookup_insert_ne, lookup_insert_eq by done. by rewrite Hlist, string_array_snoc.
    + rewrite lookup_insert_eq. by rewrite Hother.
  - intros r k Hk1 Hk2. unfold col. rewrite update_row_frame; [done|].
    by apply append_payload_other.
  - intros r Hid. rewrite update_row_same by done. rewrite <- string_array_snoc.
    destruct (hydrate_project_appended "visualizationUrls" "projectFiles" r L url
                (VNum (clock st))) as (Hlist & _); [done..|].
    cbv zeta in Hlist. by rewrite Hlist, string_array_snoc.
Qed.

Lemma addProjectVisualization_appends_witness :
  let kept := u "https://example.com/a.png" in
  let added := u "https://example.com/b.png" in
  decode (col example_project "visualizationUrls") = JArr (string_array [kept])
  ∧ ∃ returned,
      result_of (SQLiteStorage.addProjectVisualization 1 added) second_store
      = Returns (Some returned)
      ∧ returned !! "visualizationUrls" = Some (Decoded (JArr (string_array [kept; added]))).
Proof.
  intros kept added. split; [reflexivity|].
  destruct (addProjectVisualization_appends second_store 1 added example_project [kept])
    as ((returned & Hresult & Hlist & _) & _); [reflexivity|reflexivity|].
  exists returned. split; [exact Hresult|exact Hlist].
Defined.

(** X16. [addProjectFile] on a project whose stored files decode to a list
    of strings, the empty list of a NULL column included, stores that list
    with the new entry at the end and returns the record with it; the
    visualizations, and every column but [projectFiles] and [updatedAt],
    are left as they were. *)
Theorem addProjectFile_appends (st : store) (id : Z) (url : jsstring)
        (project : row) (L : list jsstring) :
  head (List.filter (drizzle.eq "id" (VNum id)) (rows_of "designProjects" st)) = Some project →
  decode (col project "projectFiles") = JArr (string_array L) →
  let data := append_payload "projectFiles" (string_array (L ++ [url])) (VNum (clock st)) in
  let st' := store_after (SQLiteStorage.addProjectFile id url) st in
  (∃ returned,
     result_of (SQLiteStorage.addProjectFile id url) st = Returns (Some returned)
     ∧ returned !! "projectFiles" = Some (Decoded (JArr (string_array (L ++ [url]))))
     ∧ returned !! "visualizationUrls"
       = Some (Decoded (decode (col project "visualizationUrls"))))
  ∧ rows_of "designProjects" st' = update_row id data <$> rows_of "designProjects" st
  ∧ (∀ r k, k ≠ "projectFiles" → k ≠ "updatedAt" →
            col (update_row id data r) k = col r k)
  ∧ (∀ r, drizzle.eq "id" (VNum id) r = true →
          decode (col (update_row id data r) "projectFiles")
          = JArr (string_array (L ++ [url]))).
Proof.
  intros Hhead Hdecode. cbv zeta. unfold result_of, store_after.
  rewrite (addProjectFile_found st id url project _ Hhead Hdecode).
  cbn [fst snd]. rewrite string_array_snoc.
  split; [|split; [apply rows_of_update|split]].
  - rewrite <- string_array_snoc.
    destruct (hydrate_project_appended "projectFiles" "visualizationUrls" project L url
                (VNum (clock st))) as (Hlist & Hother & _); [done..|].
    cbv zeta in Hlist, Hother.
    eexists. split; [reflexivity|]. unfold hydrate_project. split.
    + rewrite lookup_insert_eq. by rewrite Hlist, string_array_snoc.
    + rewrite lookup_insert_ne, lookup_insert_eq by done. by rewrite Hother.
  - intros r k Hk1 Hk2. unfold col. rewrite update_row_frame; [done|].
    by apply append_payload_other.
  - intros r Hid. rewrite update_row_same by done. rewrite <- string_array_snoc.
    destruct (hydrate_project_appended "projectFiles" "visualizationUrls" r L url
                (VNum (clock st))) as (Hlist & _); [done..|].
    cbv zeta in Hlist. by rewrite Hlist, string_array_snoc.
Qed.

Lemma addProjectFile_appends_witness :
  let added := u "plan.pdf" in
  col example_project "projectFiles" = VNull
  ∧ ∃ returned,
      result_of (SQLiteStorage.addProjectFile 1 added) second_store = Returns (Some returned)
      ∧ returned !! "projectFiles" = Some (Decoded (JArr (string_array [added]))).
Proof.
  intros added. split; [reflexivity|].
  destruct (addProjectFile_appends second_store 1 added example_project [])
    as ((returned & Hresult & Hlist & _) & _); [reflexivity|reflexivity|].
  exists returned. split; [exact Hresult|exact Hlist].
Defined.

(** X17. The two appends write nothing when they cannot append: with no
    project of the id they return undefined; with a stored column that
    decodes to something that is not a list they raise a TypeError.  In
    both cases every table is left as it was. *)
Theorem addProject_without_list (st : store) (id : Z) (url : jsstring) :
  let found := head (List.filter (drizzle.eq "id" (VNum id)) (rows_of "designProjects" st)) in
  (found = None →
   result_of (SQLiteStorage.addProjectVisualization id url) st = Returns None
   ∧ result_of (SQLiteStorage.addProjectFile id url) st = Returns None
   ∧ tables (store_after (SQLiteStorage.addProjectVisualization id url) st) = tables st
   ∧ tables (store_after (SQLiteStorage.addProjectFile id url) st) = tables st)
  ∧ (∀ project, found = Some project →
       (∀ elements, decode (col project "visualizationUrls") ≠ JArr elements) →
       result_of (SQLiteStorage.addProjectVisualization id url) st = Throws TypeError
       ∧ tables (store_after (SQLiteStorage.addProjectVisualization id url) st) = tables st)
  ∧ (∀ project, found = Some project →
       (∀ elements, decode (col project "projectFiles") ≠ JArr elements) →
       result_of (SQLiteStorage.addProjectFile id url) st = Throws TypeError
       ∧ tables (store_after (SQLiteStorage.addProjectFile id url) st) = tables st).
Proof.
  cbv zeta. unfold result_of, store_after, SQLiteStorage.addProjectVisualization,
    SQLiteStorage.addProjectFile, bind, db_select.
  destruct (List.filter _ (rows_of "designProjects" st)) as [|p others]; cbn [head].
  - split; [done|]. split; intros project [=].
  - split; [done|]. split; intros project [= <-] Hnot; unfold lift at 1 2;
      rewrite parseArray_returns;
      (destruct (decode _) as [| | | |elements|] eqn:E; [..|by destruct (Hnot elements)|]);
      done.
Qed.

Lemma addProject_without_list_witness :
  result_of (SQLiteStorage.addProjectVisualization 9 (u "x.png")) broken_project_store
  = Returns None
  ∧ result_of (SQLiteStorage.addProjectVisualization 1 (u "x.png")) broken_project_store
    = Throws TypeError
  ∧ result_of (SQLiteStorage.addProjectFile 1 (u "x.pdf")) broken_project_store
    = Throws TypeError.
Proof.
  destruct (addProject_without_list broken_project_store 9 (u "x.png")) as (Habsent & _).
  destruct (addProject_without_list broken_project_store 1 (u "x.png")) as (_ & Hvis & _).
  destruct (addProject_without_list broken_project_store 1 (u "x.pdf")) as (_ & _ & Hfile).
  split; [apply Habsent; reflexivity|]. split.
  - eapply Hvis; [reflexivity|]. intros elements. vm_compute. discriminate.
  - eapply Hfile; [reflexivity|]. intros elements. vm_compute. discriminate.
Defined.

(** ** Listings by an optional id *)



(** ** Tenders of a person type *)

(** X19. For a person type that is not the empty text,
    [getTendersByPersonType] selects the tenders that [getTenders] selects
    under that criterion alone, in the same order; it hands them back with
    the required professions decoded as well.  For the empty text
    [getTenders] drops the criterion and returns every tender. *)
Theorem getTendersByPersonType_agrees (st : store) (personType : jsstring) :
  let filters := {| TenderFilters.category := None; TenderFilters.location := None;
                    TenderFilters.status := None; TenderFilters.userId := None;
                    TenderFilters.searchTerm := None;
                    TenderFilters.personType := Some personType;
                    TenderFilters.requiredProfessions := None |} in
  let matching := List.filter (drizzle.eq "personType" (VStr personType))
                              (rows_of "tenders" st) in
  result_of (SQLiteStorage.getTendersByPersonType personType) st
  = Returns (hydrate_with_professions <$> matching)
  ∧ (personType ≠ [] →
     result_of (SQLiteStorage.getTenders (Some filters)) st = Returns (hydrate <$> matching))
  ∧ (personType = [] →
     result_of (SQLiteStorage.getTenders (Some filters)) st
     = Returns (hydrate <$> rows_of "tenders" st)).
Proof.
  cbv zeta. split; [|split].
  - unfold result_of, SQLiteStorage.getTendersByPersonType, bind, db_select, lift.
    cbn [fst]. by rewrite (map_outcome_returns _ hydrate_with_professions)
      by apply with_images_and_professions_returns.
  - intros Hne. rewrite getTenders_result. cbn [fmap option_fmap option_map default].
    unfold TenderFilters.conditions. cbn [TenderFilters.category TenderFilters.location
      TenderFilters.status TenderFilters.userId TenderFilters.searchTerm
      TenderFilters.personType TenderFilters.requiredProfessions if_string if_number app].
    apply truthy_str in Hne. rewrite Hne. cbn [app]. unfold selected. do 2 f_equal.
    apply filter_ext. intros r. unfold drizzle.and. cbn [id forallb].
    apply andb_true_r.
  - intros ->. rewrite getTenders_result. cbn [fmap option_fmap option_map default].
    change (TenderFilters.conditions _) with (@nil (row → bool)).
    by rewrite selected_nil.
Qed.

Lemma getTendersByPersonType_agrees_witness :
  let filters := {| TenderFilters.category := None; TenderFilters.location := None;
                    TenderFilters.status := None; TenderFilters.userId := None;
                    TenderFilters.searchTerm := None;
                    TenderFilters.personType := Some (u "individual");
                    TenderFilters.requiredProfessions := None |} in
  result_of (SQLiteStorage.getTenders (Some filters)) second_store
  = Returns (hydrate <$> rows_of "tenders" second_store).
Proof.
  destruct (getTendersByPersonType_agrees second_store (u "individual")) as (_ & Hsame & _).
  cbv zeta in *. rewrite Hsame; [reflexivity|discriminate].
Defined.

(** ** The parameters of an update statement *)

Section UpdateQuery.

Lemma placeholders_app (a b : string) :
  placeholders (a +:+ b) = (placeholders a + placeholders b)%nat.
Proof.
  induction a as [|c a IH]; [done|].
  change (String c a +:+ b) with (String c (a +:+ b)).
  cbn [placeholders]. rewrite IH. lia.
Qed.

Lemma placeholders_concat (sep : string) (l : list string) :
  placeholders sep = 0%nat →
  placeholders (String.concat sep l) = sum_list (placeholders <$> l).
Proof.
  intros Hsep. induction l as [|x l IH]; [done|].
  destruct l as [|y l]; [cbn; lia|].
  change (String.concat sep (x :: y :: l)) with (x +:+ sep +:+ String.concat sep (y :: l)).
  rewrite !placeholders_app, IH, Hsep. cbn. lia.
Qed.

Lemma placeholders_identifier_char (a : ascii) :
  sqliteDb.is_identifier_char a = true →
  Ascii.eqb a "?" = false
  ∧ (DatabaseUtils.is_upper a = true → Ascii.eqb (DatabaseUtils.toLowerCase a) "?" = false).
Proof. destruct a as [[] [] [] [] [] [] [] []]; vm_compute; try done. Qed.

Lemma placeholders_camelToSnake (key : string) :
  forallb sqliteDb.is_identifier_char (list_ascii_of_string key) = true →
  placeholders (DatabaseUtils.camelToSnake key) = 0%nat.
Proof.
  induction key as [|a key IH]; [done|]. cbn [list_ascii_of_string forallb].
  intros (Ha & Hkey)%andb_true_iff.
  destruct (placeholders_identifier_char a Ha) as [Hq Hlow].
  cbn [DatabaseUtils.camelToSnake]. destruct (DatabaseUtils.is_upper a) eqn:E.
  - cbn [placeholders]. rewrite (Hlow eq_refl), (IH Hkey). done.
  - cbn [placeholders]. rewrite Hq, (IH Hkey). done.
Qed.

Lemma placeholders_assignments (fields : list string) :
  (∀ key, key ∈ fields → sqliteDb.is_identifier key = true) →
  sum_list (placeholders <$> ((fun key => DatabaseUtils.camelToSnake key +:+ " = ?") <$> fields))
  = length fields.
Proof.
  induction fields as [|key fields IH]; [done|]. intros Hfields.
  cbn [fmap list_fmap sum_list length]. rewrite placeholders_app.
  fold (fmap (M := list) placeholders). fold (fmap (M := list)
    (fun key => DatabaseUtils.camelToSnake key +:+ " = ?")).
  rewrite IH by (intros k Hk; apply Hfields; by right).
  assert (sqliteDb.is_identifier key = true) as Hkey by (apply Hfields; left).
  apply identifier_chars in Hkey as [_ Hkey].
  rewrite (placeholders_camelToSnake key Hkey). done.
Qed.

Lemma placeholders_identifier (name : string) :
  sqliteDb.is_identifier name = true → placeholders name = 0%nat.
Proof.
  intros [_ Hchars]%identifier_chars.
  induction name as [|a name IH]; [done|].
  cbn [list_ascii_of_string forallb] in Hchars.
  apply andb_true_iff in Hchars as [Ha Hname].
  destruct (placeholders_identifier_char a Ha) as [Hq _].
  cbn [placeholders]. by rewrite Hq, (IH Hname).
Qed.

Lemma zip_fields (f : string → string) (fields : object) :
  zip (f <$> fields.*1) fields.*2 = (fun property => (f property.1, property.2)) <$> fields.
Proof.
  induction fields as [|[k v] fields IH]; [done|]. cbn. by rewrite <- IH.
Qed.

End UpdateQuery.

(** X20. For a table name and field names that are names of letters,
    digits and underscores, the statement text of [buildUpdateQuery] has
    one [?] more than the values it returns, the one left for the id that
    [updateUser] binds last.  The text reads back as the update of the
    snake-case columns of the fields, in the order of the payload, and
    then of [updated_at]; the values are, in the same order, those of the
    fields and then the instant of the call. *)
Theorem buildUpdateQuery_placeholders (st : store) (tableName : string) (data : object) :
  sqliteDb.is_identifier tableName = true →
  (∀ key v, (key, v) ∈ data → sqliteDb.is_identifier key = true) →
  let columns := (DatabaseUtils.camelToSnake <$> data.*1) ++ ["updated_at"] in
  ∃ q, result_of (DatabaseUtils.buildUpdateQuery tableName data) st = Returns q
       ∧ placeholders (DatabaseUtils.query q) = S (length (DatabaseUtils.values q))
       ∧ length columns = length (DatabaseUtils.values q)
       ∧ zip columns (DatabaseUtils.values q)
         = ((fun property => (DatabaseUtils.camelToSnake property.1, property.2)) <$> data)
           ++ [("updated_at", VNum (clock st))]
       ∧ (data ≠ [] →
          DatabaseUtils.query q = update_text tableName columns
          ∧ sqliteDb.parse_update (DatabaseUtils.query q)
            = Some (sqliteDb.UpdateById tableName columns)).
Proof.
  intros Htable Hkeys. cbv zeta. eexists. split; [reflexivity|].
  cbn [DatabaseUtils.query DatabaseUtils.values].
  split; [|split; [|split]].
  - rewrite !placeholders_app, placeholders_concat, placeholders_assignments; [| |done].
    + rewrite (placeholders_identifier tableName Htable).
      rewrite length_app, !length_fmap. cbn. lia.
    + intros key ((k & v) & -> & Hin)%list_elem_of_fmap. by apply (Hkeys k v).
  - by rewrite !length_app, !length_fmap.
  - rewrite zip_with_app by (by rewrite !length_fmap). by rewrite zip_fields.
  - intros Hne. rewrite query_text by (by destruct data). split; [done|].
    apply parse_update_text; [done|by destruct (_ <$> _)|].
    apply Forall_app. split; [|by repeat constructor].
    apply Forall_fmap, Forall_fmap, Forall_forall. intros [k v] Hin. cbn.
    by apply camelToSnake_column, (Hkeys k v).
Qed.

Lemma buildUpdateQuery_placeholders_witness :
  ∃ q, result_of (DatabaseUtils.buildUpdateQuery "users"
                    [("firstName", VStr (u "Ann")); ("rating", VNum 5)]) example_store
       = Returns q
       ∧ placeholders (DatabaseUtils.query q) = S (length (DatabaseUtils.values q))
       ∧ DatabaseUtils.values q = [VStr (u "Ann"); VNum 5; VNum (clock example_store)]
       ∧ sqliteDb.parse_update (DatabaseUtils.query q)
         = Some (sqliteDb.UpdateById "users" ["first_name"; "rating"; "updated_at"]).
Proof.
  destruct (buildUpdateQuery_placeholders example_store "users"
              [("firstName", VStr (u "Ann")); ("rating", VNum 5)])
    as (q & Hq & Hcount & _ & _ & Htext).
  - reflexivity.
  - intros key v Hin. apply list_elem_of_In in Hin.
    destruct Hin as [[= <- <-]|[[= <- <-]|[]]]; reflexivity.
  - exists q. split; [exact Hq|]. split; [exact Hcount|].
    injection Hq as <-. split; [reflexivity|]. by apply Htext.
Defined.

(** ** Shortcuts for a change of status *)

(** X21. A change of status by [updateEstimateStatus] or
    [updateDesignProjectStatus] is the general update with a payload that
    names the status alone: same result, same store. *)
Theorem status_shortcuts (st : store) (id : Z) (status : jsstring) :
  SQLiteStorage.updateEstimateStatus id status st
  = SQLiteStorage.updateEstimate id (status_only status) st
  ∧ SQLiteStorage.updateDesignProjectStatus id status st
    = SQLiteStorage.updateDesignProject id (status_only status) st.
Proof.
  unfold SQLiteStorage.updateEstimateStatus, SQLiteStorage.updateEstimate,
    SQLiteStorage.updateDesignProjectStatus, SQLiteStorage.updateDesignProject,
    status_only, bind, TimestampUtils.now.
  assert (∀ now : value,
            <["updatedAt" := now]> ({["status" := VStr status]} : row)
            = <["status" := VStr status]> {["updatedAt" := now]}) as Hdata.
  { intros now. rewrite <- !insert_empty. by rewrite insert_insert_ne. }
  split.
  - by rewrite Hdata.
  - unfold stringify_field, col. rewrite Hdata.
    rewrite !lookup_insert_ne, !lookup_singleton_ne by done. cbn [default from_option truthy].
    rewrite !lookup_insert_ne, !lookup_singleton_ne by done. done.
Qed.

(** ** Reads by id and listings *)

(** X22. The record a read by id returns is one that the listing without
    criteria returns too, for tenders, design projects, delivery orders
    and estimates.  [getTender] and [getDeliveryOrder] return undefined
    exactly when no row of the table has the id. *)
Theorem read_by_id_in_listing (st : store) (id : Z) :
  (∀ t, result_of (SQLiteStorage.getTender id) st = Returns (Some t) →
        ∃ all, result_of (SQLiteStorage.getTenders None) st = Returns all ∧ t ∈ all)
  ∧ (∀ p, result_of (SQLiteStorage.getDesignProject id) st = Returns (Some p) →
          ∃ all, result_of (SQLiteStorage.getDesignProjects None) st = Returns all ∧ p ∈ all)
  ∧ (∀ o, result_of (SQLiteStorage.getDeliveryOrder id) st = Returns (Some o) →
          ∃ all, result_of (SQLiteStorage.getDeliveryOrders None) st = Returns all
                 ∧ o ∈ all ∧ col o "id" = VNum id)
  ∧ (∀ e, result_of (SQLiteStorage.getEstimate id) st = Returns (Some e) →
          ∃ all, result_of (SQLiteStorage.getEstimates None None) st = Returns all
                 ∧ e ∈ all ∧ col e "id" = VNum id)
  ∧ (result_of (SQLiteStorage.getTender id) st = Returns None
     ↔ ∀ r, r ∈ rows_of "tenders" st → col r "id" ≠ VNum id)
  ∧ (result_of (SQLiteStorage.getDeliveryOrder id) st = Returns None
     ↔ ∀ r, r ∈ rows_of "deliveryOrders" st → col r "id" ≠ VNum id).
Proof.
  assert (∀ rows r, head (List.filter (drizzle.eq "id" (VNum id)) rows) = Some r →
                    r ∈ rows ∧ col r "id" = VNum id) as Hfound.
  { intros rows r Hhead. apply head_elem_of in Hhead.
    apply list_elem_of_In, filter_In in Hhead as [Hin Hid].
    split; [by apply list_elem_of_In|]. by apply sql_eq_num. }
  assert (∀ rows, head (List.filter (drizzle.eq "id" (VNum id)) rows) = None
                  ↔ ∀ r, r ∈ rows → col r "id" ≠ VNum id) as Hnone.
  { intros rows. split.
    - intros Hhead r Hin Hid.
      assert (r ∈ List.filter (drizzle.eq "id" (VNum id)) rows) as Hr.
      { apply list_elem_of_In, filter_In. split; [by apply list_elem_of_In|].
        by apply sql_eq_num. }
      destruct (List.filter _ rows); [by apply elem_of_nil in Hr|done].
    - intros Hall. destruct (List.filter _ rows) as [|r others] eqn:E; [done|].
      assert (r ∈ List.filter (drizzle.eq "id" (VNum id)) rows) as Hr
        by (rewrite E; left).
      apply list_elem_of_In, filter_In in Hr as [Hin Hid].
      destruct (Hall r); [by apply list_elem_of_In|by apply sql_eq_num]. }
  repeat split.
  - intros t. unfold result_of. rewrite getTender_run. cbn [fst]. intros [= Ht].
    destruct (head _) as [r|] eqn:E; [|done]. injection Ht as <-.
    apply Hfound in E as [Hin _]. eexists. split; [apply getTenders_result|].
    cbn [fmap option_fmap option_map default]. rewrite selected_nil.
    apply list_elem_of_fmap. by exists r.
  - intros p. unfold result_of, SQLiteStorage.getDesignProject,
      SQLiteStorage.getDesignProjects, bind, db_select_all, db_select, lift. cbn [fst].
    rewrite filter_true, (map_outcome_returns _ hydrate_project)
      by apply with_project_lists_returns.
    destruct (List.filter _ _) as [|r others] eqn:E; [done|].
    rewrite with_project_lists_returns. intros [= <-].
    destruct (Hfound (rows_of "designProjects" st) r) as [Hin _]; [by rewrite E|].
    eexists. split; [done|]. apply list_elem_of_fmap. by exists r.
  - intros o. unfold result_of, SQLiteStorage.getDeliveryOrder,
      SQLiteStorage.getDeliveryOrders, bind, db_select_all, db_select, ret. cbn [fst].
    rewrite filter_true. intros [= Ho]. apply Hfound in Ho as [Hin Hid].
    by exists (rows_of "deliveryOrders" st).
  - intros e. unfold result_of at 1, SQLiteStorage.getEstimate, bind, db_select, ret.
    cbn [fst]. intros [= He]. apply Hfound in He as [Hin Hid].
    unfold SQLiteStorage.getEstimates. rewrite filtered_select_result.
    cbn [if_number app default]. rewrite selected_nil.
    by exists (rows_of "estimates" st).
  - unfold result_of. rewrite getTender_run. cbn [fst]. intros [= Ht].
    apply Hnone. by destruct (head _).
  - intros Hall. unfold result_of. rewrite getTender_run. cbn [fst].
    apply Hnone in Hall. by rewrite Hall.
  - unfold result_of, SQLiteStorage.getDeliveryOrder, bind, db_select, ret. cbn [fst].
    intros [= Ho]. by apply Hnone.
  - intros Hall. unfold result_of, SQLiteStorage.getDeliveryOrder, bind, db_select, ret.
    cbn [fst]. apply Hnone in Hall. by rewrite Hall.
Qed.

Lemma read_by_id_in_listing_witness :
  ∃ all, result_of (SQLiteStorage.getDeliveryOrders None) second_store = Returns all
         ∧ (∃ o, o ∈ all ∧ col o "id" = VNum 1).
Proof.
  destruct (read_by_id_in_listing second_store 1) as (_ & _ & Horder & _).
  destruct (result_of (SQLiteStorage.getDeliveryOrder 1) second_store) as [[o|]|] eqn:E;
    [|vm_compute in E; discriminate E..].
  destruct (Horder o) as (all & Hall & Hin & Hid); [done|].
  exists all. split; [exact Hall|]. by exists o.
Defined.
